(** * MetaUI: widget tree, layout engine and event dispatch

    A shallow embedding of the widget core of MetaUI (core.hpp, widget.hpp,
    layouts.hpp, widgets.hpp and the [Widget::render] part of renderer.hpp),
    followed by the properties proved about it.

    Modelling conventions.
    - C++ [float] values are modelled by exact rationals ([Q]): rounding,
      infinities and NaN are not represented.  Comparisons are the boolean
      ones of the source ([<], [<=], ...); [std::max], [std::min] and
      [std::clamp] are written out as the standard library defines them.
      Where the outcome depends on rounding ([Slider::updateValue] at the
      right end of the track) the method is embedded a second time over
      IEEE 754 binary32 ([F32], built on the [SpecFloat] specification:
      24 bits of precision, round to nearest, ties to even).
    - [size_t] and [int] values are [nat] / [Z]; the only [size_t]
      subtraction ([children_.size() - 1]) sits behind an emptiness test.
    - A container owns its children exclusively, so the tree is an inductive
      type (one widget shared between two parents is not represented); every
      method that mutates the receiver returns the new receiver.
    - Virtual methods are dispatched on the class tag of the widget.  Where a
      method reaches the same child twice ([measure] twice, or [measure] then
      [layout]) the recursion is bounded by a counter started above the depth
      of the tree; [measure_eq] and [layout_eq] show that the bound is not
      observable.
    - Event handler closures are opaque to the toolkit: a registered handler
      is a tag, and calling it appends an entry to a trace.
    - The renderer is the capability the widgets call into: font and image
      lookup, text measurement, and the drawing calls, which are recorded in
      order.
    - [std::string::insert]/[erase] with a position past the end throw,
      [operator[]] on a vector past the end is undefined: both are errors of
      the [result] monad.  [substr(0, n)] cuts [n] at the end of the string
      and does not throw. *)

From Stdlib Require Import QArith Qminmax Lqa ZArith List String Ascii Bool Lia.
From Stdlib Require Import DecimalString.
From Stdlib Require Import SpecFloat.
Import ListNotations.

Local Open Scope Q_scope.

(** ** Numbers *)

Definition Qltb (a b : Q) : bool := negb (Qle_bool b a).
Definition Qgtb (a b : Q) : bool := Qltb b a.
Definition Qleb (a b : Q) : bool := Qle_bool a b.
Definition Qgeb (a b : Q) : bool := Qle_bool b a.

(** [std::max(a, b)] is [(a < b) ? b : a]; [std::min(a, b)] is
    [(b < a) ? b : a]; [std::clamp(v, lo, hi)] is
    [(v < lo) ? lo : (hi < v) ? hi : v]. *)
Definition fmax (a b : Q) : Q := if Qltb a b then b else a.
Definition fmin (a b : Q) : Q := if Qltb b a then b else a.
Definition clamp (v lo hi : Q) : Q :=
  if Qltb v lo then lo else if Qltb hi v then hi else v.

Definition of_size_t (n : nat) : Q := inject_Z (Z.of_nat n).
Definition of_int (z : Z) : Q := inject_Z z.

(** ** binary32

    [float] as the hardware computes it: each operation is the exact one
    followed by rounding to 24 significant bits, to nearest with ties to
    even.  [lit num den] is the literal written [num/den] in decimal (the
    nearest binary32 value of the quotient, as the compiler produces it for
    a literal such as [0.6f]). *)
Module F32.
Definition prec : Z := 24.
Definition emax : Z := 128.
Definition f32 : Type := spec_float.
Definition sub : f32 -> f32 -> f32 := SFsub prec emax.
Definition ltb : f32 -> f32 -> bool := SFltb.
Definition leb : f32 -> f32 -> bool := SFleb.
Definition eqb : f32 -> f32 -> bool := SFeqb.
(** [std::clamp(v, lo, hi)], with the comparisons of binary32 (every
    comparison with a NaN is false). *)
Definition clamp (v lo hi : f32) : f32 :=
  if ltb v lo then lo else if ltb hi v then hi else v.
End F32.

(** ** Errors *)

Inductive error : Type :=
| IndexOutOfRange    (* vector operator[] past the end *)
| StringOutOfRange   (* std::out_of_range from std::string *)
| FuelExhausted.     (* recursion bound of the model reached *)

Inductive result (A : Type) : Type :=
| Ok (a : A)
| Err (e : error).
Arguments Ok {A} a.
Arguments Err {A} e.

Definition bind {A B : Type} (m : result A) (k : A -> result B) : result B :=
  match m with
  | Ok a => k a
  | Err e => Err e
  end.

Notation "x <- m ;; k" := (bind m (fun x => k))
  (at level 61, m at next level, right associativity).
Notation "' p <- m ;; k" := (bind m (fun x => let p := x in k))
  (at level 61, p pattern, m at next level, right associativity).

(** [v[i]] on a [std::vector]. *)
Definition at_ {A : Type} (v : list A) (i : nat) : result A :=
  match nth_error v i with
  | Some a => Ok a
  | None => Err IndexOutOfRange
  end.

(** ** core.hpp: geometry *)

Record Color : Type := mkColor { cr : Q; cg : Q; cb : Q; ca : Q }.

Definition withAlpha (c : Color) (alpha : Q) : Color :=
  mkColor (cr c) (cg c) (cb c) alpha.

Definition fromHex (hex : Z) : Color :=
  mkColor (inject_Z (Z.land (Z.shiftr hex 24) 255) / 255)
          (inject_Z (Z.land (Z.shiftr hex 16) 255) / 255)
          (inject_Z (Z.land (Z.shiftr hex 8) 255) / 255)
          (inject_Z (Z.land hex 255) / 255).

Record Point : Type := mkPoint { px : Q; py : Q }.

Record Size : Type := mkSize { width : Q; height : Q }.

Record Rect : Type := mkRect { rx : Q; ry : Q; rwidth : Q; rheight : Q }.

Definition contains (r : Rect) (p : Point) : bool :=
  Qgeb (px p) (rx r) && Qleb (px p) (rx r + rwidth r)
  && Qgeb (py p) (ry r) && Qleb (py p) (ry r + rheight r).

Definition topLeft (r : Rect) : Point := mkPoint (rx r) (ry r).

Record Padding : Type :=
  mkPadding { top : Q; right : Q; bottom : Q; left : Q }.

Definition Padding_all (all : Q) : Padding := mkPadding all all all all.
Definition horizontal (p : Padding) : Q := left p + right p.
Definition vertical (p : Padding) : Q := top p + bottom p.

Record BorderRadius : Type :=
  mkBorderRadius { topLeftR : Q; topRightR : Q; bottomRightR : Q; bottomLeftR : Q }.

Definition BorderRadius_all (all : Q) : BorderRadius :=
  mkBorderRadius all all all all.

(** ** core.hpp: layout and event vocabulary *)

Inductive SizeConstraint : Type := Fixed | Fill | Content | Percent.

Record SizeSpec : Type := mkSizeSpec { constraint : SizeConstraint; value : Q }.

Definition SizeSpec_content : SizeSpec := mkSizeSpec Content 0.
Definition SizeSpec_percent (v : Q) : SizeSpec := mkSizeSpec Percent v.

Inductive Alignment : Type := Start | Center | End_ | Stretch.
Inductive Direction : Type := Horizontal | Vertical.
Inductive MouseButton : Type := Left | Right | Middle | Button4 | Button5.

Definition MouseButton_eqb (a b : MouseButton) : bool :=
  match a, b with
  | Left, Left | Right, Right | Middle, Middle
  | Button4, Button4 | Button5, Button5 => true
  | _, _ => false
  end.

Definition Direction_eqb (a b : Direction) : bool :=
  match a, b with
  | Horizontal, Horizontal | Vertical, Vertical => true
  | _, _ => false
  end.

Record MouseEvent : Type := mkMouseEvent {
  position : Point;
  delta : Point;
  button : MouseButton;
  pressed : bool;
  mods : Z
}.

Record KeyEvent : Type := mkKeyEvent {
  keycode : Z;
  keysym : Z;
  kpressed : bool;
  kmods : Z;
  ktext : string
}.

Record ScrollEvent : Type := mkScrollEvent {
  sposition : Point;
  deltaX : Q;
  deltaY : Q
}.

(** ** core.hpp: styles *)

Inductive Align : Type := AlignLeft | AlignCenter | AlignRight.
Inductive VAlign : Type := VTop | VMiddle | VBottom.

Record TextStyle : Type := mkTextStyle {
  fontFamily : string;
  fontSize : Q;
  tcolor : Color;
  bold : bool;
  italic : bool;
  lineHeight : Q;
  align : Align;
  valign : VAlign
}.

Definition TextStyle_default : TextStyle :=
  mkTextStyle "sans-serif" 14 (mkColor 1 1 1 1) false false (14 # 10)
              AlignLeft VMiddle.

Record BoxStyle : Type := mkBoxStyle {
  background : Color;
  borderColor : Color;
  borderWidth : Q;
  borderRadius : BorderRadius;
  padding : Padding;
  margin : Padding;
  hasShadow : bool;
  shadowColor : Color;
  shadowOffset : Point;
  shadowBlur : Q;
  hasGradient : bool;
  gradientStart : Color;
  gradientEnd : Color;
  gradientAngle : Q
}.

Definition BoxStyle_default : BoxStyle :=
  mkBoxStyle (mkColor 0 0 0 0) (mkColor 0 0 0 0) 0 (BorderRadius_all 0)
             (Padding_all 0) (Padding_all 0)
             false (mkColor 0 0 0 (3 # 10)) (mkPoint 0 2) 4
             false (mkColor 1 1 1 1) (mkColor 1 1 1 1) 0.

Definition set_background (s : BoxStyle) (c : Color) : BoxStyle :=
  mkBoxStyle c (borderColor s) (borderWidth s) (borderRadius s) (padding s)
             (margin s) (hasShadow s) (shadowColor s) (shadowOffset s)
             (shadowBlur s) (hasGradient s) (gradientStart s) (gradientEnd s)
             (gradientAngle s).

Definition set_border (s : BoxStyle) (c : Color) (w : Q) : BoxStyle :=
  mkBoxStyle (background s) c w (borderRadius s) (padding s)
             (margin s) (hasShadow s) (shadowColor s) (shadowOffset s)
             (shadowBlur s) (hasGradient s) (gradientStart s) (gradientEnd s)
             (gradientAngle s).

Definition set_padding (s : BoxStyle) (p : Padding) : BoxStyle :=
  mkBoxStyle (background s) (borderColor s) (borderWidth s) (borderRadius s) p
             (margin s) (hasShadow s) (shadowColor s) (shadowOffset s)
             (shadowBlur s) (hasGradient s) (gradientStart s) (gradientEnd s)
             (gradientAngle s).

Definition set_margin (s : BoxStyle) (m : Padding) : BoxStyle :=
  mkBoxStyle (background s) (borderColor s) (borderWidth s) (borderRadius s)
             (padding s) m (hasShadow s) (shadowColor s) (shadowOffset s)
             (shadowBlur s) (hasGradient s) (gradientStart s) (gradientEnd s)
             (gradientAngle s).

(** ** Event handlers and the renderer capability *)

(** A registered closure is a tag; a call of the closure with its argument
    is an entry of the trace. *)
Definition handler : Type := nat.

Inductive Fired : Type :=
| OnClick (h : handler)
| OnHover (h : handler) (hovered : bool)
| OnFocus (h : handler) (focused : bool)
| OnChange (h : handler) (text : string)
| OnSubmit (h : handler) (text : string)
| OnSlide (h : handler) (v : Q)
| OnToggle (h : handler) (checked : bool).

(** [if (h) h(arg)]. *)
Definition call {A : Type} (h : option handler) (ev : handler -> A) : list A :=
  match h with
  | Some f => [ev f]
  | None => []
  end.

Record Font : Type := mkFont { font_id : nat }.

Record Texture : Type :=
  mkTexture { tex_width : Z; tex_height : Z; tex_valid : bool }.

(** What the widgets ask of a renderer: font and image lookup (a null
    pointer is [None]) and text measurement. *)
Record Renderer : Type := mkRenderer {
  loadFont : string -> Q -> option Font;
  loadImage : string -> option Texture;
  measureText : Font -> string -> Size
}.

(** The drawing calls a widget issues on the renderer, in order. *)
Inductive DrawCall : Type :=
| drawRect (r : Rect) (c : Color)
| drawRoundedRect (r : Rect) (radius : BorderRadius) (c : Color)
| drawBorder (r : Rect) (radius : BorderRadius) (c : Color) (w : Q)
| drawGradient (r : Rect) (s e : Color) (angle : Q)
| drawText (text : string) (pos : Point) (f : Font) (c : Color) (st : TextStyle)
| drawImage (t : Texture) (r : Rect) (opacity : Q)
| drawImageScaled (t : Texture) (r : Rect) (preserve : bool) (opacity : Q).

(** ** widget.hpp: the fields of [Widget] *)

Record WidgetBase : Type := mkWidgetBase {
  widthSpec_ : SizeSpec;
  heightSpec_ : SizeSpec;
  style_ : BoxStyle;
  bounds_ : Rect;
  contentBounds_ : Rect;
  measuredSize_ : Size;
  visible_ : bool;
  enabled_ : bool;
  hovered_ : bool;
  focused_ : bool;
  onClickHandler_ : option handler;
  onHoverHandler_ : option handler;
  onFocusHandler_ : option handler
}.

Definition WidgetBase_default : WidgetBase :=
  mkWidgetBase SizeSpec_content SizeSpec_content BoxStyle_default
               (mkRect 0 0 0 0) (mkRect 0 0 0 0) (mkSize 0 0)
               true true false false None None None.


Definition set_style (b : WidgetBase) (s : BoxStyle) : WidgetBase :=
  mkWidgetBase (widthSpec_ b) (heightSpec_ b) s (bounds_ b) (contentBounds_ b)
    (measuredSize_ b) (visible_ b) (enabled_ b) (hovered_ b) (focused_ b)
    (onClickHandler_ b) (onHoverHandler_ b) (onFocusHandler_ b).

Definition set_bounds (b : WidgetBase) (r c : Rect) : WidgetBase :=
  mkWidgetBase (widthSpec_ b) (heightSpec_ b) (style_ b) r c
    (measuredSize_ b) (visible_ b) (enabled_ b) (hovered_ b) (focused_ b)
    (onClickHandler_ b) (onHoverHandler_ b) (onFocusHandler_ b).

Definition set_measuredSize (b : WidgetBase) (s : Size) : WidgetBase :=
  mkWidgetBase (widthSpec_ b) (heightSpec_ b) (style_ b) (bounds_ b)
    (contentBounds_ b) s (visible_ b) (enabled_ b) (hovered_ b) (focused_ b)
    (onClickHandler_ b) (onHoverHandler_ b) (onFocusHandler_ b).

Definition set_visible (b : WidgetBase) (v : bool) : WidgetBase :=
  mkWidgetBase (widthSpec_ b) (heightSpec_ b) (style_ b) (bounds_ b)
    (contentBounds_ b) (measuredSize_ b) v (enabled_ b) (hovered_ b)
    (focused_ b) (onClickHandler_ b) (onHoverHandler_ b) (onFocusHandler_ b).

Definition set_enabled (b : WidgetBase) (e : bool) : WidgetBase :=
  mkWidgetBase (widthSpec_ b) (heightSpec_ b) (style_ b) (bounds_ b)
    (contentBounds_ b) (measuredSize_ b) (visible_ b) e (hovered_ b)
    (focused_ b) (onClickHandler_ b) (onHoverHandler_ b) (onFocusHandler_ b).

Definition set_focused (b : WidgetBase) (f : bool) : WidgetBase :=
  mkWidgetBase (widthSpec_ b) (heightSpec_ b) (style_ b) (bounds_ b)
    (contentBounds_ b) (measuredSize_ b) (visible_ b) (enabled_ b) (hovered_ b)
    f (onClickHandler_ b) (onHoverHandler_ b) (onFocusHandler_ b).

Definition set_onClick (b : WidgetBase) (h : option handler) : WidgetBase :=
  mkWidgetBase (widthSpec_ b) (heightSpec_ b) (style_ b) (bounds_ b)
    (contentBounds_ b) (measuredSize_ b) (visible_ b) (enabled_ b) (hovered_ b)
    (focused_ b) h (onHoverHandler_ b) (onFocusHandler_ b).

(** ** widgets.hpp and layouts.hpp: the fields each class adds *)

Module Text.
Record data : Type := mk {
  text_ : string; textStyle_ : TextStyle; wrap_ : bool; maxWidth_ : Q }.
End Text.

Module Image.
Record data : Type := mk {
  imagePath_ : string; texture_ : option Texture; fit_ : bool;
  preserveAspect_ : bool; opacity_ : Q; tint_ : Color; hasTint_ : bool }.
End Image.

Module Icon.
Record data : Type := mk { name_ : string; size_ : Q; color_ : Color }.
End Icon.

Module Button.
Record data : Type := mk {
  label_ : string; iconPath_ : string; textStyle_ : TextStyle;
  hoverBg_ : Color; activeBg_ : Color; wasHovered_ : bool; pressed_ : bool }.
End Button.

Module TextInput.
Record data : Type := mk {
  text_ : string; placeholder_ : string; textStyle_ : TextStyle;
  cursorPos_ : nat;
  onChangeHandler_ : option handler; onSubmitHandler_ : option handler }.
End TextInput.

Module Slider.
Record data : Type := mk {
  min_ : Q; max_ : Q; value_ : Q; thumbColor_ : Color; fillColor_ : Color;
  dragging_ : bool; onChangeHandler_ : option handler }.
End Slider.

Module Checkbox.
Record data : Type := mk {
  checked_ : bool; checkColor_ : Color; onToggleHandler_ : option handler }.
End Checkbox.

Module ProgressBar.
Record data : Type := mk {
  progress_ : Q; fillColor_ : Color; showText_ : bool }.
End ProgressBar.

Module Label.
Record data : Type := mk { text_ : string; textStyle_ : TextStyle }.
End Label.

Module Box.
Record data : Type := mk {
  direction_ : Direction; spacing_ : Q;
  alignment_ : Alignment; crossAlignment_ : Alignment }.
End Box.

Module Stack.
Record data : Type := mk {
  horizontalAlign_ : Alignment; verticalAlign_ : Alignment }.
End Stack.

Module Grid.
Record data : Type := mk { columns_ : Z; spacing_ : Q; cellSize_ : Size }.
End Grid.

Module ScrollView.
Record data : Type := mk { scrollDir_ : Direction; scrollOffset_ : Point }.
End ScrollView.

Module Sidebar.
Inductive Position : Type := PLeft | PRight | PTop | PBottom.
Record data : Type := mk { position_ : Position; sidebarSize_ : Q }.
End Sidebar.

(** The classes without children. [KWidget] is [Widget] itself. *)
Inductive Leaf : Type :=
| KWidget
| KText (d : Text.data)
| KImage (d : Image.data)
| KIcon (d : Icon.data)
| KButton (d : Button.data)
| KTextInput (d : TextInput.data)
| KSlider (d : Slider.data)
| KCheckbox (d : Checkbox.data)
| KProgressBar (d : ProgressBar.data)
| KSpacer
| KDivider (direction_ : Direction)
| KLabel (d : Label.data).

(** The classes derived from [Container]. [KContainer] is [Container]
    itself. *)
Inductive Layout : Type :=
| KContainer
| KBox (d : Box.data)
| KStack (d : Stack.data)
| KGrid (d : Grid.data)
| KScrollView (d : ScrollView.data)
| KSidebar (d : Sidebar.data).

(** A widget object together with everything it owns. *)
#[local] Set Warnings "-register-all".
Inductive Widget : Type :=
| LeafW (b : WidgetBase) (k : Leaf)
| ContW (b : WidgetBase) (k : Layout) (children_ : list Widget).

Definition base (w : Widget) : WidgetBase :=
  match w with
  | LeafW b _ => b
  | ContW b _ _ => b
  end.

Definition set_base (w : Widget) (b : WidgetBase) : Widget :=
  match w with
  | LeafW _ k => LeafW b k
  | ContW _ k cs => ContW b k cs
  end.

Definition children (w : Widget) : list Widget :=
  match w with
  | LeafW _ _ => []
  | ContW _ _ cs => cs
  end.

Definition isVisible (w : Widget) : bool := visible_ (base w).
Definition isEnabled (w : Widget) : bool := enabled_ (base w).
Definition bounds (w : Widget) : Rect := bounds_ (base w).

(** Induction over the tree, children included. *)
Section WidgetInd.
Variable P : Widget -> Prop.
Hypothesis Hleaf : forall b k, P (LeafW b k).
Hypothesis Hcont : forall b k cs, Forall P cs -> P (ContW b k cs).

Fixpoint Widget_tree_ind (w : Widget) : P w :=
  match w with
  | LeafW b k => Hleaf b k
  | ContW b k cs =>
      Hcont b k cs
        ((fix all (l : list Widget) : Forall P l :=
            match l with
            | [] => Forall_nil P
            | c :: l' => Forall_cons c (Widget_tree_ind c) (all l')
            end) cs)
  end.
End WidgetInd.

Fixpoint depth (w : Widget) : nat :=
  match w with
  | LeafW _ _ => 0
  | ContW _ _ cs => S (fold_right (fun c m => Nat.max (depth c) m) 0%nat cs)
  end.

(** ** Content measurement of the leaf classes ([measureContent]) *)

Definition is_empty (s : string) : bool :=
  match s with
  | EmptyString => true
  | String _ _ => false
  end.

Definition Text_measureContent (d : Text.data) (available : Size) : Size :=
  if is_empty (Text.text_ d)
  then mkSize 0 (fontSize (Text.textStyle_ d))
  else mkSize (of_size_t (String.length (Text.text_ d))
                 * fontSize (Text.textStyle_ d) * (6 # 10))
              (fontSize (Text.textStyle_ d) * lineHeight (Text.textStyle_ d)).

Definition is_fixed (s : SizeSpec) : bool :=
  match constraint s with
  | Fixed => true
  | _ => false
  end.

Definition Image_measureContent (b : WidgetBase) (d : Image.data)
    (available : Size) : Size :=
  if is_fixed (widthSpec_ b) && is_fixed (heightSpec_ b)
  then mkSize (value (widthSpec_ b)) (value (heightSpec_ b))
  else match Image.texture_ d with
       | Some t =>
           if tex_valid t
           then mkSize (of_int (tex_width t)) (of_int (tex_height t))
           else mkSize 100 100
       | None => mkSize 100 100
       end.

Definition Button_measureContent (d : Button.data) (available : Size) : Size :=
  mkSize (of_size_t (String.length (Button.label_ d))
            * fontSize (Button.textStyle_ d) * (6 # 10) + 40)
         (fontSize (Button.textStyle_ d) * (14 # 10) + 20).

Definition TextInput_measureContent (d : TextInput.data) (available : Size)
    : Size :=
  mkSize 200 (fontSize (TextInput.textStyle_ d) * (3 # 2)).

Definition Label_measureContent (d : Label.data) (available : Size) : Size :=
  mkSize (of_size_t (String.length (Label.text_ d))
            * fontSize (Label.textStyle_ d) * (6 # 10))
         (fontSize (Label.textStyle_ d) * (14 # 10)).

(** Virtual dispatch of [measureContent] on a widget without children;
    classes that do not override it get [Widget::measureContent]. *)
Definition Leaf_measureContent (b : WidgetBase) (k : Leaf) (available : Size)
    : Size :=
  match k with
  | KText d => Text_measureContent d available
  | KImage d => Image_measureContent b d available
  | KButton d => Button_measureContent d available
  | KTextInput d => TextInput_measureContent d available
  | KSlider _ => mkSize 200 20
  | KCheckbox _ => mkSize 20 20
  | KProgressBar _ => mkSize 200 10
  | KLabel d => Label_measureContent d available
  | KWidget | KIcon _ | KSpacer | KDivider _ => mkSize 0 0
  end.

(** ** Content measurement of the layouts

    The layouts measure their children through the virtual [measure]; the
    argument [measure] below is that method, so that the recursion over the
    tree can be tied afterwards.  Each function returns the children as the
    calls leave them. *)

Section LayoutMeasure.
Variable W : Type.
Variable measure : W -> Size -> Size * W.

Definition Box_measureContent (d : Box.data) (children_ : list W)
    (available : Size) : Size * list W :=
  match children_ with
  | [] => (mkSize 0 0, children_)
  | _ :: _ =>
      let totalSpacing :=
        Box.spacing_ d * inject_Z (Z.of_nat (List.length children_) - 1) in
      match Box.direction_ d with
      | Horizontal =>
          let childAvailable :=
            mkSize (width available - totalSpacing) (height available) in
          let ms := map (fun child => measure child childAvailable) children_ in
          let result :=
            fold_left (fun result childSize =>
                         mkSize (width result + width childSize)
                                (fmax (height result) (height childSize)))
                      (map fst ms) (mkSize 0 0) in
          (mkSize (width result + totalSpacing) (height result), map snd ms)
      | Vertical =>
          let childAvailable :=
            mkSize (width available) (height available - totalSpacing) in
          let ms := map (fun child => measure child childAvailable) children_ in
          let result :=
            fold_left (fun result childSize =>
                         mkSize (fmax (width result) (width childSize))
                                (height result + height childSize))
                      (map fst ms) (mkSize 0 0) in
          (mkSize (width result) (height result + totalSpacing), map snd ms)
      end
  end.

Definition Stack_measureContent (children_ : list W) (available : Size)
    : Size * list W :=
  let ms := map (fun child => measure child available) children_ in
  (fold_left (fun result childSize =>
                mkSize (fmax (width result) (width childSize))
                       (fmax (height result) (height childSize)))
             (map fst ms) (mkSize 0 0),
   map snd ms).

Definition Grid_measureContent (d : Grid.data) (children_ : list W)
    (available : Size) : Size * list W :=
  match children_ with
  | [] => (mkSize 0 0, children_)
  | _ :: _ =>
      if (Grid.columns_ d <=? 0)%Z then (mkSize 0 0, children_)
      else
        let columns := Grid.columns_ d in
        let rows :=
          ((Z.of_nat (List.length children_) + columns - 1) / columns)%Z in
        let cellWidth :=
          if Qgtb (width (Grid.cellSize_ d)) 0
          then width (Grid.cellSize_ d)
          else (width available - Grid.spacing_ d * of_int (columns - 1))
               / of_int columns in
        let cellHeight :=
          if Qgtb (height (Grid.cellSize_ d)) 0
          then height (Grid.cellSize_ d)
          else cellWidth in
        (mkSize (cellWidth * of_int columns
                 + Grid.spacing_ d * of_int (columns - 1))
                (cellHeight * of_int rows
                 + Grid.spacing_ d * of_int (rows - 1)),
         children_)
  end.

(** Only [children_[0]] is consulted, behind the emptiness test. *)
Definition ScrollView_measureContent (d : ScrollView.data)
    (children_ : list W) (available : Size) : Size * list W :=
  match children_ with
  | [] => (mkSize 0 0, children_)
  | child0 :: rest =>
      match ScrollView.scrollDir_ d with
      | Horizontal =>
          let '(s, child0') :=
            measure child0 (mkSize 1000000000 (height available)) in
          (mkSize (width s) (height available), child0' :: rest)
      | Vertical =>
          let '(s, child0') :=
            measure child0 (mkSize (width available) 1000000000) in
          (mkSize (width available) (height s), child0' :: rest)
      end
  end.

(** Virtual dispatch of [measureContent] on a container. [Container] and
    [Sidebar] do not override it. *)
Definition Layout_measureContent (k : Layout) (children_ : list W)
    (available : Size) : Size * list W :=
  match k with
  | KBox d => Box_measureContent d children_ available
  | KStack _ => Stack_measureContent children_ available
  | KGrid d => Grid_measureContent d children_ available
  | KScrollView d => ScrollView_measureContent d children_ available
  | KContainer | KSidebar _ => (mkSize 0 0, children_)
  end.
End LayoutMeasure.

Arguments Box_measureContent {W}.
Arguments Stack_measureContent {W}.
Arguments Grid_measureContent {W}.
Arguments ScrollView_measureContent {W}.
Arguments Layout_measureContent {W}.

(** ** [Widget::measure] *)

Definition sub_margin (b : WidgetBase) (available : Size) : Size :=
  mkSize (width available - horizontal (margin (style_ b)))
         (height available - vertical (margin (style_ b))).

(** The body of [Widget::measure]; [measure] is the method itself, reached
    again through the children.  When both axes are content-sized
    [measureContent] runs twice, the second time on the children as the
    first run left them. *)
Definition Widget_measure (measure : Widget -> Size -> Size * Widget)
    (w : Widget) (available : Size) : Size * Widget :=
  match w with
  | LeafW b k =>
      if negb (visible_ b) then (mkSize 0 0, w)
      else
        let available := sub_margin b available in
        let rw :=
          match constraint (widthSpec_ b) with
          | Fixed => value (widthSpec_ b)
          | Fill => width available
          | Percent => width available * (value (widthSpec_ b) / 100)
          | Content => width (Leaf_measureContent b k available)
                       + horizontal (padding (style_ b))
          end in
        let rh :=
          match constraint (heightSpec_ b) with
          | Fixed => value (heightSpec_ b)
          | Fill => height available
          | Percent => height available * (value (heightSpec_ b) / 100)
          | Content => height (Leaf_measureContent b k available)
                       + vertical (padding (style_ b))
          end in
        let result := mkSize rw rh in
        (result, LeafW (set_measuredSize b result) k)
  | ContW b k cs =>
      if negb (visible_ b) then (mkSize 0 0, w)
      else
        let available := sub_margin b available in
        let '(rw, cs1) :=
          match constraint (widthSpec_ b) with
          | Fixed => (value (widthSpec_ b), cs)
          | Fill => (width available, cs)
          | Percent => (width available * (value (widthSpec_ b) / 100), cs)
          | Content =>
              let '(s, cs') := Layout_measureContent measure k cs available in
              (width s + horizontal (padding (style_ b)), cs')
          end in
        let '(rh, cs2) :=
          match constraint (heightSpec_ b) with
          | Fixed => (value (heightSpec_ b), cs1)
          | Fill => (height available, cs1)
          | Percent => (height available * (value (heightSpec_ b) / 100), cs1)
          | Content =>
              let '(s, cs') := Layout_measureContent measure k cs1 available in
              (height s + vertical (padding (style_ b)), cs')
          end in
        let result := mkSize rw rh in
        (result, ContW (set_measuredSize b result) k cs2)
  end.

(** The recursion of [measure] goes through children that an earlier call
    has already rewritten, so it is bounded by a counter; [measure] starts
    it above the depth of the tree, and [measure_eq] below shows that
    [measure] satisfies the equation of the source. *)
Fixpoint measure_fuel (fuel : nat) (w : Widget) (available : Size)
    : Size * Widget :=
  match fuel with
  | O => (mkSize 0 0, w)
  | S fuel' => Widget_measure (measure_fuel fuel') w available
  end.

Definition measure (w : Widget) (available : Size) : Size * Widget :=
  measure_fuel (S (depth w)) w available.

(** ** Child placement of the layouts ([layoutChildren])

    [layout] is the (non-virtual) [Widget::layout] reached on the children;
    [cb] is the [contentBounds_] of the container. *)

Definition is_nil {A : Type} (v : list A) : bool :=
  match v with
  | [] => true
  | _ :: _ => false
  end.

(** Writing through [v[i]]: the element at [i] is replaced. *)
Fixpoint set_at {A : Type} (v : list A) (i : nat) (a : A) : list A :=
  match v, i with
  | [], _ => []
  | _ :: v', O => a :: v'
  | x :: v', S i' => x :: set_at v' i' a
  end.

Section LayoutChildren.
Variable layout : Widget -> Rect -> result Widget.

Definition cross_place (crossAlignment : Alignment) (origin extent size : Q)
    : Q * Q :=
  match crossAlignment with
  | Center => (origin + (extent - size) / 2, size)
  | End_ => (origin + (extent - size), size)
  | Stretch => (origin, extent)
  | Start => (origin, size)
  end.

Definition main_origin (alignment : Alignment) (origin extent total : Q) : Q :=
  match alignment with
  | Center => origin + (extent - total) / 2
  | End_ => origin + (extent - total)
  | _ => origin
  end.

(** The loop of [layoutHorizontal]: [rest] is [children_] from index [i]
    on, [x] the running origin. *)
Fixpoint Box_layoutHorizontal_loop (cb : Rect) (d : Box.data)
    (sizes : list Size) (rest : list Widget) (i : nat) (x : Q)
    : result (list Widget) :=
  match rest with
  | [] => Ok []
  | child :: rest' =>
      sz <- at_ sizes i ;;
      let '(y, h) :=
        cross_place (Box.crossAlignment_ d) (ry cb) (rheight cb) (height sz) in
      child' <- layout child (mkRect x y (width sz) h) ;;
      rest'' <- Box_layoutHorizontal_loop cb d sizes rest' (S i)
                  (x + (width sz + Box.spacing_ d)) ;;
      Ok (child' :: rest'')
  end.

Definition Box_layoutHorizontal (cb : Rect) (d : Box.data)
    (children_ : list Widget) (sizes : list Size) (totalSpacing : Q)
    : result (list Widget) :=
  let totalWidth :=
    fold_left (fun t size => t + width size) sizes 0 + totalSpacing in
  let x := main_origin (Box.alignment_ d) (rx cb) (rwidth cb) totalWidth in
  Box_layoutHorizontal_loop cb d sizes children_ 0 x.

Fixpoint Box_layoutVertical_loop (cb : Rect) (d : Box.data)
    (sizes : list Size) (rest : list Widget) (i : nat) (y : Q)
    : result (list Widget) :=
  match rest with
  | [] => Ok []
  | child :: rest' =>
      sz <- at_ sizes i ;;
      let '(x, w) :=
        cross_place (Box.crossAlignment_ d) (rx cb) (rwidth cb) (width sz) in
      child' <- layout child (mkRect x y w (height sz)) ;;
      rest'' <- Box_layoutVertical_loop cb d sizes rest' (S i)
                  (y + (height sz + Box.spacing_ d)) ;;
      Ok (child' :: rest'')
  end.

Definition Box_layoutVertical (cb : Rect) (d : Box.data)
    (children_ : list Widget) (sizes : list Size) (totalSpacing : Q)
    : result (list Widget) :=
  let totalHeight :=
    fold_left (fun t size => t + height size) sizes 0 + totalSpacing in
  let y := main_origin (Box.alignment_ d) (ry cb) (rheight cb) totalHeight in
  Box_layoutVertical_loop cb d sizes children_ 0 y.

Definition Box_layoutChildren (cb : Rect) (d : Box.data)
    (children_ : list Widget) : result (list Widget) :=
  if is_nil children_ then Ok children_
  else
    let ms :=
      map (fun child => measure child (mkSize (rwidth cb) (rheight cb)))
          children_ in
    let childSizes := map fst ms in
    let children1 := map snd ms in
    let totalSpacing :=
      Box.spacing_ d * inject_Z (Z.of_nat (List.length children1) - 1) in
    match Box.direction_ d with
    | Horizontal => Box_layoutHorizontal cb d children1 childSizes totalSpacing
    | Vertical => Box_layoutVertical cb d children1 childSizes totalSpacing
    end.

Fixpoint Stack_layoutChildren (cb : Rect) (d : Stack.data)
    (children_ : list Widget) : result (list Widget) :=
  match children_ with
  | [] => Ok []
  | child :: rest =>
      let '(childSize, child1) :=
        measure child (mkSize (rwidth cb) (rheight cb)) in
      let x :=
        main_origin (Stack.horizontalAlign_ d) (rx cb) (rwidth cb)
                    (width childSize) in
      let y :=
        main_origin (Stack.verticalAlign_ d) (ry cb) (rheight cb)
                    (height childSize) in
      child' <- layout child1
                  (mkRect x y (width childSize) (height childSize)) ;;
      rest' <- Stack_layoutChildren cb d rest ;;
      Ok (child' :: rest')
  end.

Fixpoint Grid_layout_loop (cb : Rect) (d : Grid.data)
    (cellWidth cellHeight : Q) (rest : list Widget) (row col : Z)
    : result (list Widget) :=
  match rest with
  | [] => Ok []
  | child :: rest' =>
      let x := rx cb + of_int col * (cellWidth + Grid.spacing_ d) in
      let y := ry cb + of_int row * (cellHeight + Grid.spacing_ d) in
      child' <- layout child (mkRect x y cellWidth cellHeight) ;;
      rest'' <- (if (col + 1 >=? Grid.columns_ d)%Z
                 then Grid_layout_loop cb d cellWidth cellHeight rest'
                        (row + 1)%Z 0%Z
                 else Grid_layout_loop cb d cellWidth cellHeight rest'
                        row (col + 1)%Z) ;;
      Ok (child' :: rest'')
  end.

Definition Grid_layoutChildren (cb : Rect) (d : Grid.data)
    (children_ : list Widget) : result (list Widget) :=
  if is_nil children_ || (Grid.columns_ d <=? 0)%Z then Ok children_
  else
    let cellWidth :=
      if Qgtb (width (Grid.cellSize_ d)) 0
      then width (Grid.cellSize_ d)
      else (rwidth cb - Grid.spacing_ d * of_int (Grid.columns_ d - 1))
           / of_int (Grid.columns_ d) in
    let cellHeight :=
      if Qgtb (height (Grid.cellSize_ d)) 0
      then height (Grid.cellSize_ d)
      else cellWidth in
    Grid_layout_loop cb d cellWidth cellHeight children_ 0%Z 0%Z.

Definition ScrollView_layoutChildren (cb : Rect) (d : ScrollView.data)
    (children_ : list Widget) : result (list Widget) :=
  if is_nil children_ then Ok children_
  else
    child0 <- at_ children_ 0 ;;
    let '(childSize, child1) :=
      measure child0
        (mkSize (if Direction_eqb (ScrollView.scrollDir_ d) Horizontal
                 then 1000000000 else rwidth cb)
                (if Direction_eqb (ScrollView.scrollDir_ d) Vertical
                 then 1000000000 else rheight cb)) in
    child' <- layout child1
                (mkRect (rx cb - px (ScrollView.scrollOffset_ d))
                        (ry cb - py (ScrollView.scrollOffset_ d))
                        (width childSize) (height childSize)) ;;
    Ok (set_at children_ 0 child').

Definition Sidebar_layoutChildren (cb : Rect) (d : Sidebar.data)
    (children_ : list Widget) : result (list Widget) :=
  if (List.length children_ <? 2)%nat then Ok children_
  else
    sidebar <- at_ children_ 0 ;;
    content <- at_ children_ 1 ;;
    let size := Sidebar.sidebarSize_ d in
    match Sidebar.position_ d with
    | Sidebar.PLeft =>
        sidebar' <- layout sidebar (mkRect (rx cb) (ry cb) size (rheight cb)) ;;
        content' <- layout content
                      (mkRect (rx cb + size) (ry cb)
                              (rwidth cb - size) (rheight cb)) ;;
        Ok (set_at (set_at children_ 0 sidebar') 1 content')
    | Sidebar.PRight =>
        content' <- layout content
                      (mkRect (rx cb) (ry cb) (rwidth cb - size) (rheight cb)) ;;
        sidebar' <- layout sidebar
                      (mkRect (rx cb + rwidth cb - size) (ry cb)
                              size (rheight cb)) ;;
        Ok (set_at (set_at children_ 1 content') 0 sidebar')
    | Sidebar.PTop =>
        sidebar' <- layout sidebar (mkRect (rx cb) (ry cb) (rwidth cb) size) ;;
        content' <- layout content
                      (mkRect (rx cb) (ry cb + size)
                              (rwidth cb) (rheight cb - size)) ;;
        Ok (set_at (set_at children_ 0 sidebar') 1 content')
    | Sidebar.PBottom =>
        content' <- layout content
                      (mkRect (rx cb) (ry cb) (rwidth cb) (rheight cb - size)) ;;
        sidebar' <- layout sidebar
                      (mkRect (rx cb) (ry cb + rheight cb - size)
                              (rwidth cb) size) ;;
        Ok (set_at (set_at children_ 1 content') 0 sidebar')
    end.

(** Virtual dispatch of [layoutChildren] on a container; [Container]
    itself keeps the empty [Widget::layoutChildren]. *)
Definition Layout_layoutChildren (cb : Rect) (k : Layout)
    (children_ : list Widget) : result (list Widget) :=
  match k with
  | KContainer => Ok children_
  | KBox d => Box_layoutChildren cb d children_
  | KStack d => Stack_layoutChildren cb d children_
  | KGrid d => Grid_layoutChildren cb d children_
  | KScrollView d => ScrollView_layoutChildren cb d children_
  | KSidebar d => Sidebar_layoutChildren cb d children_
  end.

Definition Widget_layoutChildren (w : Widget) : result Widget :=
  match w with
  | LeafW _ _ => Ok w
  | ContW b k cs =>
      cs' <- Layout_layoutChildren (contentBounds_ b) k cs ;;
      Ok (ContW b k cs')
  end.

(** The body of [Widget::layout]. *)
Definition Widget_layout (w : Widget) (rect : Rect) : result Widget :=
  let b := base w in
  let contentBounds :=
    mkRect (rx rect + left (padding (style_ b)))
           (ry rect + top (padding (style_ b)))
           (rwidth rect - horizontal (padding (style_ b)))
           (rheight rect - vertical (padding (style_ b))) in
  Widget_layoutChildren (set_base w (set_bounds b rect contentBounds)).
End LayoutChildren.

Fixpoint layout_fuel (fuel : nat) (w : Widget) (rect : Rect) : result Widget :=
  match fuel with
  | O => Err FuelExhausted
  | S fuel' => Widget_layout (layout_fuel fuel') w rect
  end.

Definition layout (w : Widget) (rect : Rect) : result Widget :=
  layout_fuel (S (depth w)) w rect.

Definition layoutChildren (w : Widget) : result Widget :=
  Widget_layoutChildren layout w.

(** ** Mouse buttons *)

(** [Widget::handleMouseButton]: the receiver is not modified. *)
Definition Widget_handleMouseButton (b : WidgetBase) (event : MouseEvent)
    : bool * list Fired :=
  if negb (enabled_ b) then (false, [])
  else if pressed event && MouseButton_eqb (button event) Left
  then if contains (bounds_ b) (position event)
       then (true, call (onClickHandler_ b) OnClick)
       else (false, [])
  else (false, []).

(** [Widget::setFocus]. *)
Definition Widget_setFocus (b : WidgetBase) (focus : bool)
    : WidgetBase * list Fired :=
  if negb (Bool.eqb (focused_ b) focus)
  then (set_focused b focus, call (onFocusHandler_ b) (fun h => OnFocus h focus))
  else (b, []).

Definition set_pressed (d : Button.data) (p : bool) : Button.data :=
  Button.mk (Button.label_ d) (Button.iconPath_ d) (Button.textStyle_ d)
            (Button.hoverBg_ d) (Button.activeBg_ d) (Button.wasHovered_ d) p.

Definition Button_handleMouseButton (b : WidgetBase) (d : Button.data)
    (event : MouseEvent) : bool * Button.data * list Fired :=
  let d' := set_pressed d (pressed event && contains (bounds_ b) (position event)) in
  let '(r, fired) := Widget_handleMouseButton b event in
  (r, d', fired).

Definition TextInput_handleMouseButton (b : WidgetBase) (event : MouseEvent)
    : bool * WidgetBase * list Fired :=
  let '(clicked, fired) := Widget_handleMouseButton b event in
  if clicked && pressed event
  then let '(b', fired') := Widget_setFocus b true in
       (clicked, b', fired ++ fired')
  else (clicked, b, fired).

Definition set_value (d : Slider.data) (v : Q) : Slider.data :=
  Slider.mk (Slider.min_ d) (Slider.max_ d) v (Slider.thumbColor_ d)
            (Slider.fillColor_ d) (Slider.dragging_ d)
            (Slider.onChangeHandler_ d).

Definition set_dragging (d : Slider.data) (g : bool) : Slider.data :=
  Slider.mk (Slider.min_ d) (Slider.max_ d) (Slider.value_ d)
            (Slider.thumbColor_ d) (Slider.fillColor_ d) g
            (Slider.onChangeHandler_ d).

Definition Slider_updateValue (b : WidgetBase) (d : Slider.data) (mouseX : Q)
    : Slider.data * list Fired :=
  let normalized := (mouseX - rx (bounds_ b)) / rwidth (bounds_ b) in
  let v :=
    clamp (Slider.min_ d + normalized * (Slider.max_ d - Slider.min_ d))
          (Slider.min_ d) (Slider.max_ d) in
  (set_value d v, call (Slider.onChangeHandler_ d) (fun h => OnSlide h v)).


Definition Slider_handleMouseButton (b : WidgetBase) (d : Slider.data)
    (event : MouseEvent) : bool * Slider.data * list Fired :=
  if MouseButton_eqb (button event) Left
  then if pressed event && contains (bounds_ b) (position event)
       then let '(d', fired) :=
              Slider_updateValue b (set_dragging d true) (px (position event)) in
            (true, d', fired)
       else if negb (pressed event)
            then (false, set_dragging d false, [])
            else (false, d, [])
  else (false, d, []).

Definition Checkbox_handleMouseButton (b : WidgetBase) (d : Checkbox.data)
    (event : MouseEvent) : bool * Checkbox.data * list Fired :=
  if pressed event && MouseButton_eqb (button event) Left
  then if contains (bounds_ b) (position event)
       then let c := negb (Checkbox.checked_ d) in
            (true,
             Checkbox.mk c (Checkbox.checkColor_ d) (Checkbox.onToggleHandler_ d),
             call (Checkbox.onToggleHandler_ d) (fun h => OnToggle h c))
       else (false, d, [])
  else (false, d, []).

(** Virtual dispatch of [handleMouseButton] on a widget without children. *)
Definition Leaf_handleMouseButton (b : WidgetBase) (k : Leaf)
    (event : MouseEvent) : bool * Widget * list Fired :=
  match k with
  | KButton d =>
      let '(r, d', fired) := Button_handleMouseButton b d event in
      (r, LeafW b (KButton d'), fired)
  | KTextInput d =>
      let '(r, b', fired) := TextInput_handleMouseButton b event in
      (r, LeafW b' (KTextInput d), fired)
  | KSlider d =>
      let '(r, d', fired) := Slider_handleMouseButton b d event in
      (r, LeafW b (KSlider d'), fired)
  | KCheckbox d =>
      let '(r, d', fired) := Checkbox_handleMouseButton b d event in
      (r, LeafW b (KCheckbox d'), fired)
  | _ =>
      let '(r, fired) := Widget_handleMouseButton b event in
      (r, LeafW b k, fired)
  end.

(** The loop of [Container::handleMouseButton] over [children_]: every child
    is offered the event in order until one returns [true]. *)
Fixpoint offer_in_order {W : Type} (handle : W -> bool * W * list Fired)
    (children_ : list W) : bool * list W * list Fired :=
  match children_ with
  | [] => (false, [], [])
  | child :: rest =>
      let '(r, child', fired) := handle child in
      if r then (true, child' :: rest, fired)
      else let '(r', rest', fired') := offer_in_order handle rest in
           (r', child' :: rest', fired ++ fired')
  end.

(** [handleMouseButton] on the tree. No layout overrides
    [Container::handleMouseButton]. *)
Fixpoint handleMouseButton (w : Widget) (event : MouseEvent) {struct w}
    : bool * Widget * list Fired :=
  match w with
  | LeafW b k => Leaf_handleMouseButton b k event
  | ContW b k cs =>
      let '(r, fired) := Widget_handleMouseButton b event in
      if r then (true, w, fired)
      else
        let '(r', cs', fired') :=
          offer_in_order (fun child => handleMouseButton child event) cs in
        (r', ContW b k cs', fired ++ fired')
  end.

(** ** Keyboard: [TextInput::handleKeyEvent] *)

Fixpoint str_take (n : nat) (s : string) : string :=
  match n, s with
  | O, _ => EmptyString
  | S _, EmptyString => EmptyString
  | S n', String c s' => String c (str_take n' s')
  end.

Fixpoint str_drop (n : nat) (s : string) : string :=
  match n, s with
  | O, _ => s
  | S _, EmptyString => EmptyString
  | S n', String _ s' => str_drop n' s'
  end.

(** [s.erase(pos, n)] and [s.insert(pos, t)]: a position past the end throws
    [std::out_of_range]. *)
Definition str_erase (s : string) (pos n : nat) : result string :=
  if (String.length s <? pos)%nat then Err StringOutOfRange
  else Ok (str_take pos s ++ str_drop (pos + n) s)%string.

Definition str_insert (s : string) (pos : nat) (t : string) : result string :=
  if (String.length s <? pos)%nat then Err StringOutOfRange
  else Ok (str_take pos s ++ t ++ str_drop pos s)%string.

Definition set_text (d : TextInput.data) (t : string) (cursor : nat)
    : TextInput.data :=
  TextInput.mk t (TextInput.placeholder_ d) (TextInput.textStyle_ d) cursor
               (TextInput.onChangeHandler_ d) (TextInput.onSubmitHandler_ d).

Definition TextInput_handleKeyEvent (b : WidgetBase) (d : TextInput.data)
    (event : KeyEvent) : result (bool * TextInput.data * list Fired) :=
  if negb (focused_ b) then Ok (false, d, [])
  else if kpressed event then
    let text := TextInput.text_ d in
    let cursorPos := TextInput.cursorPos_ d in
    if (keycode event =? 14)%Z then            (* Backspace *)
      if (0 <? cursorPos)%nat then
        text' <- str_erase text (cursorPos - 1) 1 ;;
        Ok (true, set_text d text' (cursorPos - 1),
            call (TextInput.onChangeHandler_ d) (fun h => OnChange h text'))
      else Ok (true, d, [])
    else if (keycode event =? 111)%Z then      (* Delete *)
      if (cursorPos <? String.length text)%nat then
        text' <- str_erase text cursorPos 1 ;;
        Ok (true, set_text d text' cursorPos,
            call (TextInput.onChangeHandler_ d) (fun h => OnChange h text'))
      else Ok (true, d, [])
    else if (keycode event =? 105)%Z then      (* Left *)
      if (0 <? cursorPos)%nat
      then Ok (true, set_text d text (cursorPos - 1), [])
      else Ok (true, d, [])
    else if (keycode event =? 106)%Z then      (* Right *)
      if (cursorPos <? String.length text)%nat
      then Ok (true, set_text d text (cursorPos + 1), [])
      else Ok (true, d, [])
    else if (keycode event =? 28)%Z then       (* Enter *)
      Ok (true, d, call (TextInput.onSubmitHandler_ d) (fun h => OnSubmit h text))
    else if negb (is_empty (ktext event)) then
      text' <- str_insert text cursorPos (ktext event) ;;
      Ok (true, set_text d text' (cursorPos + String.length (ktext event)),
          call (TextInput.onChangeHandler_ d) (fun h => OnChange h text'))
    else Ok (true, d, [])
  else Ok (true, d, []).

(** Virtual dispatch of [handleKeyEvent]: only [TextInput] overrides the
    [Widget] default, and [Container] does not forward keys. *)
Definition handleKeyEvent (w : Widget) (event : KeyEvent)
    : result (bool * Widget * list Fired) :=
  match w with
  | LeafW b (KTextInput d) =>
      '(r, d', fired) <- TextInput_handleKeyEvent b d event ;;
      Ok (r, LeafW b (KTextInput d'), fired)
  | _ => Ok (false, w, [])
  end.

(** ** Scrolling: [ScrollView::handleScroll] *)

Definition ScrollView_handleScroll (b : WidgetBase) (d : ScrollView.data)
    (children_ : list Widget) (event : ScrollEvent) : result (bool * Widget) :=
  if negb (contains (contentBounds_ b) (sposition event))
  then Ok (false, ContW b (KScrollView d) children_)
  else
    let off := ScrollView.scrollOffset_ d in
    let off' :=
      match ScrollView.scrollDir_ d with
      | Horizontal => mkPoint (fmax 0 (px off - deltaX event * 20)) (py off)
      | Vertical => mkPoint (px off) (fmax 0 (py off - deltaY event * 20))
      end in
    w' <- layoutChildren
            (ContW b (KScrollView (ScrollView.mk (ScrollView.scrollDir_ d) off'))
                   children_) ;;
    Ok (true, w').

(** Virtual dispatch of [handleScroll]: only [ScrollView] overrides the
    [Widget] default. *)
Definition handleScroll (w : Widget) (event : ScrollEvent)
    : result (bool * Widget) :=
  match w with
  | ContW b (KScrollView d) cs => ScrollView_handleScroll b d cs event
  | _ => Ok (false, w)
  end.

(** ** Rendering *)

(** [Widget::render]: the calls issued on the renderer. *)
Definition Widget_render (b : WidgetBase) : list DrawCall :=
  if negb (visible_ b) then []
  else
    let st := style_ b in
    (if hasShadow st
     then [drawRoundedRect
             (mkRect (rx (bounds_ b) + px (shadowOffset st))
                     (ry (bounds_ b) + py (shadowOffset st))
                     (rwidth (bounds_ b)) (rheight (bounds_ b)))
             (borderRadius st) (shadowColor st)]
     else [])
    ++ (if hasGradient st
        then [drawGradient (bounds_ b) (gradientStart st) (gradientEnd st)
                           (gradientAngle st)]
        else if Qgtb (ca (background st)) 0
        then if Qgtb (topLeftR (borderRadius st)) 0
                || Qgtb (topRightR (borderRadius st)) 0
                || Qgtb (bottomLeftR (borderRadius st)) 0
                || Qgtb (bottomRightR (borderRadius st)) 0
             then [drawRoundedRect (bounds_ b) (borderRadius st) (background st)]
             else [drawRect (bounds_ b) (background st)]
        else [])
    ++ (if Qgtb (borderWidth st) 0 && Qgtb (ca (borderColor st)) 0
        then [drawBorder (bounds_ b) (borderRadius st) (borderColor st)
                         (borderWidth st)]
        else []).

Definition centered (origin extent size : Q) : Q :=
  origin + (extent - size) / 2.

Definition Text_render (r : Renderer) (b : WidgetBase) (d : Text.data)
    : list DrawCall :=
  Widget_render b
  ++ (if is_empty (Text.text_ d) then []
      else
        let ts := Text.textStyle_ d in
        match loadFont r (fontFamily ts) (fontSize ts) with
        | None => []
        | Some font =>
            let textSize := measureText r font (Text.text_ d) in
            let cb := contentBounds_ b in
            let x :=
              match align ts with
              | AlignCenter => centered (rx cb) (rwidth cb) (width textSize)
              | AlignRight => rx cb + (rwidth cb - width textSize)
              | AlignLeft => rx cb
              end in
            let y :=
              match valign ts with
              | VMiddle => centered (ry cb) (rheight cb) (height textSize)
              | VBottom => ry cb + (rheight cb - height textSize)
              | VTop => ry cb
              end in
            [drawText (Text.text_ d) (mkPoint x y) font (tcolor ts) ts]
        end).

Definition Image_render (r : Renderer) (b : WidgetBase) (d : Image.data)
    : Image.data * list DrawCall :=
  if is_empty (Image.imagePath_ d)
  then (d, Widget_render b
           ++ [drawRect (contentBounds_ b) (mkColor (3 # 10) (3 # 10) (3 # 10) (1 # 2))])
  else
    let texture :=
      match Image.texture_ d with
      | None => loadImage r (Image.imagePath_ d)
      | Some t => Some t
      end in
    let d' :=
      Image.mk (Image.imagePath_ d) texture (Image.fit_ d)
               (Image.preserveAspect_ d) (Image.opacity_ d) (Image.tint_ d)
               (Image.hasTint_ d) in
    let placeholder :=
      [drawRect (contentBounds_ b) (mkColor (1 # 2) (2 # 10) (2 # 10) (1 # 2))] in
    (d', Widget_render b
         ++ match texture with
            | Some t =>
                if tex_valid t
                then if Image.preserveAspect_ d
                     then [drawImageScaled t (contentBounds_ b) true (Image.opacity_ d)]
                     else [drawImage t (contentBounds_ b) (Image.opacity_ d)]
                else placeholder
            | None => placeholder
            end).

Definition Icon_render (b : WidgetBase) (d : Icon.data) : list DrawCall :=
  let cb := contentBounds_ b in
  let cx := rx cb + rwidth cb / 2 in
  let cy := ry cb + rheight cb / 2 in
  let r := fmin (rwidth cb) (rheight cb) / 2 - 2 in
  Widget_render b
  ++ [drawRoundedRect (mkRect (cx - r) (cy - r) (r * 2) (r * 2))
                      (BorderRadius_all r) (Icon.color_ d)].

(** [Button::render] stores the state-dependent background in [style_]. *)
Definition Button_render (r : Renderer) (b : WidgetBase) (d : Button.data)
    : WidgetBase * list DrawCall :=
  let bg :=
    if Button.pressed_ d then Button.activeBg_ d
    else if hovered_ b then Button.hoverBg_ d
    else background (style_ b) in
  let b' := set_style b (set_background (style_ b) bg) in
  let ts := Button.textStyle_ d in
  (b', Widget_render b'
       ++ match loadFont r (fontFamily ts) (fontSize ts) with
          | Some font =>
              let textSize := measureText r font (Button.label_ d) in
              let cb := contentBounds_ b' in
              [drawText (Button.label_ d)
                 (mkPoint (centered (rx cb) (rwidth cb) (width textSize))
                          (centered (ry cb) (rheight cb) (height textSize)))
                 font (tcolor ts) ts]
          | None => []
          end).

(** [s.substr(0, n)]: position 0 is never past the end, and the count is
    cut at the end of the string, so this call does not throw. *)
Definition str_substr0 (s : string) (n : nat) : string := str_take n s.

Definition TextInput_render (r : Renderer) (b : WidgetBase)
    (d : TextInput.data) : result (WidgetBase * list DrawCall) :=
  let st :=
    if focused_ b
    then set_border (style_ b) (fromHex 0x3b82f6ff) 2
    else set_border (style_ b) (mkColor (3 # 10) (3 # 10) (3 # 10) 1) 1 in
  let b' := set_style b st in
  let ts := TextInput.textStyle_ d in
  let cb := contentBounds_ b' in
  match loadFont r (fontFamily ts) (fontSize ts) with
  | None => Ok (b', Widget_render b')
  | Some font =>
      let text := TextInput.text_ d in
      let displayText := if is_empty text then TextInput.placeholder_ d else text in
      let displayColor :=
        if is_empty text then withAlpha (tcolor ts) (1 # 2) else tcolor ts in
      let shown := [drawText displayText (topLeft cb) font displayColor ts] in
      if focused_ b'
      then
        let prefix := str_substr0 text (TextInput.cursorPos_ d) in
        let textSize := measureText r font prefix in
        Ok (b', Widget_render b' ++ shown
                ++ [drawRect (mkRect (rx cb + width textSize) (ry cb + 2)
                                     2 (rheight cb - 4))
                             (tcolor ts)])
      else Ok (b', Widget_render b' ++ shown)
  end.

Definition Slider_render (b : WidgetBase) (d : Slider.data) : list DrawCall :=
  let cb := contentBounds_ b in
  let fillWidth :=
    (Slider.value_ d - Slider.min_ d) / (Slider.max_ d - Slider.min_ d)
    * rwidth cb in
  Widget_render b
  ++ [drawRoundedRect (mkRect (rx cb) (ry cb) fillWidth (rheight cb))
                      (borderRadius (style_ b)) (Slider.fillColor_ d);
      drawRoundedRect (mkRect (rx cb + fillWidth - 8) (ry cb - 5)
                              16 (rheight cb + 10))
                      (BorderRadius_all 8) (Slider.thumbColor_ d)].

Definition Checkbox_render (b : WidgetBase) (d : Checkbox.data)
    : WidgetBase * list DrawCall :=
  let bg :=
    if Checkbox.checked_ d then fromHex 0x3b82f6ff
    else mkColor (2 # 10) (2 # 10) (2 # 10) 1 in
  let b' := set_style b (set_background (style_ b) bg) in
  let cb := contentBounds_ b' in
  let cx := rx cb + rwidth cb / 2 in
  let cy := ry cb + rheight cb / 2 in
  (b', Widget_render b'
       ++ (if Checkbox.checked_ d
           then [drawRect (mkRect (cx - 5) (cy - 1) 10 2) (Checkbox.checkColor_ d);
                 drawRect (mkRect (cx - 1) (cy - 5) 2 10) (Checkbox.checkColor_ d)]
           else [])).

(** [(int)x]: truncation towards zero. *)
Definition to_int (x : Q) : Z := Z.quot (Qnum x) (Zpos (Qden x)).

(** [std::to_string] on an [int]. *)
Definition to_string (z : Z) : string := NilZero.string_of_int (Z.to_int z).

Definition ProgressBar_render (r : Renderer)
    (b : WidgetBase) (d : ProgressBar.data) : list DrawCall :=
  let cb := contentBounds_ b in
  let fillWidth := ProgressBar.progress_ d * rwidth cb in
  Widget_render b
  ++ [drawRoundedRect (mkRect (rx cb) (ry cb) fillWidth (rheight cb))
                      (borderRadius (style_ b)) (ProgressBar.fillColor_ d)]
  ++ (if ProgressBar.showText_ d && Qgeb (rheight cb) 14
      then
        let text := (to_string (to_int (ProgressBar.progress_ d * 100)) ++ "%")%string in
        match loadFont r "" 10 with
        | Some font =>
            let textSize := measureText r font text in
            [drawText text
               (mkPoint (centered (rx cb) (rwidth cb) (width textSize))
                        (centered (ry cb) (rheight cb) (height textSize)))
               font (mkColor 1 1 1 1) TextStyle_default]
        | None => []
        end
      else []).

Definition Label_render (r : Renderer) (b : WidgetBase) (d : Label.data)
    : list DrawCall :=
  let ts := Label.textStyle_ d in
  Widget_render b
  ++ match loadFont r (fontFamily ts) (fontSize ts) with
     | Some font =>
         [drawText (Label.text_ d) (topLeft (contentBounds_ b)) font (tcolor ts) ts]
     | None => []
     end.

Section Render.
Variable r : Renderer.

(** Virtual dispatch of [render] on a widget without children. *)
Definition Leaf_render (b : WidgetBase) (k : Leaf)
    : result (Widget * list DrawCall) :=
  match k with
  | KWidget | KDivider _ => Ok (LeafW b k, Widget_render b)
  | KSpacer => Ok (LeafW b k, [])
  | KText d => Ok (LeafW b k, Text_render r b d)
  | KImage d =>
      let '(d', calls) := Image_render r b d in Ok (LeafW b (KImage d'), calls)
  | KIcon d => Ok (LeafW b k, Icon_render b d)
  | KButton d =>
      let '(b', calls) := Button_render r b d in Ok (LeafW b' k, calls)
  | KTextInput d =>
      '(b', calls) <- TextInput_render r b d ;; Ok (LeafW b' k, calls)
  | KSlider d => Ok (LeafW b k, Slider_render b d)
  | KCheckbox d =>
      let '(b', calls) := Checkbox_render b d in Ok (LeafW b' k, calls)
  | KProgressBar d => Ok (LeafW b k, ProgressBar_render r b d)
  | KLabel d => Ok (LeafW b k, Label_render r b d)
  end.

(** The loop of [Container::render]: visible children, in order. *)
Fixpoint render_children {W : Type} (isVisible : W -> bool)
    (render : W -> result (W * list DrawCall)) (children_ : list W)
    : result (list W * list DrawCall) :=
  match children_ with
  | [] => Ok ([], [])
  | child :: rest =>
      '(child', calls) <- (if isVisible child then render child
                           else Ok (child, [])) ;;
      '(rest', calls') <- render_children isVisible render rest ;;
      Ok (child' :: rest', calls ++ calls')
  end.

(** [render] on the tree. No layout overrides [Container::render]. *)
Fixpoint render (w : Widget) {struct w} : result (Widget * list DrawCall) :=
  match w with
  | LeafW b k => Leaf_render b k
  | ContW b k cs =>
      '(cs', calls) <- render_children isVisible render cs ;;
      Ok (ContW b k cs', Widget_render b ++ calls)
  end.
End Render.

(** ** Mouse motion *)

Definition set_hovered (b : WidgetBase) (h : bool) : WidgetBase :=
  mkWidgetBase (widthSpec_ b) (heightSpec_ b) (style_ b) (bounds_ b)
    (contentBounds_ b) (measuredSize_ b) (visible_ b) (enabled_ b) h
    (focused_ b) (onClickHandler_ b) (onHoverHandler_ b) (onFocusHandler_ b).

(** [Widget::handleMouseMove]. *)
Definition Widget_handleMouseMove (b : WidgetBase) (event : MouseEvent)
    : bool * WidgetBase * list Fired :=
  let wasHovered := hovered_ b in
  let hovered := contains (bounds_ b) (position event) in
  (hovered, set_hovered b hovered,
   if negb (Bool.eqb hovered wasHovered)
   then call (onHoverHandler_ b) (fun h => OnHover h hovered)
   else []).

Definition Button_handleMouseMove (b : WidgetBase) (d : Button.data)
    (event : MouseEvent) : bool * WidgetBase * Button.data * list Fired :=
  let '(result, b', fired) := Widget_handleMouseMove b event in
  (result, b',
   Button.mk (Button.label_ d) (Button.iconPath_ d) (Button.textStyle_ d)
             (Button.hoverBg_ d) (Button.activeBg_ d) (hovered_ b')
             (Button.pressed_ d),
   fired).

Definition Slider_handleMouseMove (b : WidgetBase) (d : Slider.data)
    (event : MouseEvent) : bool * WidgetBase * Slider.data * list Fired :=
  let '(_, b', fired) := Widget_handleMouseMove b event in
  if Slider.dragging_ d
  then let '(d', fired') := Slider_updateValue b' d (px (position event)) in
       (true, b', d', fired ++ fired')
  else (false, b', d, fired).

(** Virtual dispatch of [handleMouseMove] on a widget without children. *)
Definition Leaf_handleMouseMove (b : WidgetBase) (k : Leaf) (event : MouseEvent)
    : bool * Widget * list Fired :=
  match k with
  | KButton d =>
      let '(r, b', d', fired) := Button_handleMouseMove b d event in
      (r, LeafW b' (KButton d'), fired)
  | KSlider d =>
      let '(r, b', d', fired) := Slider_handleMouseMove b d event in
      (r, LeafW b' (KSlider d'), fired)
  | _ =>
      let '(r, b', fired) := Widget_handleMouseMove b event in
      (r, LeafW b' k, fired)
  end.

(** [handleMouseMove] on the tree: [Container::handleMouseMove] updates its
    own hover state, then offers the event to the children in order and
    returns at the first one that reports [true]. *)
Fixpoint handleMouseMove (w : Widget) (event : MouseEvent) {struct w}
    : bool * Widget * list Fired :=
  match w with
  | LeafW b k => Leaf_handleMouseMove b k event
  | ContW b k cs =>
      let '(_, b', fired) := Widget_handleMouseMove b event in
      let '(r, cs', fired') :=
        offer_in_order (fun child => handleMouseMove child event) cs in
      (r, ContW b' k cs', fired ++ fired')
  end.

(** ** Fluent setters that clamp *)

(** [ProgressBar::progress(p)]. *)
Definition ProgressBar_progress (d : ProgressBar.data) (p : Q)
    : ProgressBar.data :=
  ProgressBar.mk (clamp p 0 1) (ProgressBar.fillColor_ d)
                 (ProgressBar.showText_ d).

(** [Slider::value(v)] and [Slider::range(min, max)]. *)
Definition Slider_value (d : Slider.data) (v : Q) : Slider.data :=
  set_value d (clamp v (Slider.min_ d) (Slider.max_ d)).

Definition Slider_range (d : Slider.data) (min max : Q) : Slider.data :=
  Slider.mk min max (Slider.value_ d) (Slider.thumbColor_ d)
            (Slider.fillColor_ d) (Slider.dragging_ d)
            (Slider.onChangeHandler_ d).

(** [Image::opacity(o)]. *)
Definition Image_opacity (d : Image.data) (o : Q) : Image.data :=
  Image.mk (Image.imagePath_ d) (Image.texture_ d) (Image.fit_ d)
           (Image.preserveAspect_ d) (clamp o 0 1) (Image.tint_ d)
           (Image.hasTint_ d).

(** [Color::fromRGB(r, g, b, a)] on bytes. *)
Definition fromRGB (r g b a : Z) : Color :=
  mkColor (inject_Z r / 255) (inject_Z g / 255) (inject_Z b / 255)
          (inject_Z a / 255).

(** ** renderer.hpp: [Font::decodeUTF8] and [Font::measureText]

    A [std::string] is read byte by byte; a byte is a number below 256.
    [str[str.size()]] is the terminating zero, an index beyond is an error.
    What [getGlyph] returns depends on the glyphs cached so far, so the
    cache is threaded through the scan as a state of type [G]; only the
    advance of the glyph is read. *)
Definition byte_at (str : string) (i : nat) : result Z :=
  match String.get i str with
  | Some c => Ok (Z.of_nat (nat_of_ascii c))
  | None =>
      if (i =? String.length str)%nat then Ok 0%Z else Err StringOutOfRange
  end.

(** [codepoint |= (str[i+k] & 0x3F) << shift], behind its bounds test. *)
Definition or_continuation (str : string) (i k : nat) (shift : Z)
    (codepoint : Z) : result Z :=
  if (i + k <? String.length str)%nat
  then b <- byte_at str (i + k) ;;
       Ok (Z.lor codepoint (Z.shiftl (Z.land b 0x3F) shift))
  else Ok codepoint.

(** [decodeUTF8(str, i)]: the code point and the new value of [i]. *)
Definition decodeUTF8 (str : string) (i : nat) : result (Z * nat) :=
  c <- byte_at str i ;;
  if (Z.land c 0x80 =? 0)%Z then Ok (c, (i + 1)%nat)
  else if (Z.land c 0xE0 =? 0xC0)%Z then
    cp <- or_continuation str i 1 0 (Z.shiftl (Z.land c 0x1F) 6) ;;
    Ok (cp, (i + 2)%nat)
  else if (Z.land c 0xF0 =? 0xE0)%Z then
    cp <- or_continuation str i 1 6 (Z.shiftl (Z.land c 0x0F) 12) ;;
    cp <- or_continuation str i 2 0 cp ;;
    Ok (cp, (i + 3)%nat)
  else if (Z.land c 0xF8 =? 0xF0)%Z then
    cp <- or_continuation str i 1 12 (Z.shiftl (Z.land c 0x07) 18) ;;
    cp <- or_continuation str i 2 6 cp ;;
    cp <- or_continuation str i 3 0 cp ;;
    Ok (cp, (i + 4)%nat)
  else Ok (63%Z, (i + 1)%nat).

Section FontMeasure.
Variable G : Type.
Variable getGlyph : G -> Z -> option Q * G.
Variable lineHeight : Z.

(** The loop of [measureText]; [fuel] bounds the number of iterations. *)
Fixpoint measureText_loop (fuel : nat) (text : string) (i : nat)
    (width maxWidth : Q) (lines : Z) (g : G) : result (Q * Q * Z * G) :=
  if (i <? String.length text)%nat then
    match fuel with
    | O => Err FuelExhausted
    | S fuel' =>
        c <- byte_at text i ;;
        if (c =? 10)%Z
        then measureText_loop fuel' text (i + 1) 0 (fmax maxWidth width)
                              (lines + 1)%Z g
        else
          '(codepoint, i') <- decodeUTF8 text i ;;
          let '(glyph, g') := getGlyph g codepoint in
          let width' :=
            match glyph with
            | Some advance => width + advance
            | None => width
            end in
          measureText_loop fuel' text i' width' maxWidth lines g'
    end
  else Ok (width, maxWidth, lines, g).

(** Every iteration moves [i] forward, so [text.size()] iterations are
    enough. *)
Definition Font_measureText (g : G) (text : string) : result (Size * G) :=
  '(width, maxWidth, lines, g') <-
    measureText_loop (String.length text) text 0 0 0 1%Z g ;;
  Ok (mkSize (fmax maxWidth width) (of_int (lines * lineHeight)), g').
End FontMeasure.

(** ** core.hpp: easing curves and [Animation]

    [Elastic] is made of [std::pow] and [std::sin]; its formula is a
    parameter [elastic] of the model.  The only other library call,
    [std::pow(x, 2)] in [EaseInOut], is the square [x * x] (the call has an
    [int] exponent, so [x] is promoted to [double], which holds the square
    of a [float] exactly).  [Animation<T>] is taken at [T = float]. *)
Inductive EasingCurve : Type :=
| Linear | EaseIn | EaseOut | EaseInOut | Bounce | Elastic.

Section Easing.
Variable elastic : Q -> Q.

Definition easeValue (t : Q) (curve : EasingCurve) : Q :=
  if Qleb t 0 then 0
  else if Qgeb t 1 then 1
  else
    match curve with
    | Linear => t
    | EaseIn => t * t
    | EaseOut => 1 - (1 - t) * (1 - t)
    | EaseInOut =>
        if Qltb t (1 # 2) then 2 * t * t
        else 1 - ((-2) * t + 2) * ((-2) * t + 2) / 2
    | Bounce =>
        let n1 := 121 # 16 in
        let d1 := 11 # 4 in
        if Qltb t (1 / d1) then n1 * t * t
        else if Qltb t (2 / d1) then
          let t := t - (3 # 2) / d1 in n1 * t * t + (3 # 4)
        else if Qltb t ((5 # 2) / d1) then
          let t := t - (9 # 4) / d1 in n1 * t * t + (15 # 16)
        else
          let t := t - (21 # 8) / d1 in n1 * t * t + (63 # 64)
    | Elastic => elastic t
    end.

Record Animation : Type := mkAnimation {
  start_ : Q; end_ : Q; duration_ : Q; curve_ : EasingCurve;
  elapsed_ : Q; running_ : bool }.

(** [Animation(start, end, duration, curve)]. *)
Definition Animation_new (start end_v duration : Q) (curve : EasingCurve)
    : Animation :=
  mkAnimation start end_v duration curve 0 false.

Definition Animation_start (a : Animation) : Animation :=
  mkAnimation (start_ a) (end_ a) (duration_ a) (curve_ a) 0 true.

Definition Animation_stop (a : Animation) : Animation :=
  mkAnimation (start_ a) (end_ a) (duration_ a) (curve_ a) (elapsed_ a) false.

(** [update(dt)]: whether the animation has just completed, and the
    animation afterwards. *)
Definition Animation_update (a : Animation) (dt : Q) : bool * Animation :=
  if negb (running_ a) then (false, a)
  else
    let elapsed := elapsed_ a + dt in
    if Qgeb elapsed (duration_ a)
    then (true,
          mkAnimation (start_ a) (end_ a) (duration_ a) (curve_ a)
                      (duration_ a) false)
    else (false,
          mkAnimation (start_ a) (end_ a) (duration_ a) (curve_ a)
                      elapsed true).

Definition lerp (a b t : Q) : Q := a + (b - a) * t.

Definition Animation_value (a : Animation) : Q :=
  let t := elapsed_ a / duration_ a in
  lerp (start_ a) (end_ a) (easeValue t (curve_ a)).

(** A run of [update] calls, one per frame: the number of calls that
    reported completion, and the animation afterwards. *)
Fixpoint Animation_run (a : Animation) (dts : list Q) : nat * Animation :=
  match dts with
  | [] => (0%nat, a)
  | dt :: rest =>
      let '(done, a') := Animation_update a dt in
      let '(n, a'') := Animation_run a' rest in
      ((if done then 1 else 0) + n, a'')%nat
  end.
End Easing.

(** ** application.hpp: the listeners of [Application]

    Each listener declares an event, assigns some of its members and hands
    it to the root widget, when there is one.  [Point] and [std::string]
    members are default-constructed ((0,0) and the empty string); the other
    members the listener does not assign are indeterminate and come from
    [uninit].  [button] is the enumerator that [button - BTN_LEFT] casts to,
    [pressed] the truth of [state == ..._STATE_PRESSED], [vertical] that of
    [axis == WL_POINTER_AXIS_VERTICAL_SCROLL]. *)
Definition Application_on_motion (root_ : option Widget) (x y : Q)
    (uninit : MouseEvent) : option (bool * Widget * list Fired) :=
  let event :=
    mkMouseEvent (mkPoint x y) (mkPoint 0 0) (button uninit) (pressed uninit)
                 (mods uninit) in
  match root_ with
  | Some root => Some (handleMouseMove root event)
  | None => None
  end.

Definition Application_on_button (root_ : option Widget) (button : MouseButton)
    (pressed : bool) (uninit : MouseEvent)
    : option (bool * Widget * list Fired) :=
  let event :=
    mkMouseEvent (mkPoint 0 0) (mkPoint 0 0) button pressed (mods uninit) in
  match root_ with
  | Some root => Some (handleMouseButton root event)
  | None => None
  end.

Definition Application_on_axis (root_ : option Widget) (vertical : bool)
    (value : Q) (uninit : ScrollEvent) : option (result (bool * Widget)) :=
  let event :=
    if vertical
    then mkScrollEvent (mkPoint 0 0) (deltaX uninit) value
    else mkScrollEvent (mkPoint 0 0) value (deltaY uninit) in
  match root_ with
  | Some root => Some (handleScroll root event)
  | None => None
  end.

Definition Application_on_key (root_ : option Widget) (key : Z)
    (pressed : bool) (uninit : KeyEvent)
    : option (result (bool * Widget * list Fired)) :=
  let event := mkKeyEvent key (keysym uninit) pressed (kmods uninit) "" in
  match root_ with
  | Some root => Some (handleKeyEvent root event)
  | None => None
  end.

(** [Application::setRoot] on a widget: measured against the window, then
    laid out over it. *)
Definition Application_setRoot (width_ height_ : Z) (root : Widget)
    : result Widget :=
  let '(_, root1) := measure root (mkSize (of_int width_) (of_int height_)) in
  layout root1 (mkRect 0 0 (of_int width_) (of_int height_)).

(** * Constructors, sample inputs and the vocabulary of the statements *)

(** ** Constructors and fluent setters of the source *)

(** [Button(label)]. *)
Definition Button_new (label : string) : Widget :=
  LeafW (set_style WidgetBase_default
           (mkBoxStyle (fromHex 0x3b82f6ff) (mkColor 0 0 0 0) 0
              (BorderRadius_all 4) (mkPadding 10 20 10 20) (Padding_all 0)
              false (mkColor 0 0 0 (3 # 10)) (mkPoint 0 2) 4
              false (mkColor 1 1 1 1) (mkColor 1 1 1 1) 0))
        (KButton (Button.mk label ""
                    (mkTextStyle "sans-serif" 14 (mkColor 1 1 1 1) false false
                                 (14 # 10) AlignCenter VMiddle)
                    (fromHex 0x2563ebff) (fromHex 0x1d4ed8ff) false false)).

(** [Text(text)]. *)
Definition Text_new (text : string) : Widget :=
  LeafW WidgetBase_default (KText (Text.mk text TextStyle_default false 0)).


(** [Box(dir)] with [spacing(s)] and children added in order. *)
Definition Box_new (dir : Direction) (spacing : Q) (cs : list Widget) : Widget :=
  ContW WidgetBase_default (KBox (Box.mk dir spacing Start Start)) cs.

(** [Sidebar(pos, size)] with children added in order. *)
Definition Sidebar_new (pos : Sidebar.Position) (size : Q) (cs : list Widget)
    : Widget :=
  ContW WidgetBase_default (KSidebar (Sidebar.mk pos size)) cs.

(** The members a [TextInput(placeholder)] adds: empty buffer, cursor at 0. *)
Definition TextInput_new (placeholder : string) : TextInput.data :=
  TextInput.mk "" placeholder TextStyle_default 0 None None.

(** [TextInput::value(v)]. *)
Definition TextInput_value (d : TextInput.data) (v : string) : TextInput.data :=
  set_text d v (String.length v).

(** [TextInput::onChange(handler)]. *)
Definition TextInput_onChange (d : TextInput.data) (h : handler)
    : TextInput.data :=
  TextInput.mk (TextInput.text_ d) (TextInput.placeholder_ d)
               (TextInput.textStyle_ d) (TextInput.cursorPos_ d) (Some h)
               (TextInput.onSubmitHandler_ d).

(** [w.visible(v)]. *)
Definition with_visible (w : Widget) (v : bool) : Widget :=
  set_base w (set_visible (base w) v).

(** [w.margin(all)]. *)
Definition with_margin (w : Widget) (all : Q) : Widget :=
  set_base w (set_style (base w) (set_margin (style_ (base w)) (Padding_all all))).

(** ** Sample inputs *)

(** The fields of a widget after [layout(r)] when it has no padding. *)
Definition laid_out (b : WidgetBase) (r : Rect) : WidgetBase :=
  set_bounds b r r.

(** A left-button press at [(x, y)]. *)
Definition press_at (x y : Q) : MouseEvent :=
  mkMouseEvent (mkPoint x y) (mkPoint 0 0) Left true 0.

(** A key press with the given keycode and text. *)
Definition key_press (code : Z) (text : string) : KeyEvent :=
  mkKeyEvent code 0 true 0 text.

(** The members of a [Button("OK")]. *)
Definition a_button : Button.data :=
  Button.mk "OK" "" TextStyle_default (fromHex 0x2563ebff) (fromHex 0x1d4ed8ff)
            false false.

(** The members of a default [Slider()]: range 0..1, value 0.5. *)
Definition a_slider : Slider.data :=
  Slider.mk 0 1 (1 # 2) (fromHex 0x3b82f6ff) (fromHex 0x60a5faff) false None.

(** A plain [Widget] at [r] with an [onClick] handler. *)
Definition clickable (enabled : bool) (h : handler) (r : Rect) : Widget :=
  LeafW (laid_out (set_onClick (set_enabled WidgetBase_default enabled) (Some h)) r)
        KWidget.

(** A [ScrollView] laid out at (0,0,100,100), not yet scrolled. *)
Definition a_scroll_view (dir : Direction) (cs : list Widget) : Widget :=
  ContW (laid_out WidgetBase_default (mkRect 0 0 100 100))
        (KScrollView (ScrollView.mk dir (mkPoint 0 0))) cs.

(** A renderer with one font, every glyph 8 wide and 16 high. *)
Definition a_renderer : Renderer :=
  mkRenderer (fun _ _ => Some (mkFont 0))
             (fun _ => None)
             (fun _ text => mkSize (of_size_t (String.length text) * 8) 16).

(** ** Vocabulary: measuring *)

(** The value of the virtual [measureContent] on a widget. *)
Definition measureContent (w : Widget) (available : Size) : Size :=
  match w with
  | LeafW b k => Leaf_measureContent b k available
  | ContW b k cs => fst (Layout_measureContent measure k cs available)
  end.

(** How one axis is resolved from its [SizeSpec]. *)
Definition axis_extent (spec : SizeSpec) (available content pad : Q) : Q :=
  match constraint spec with
  | Fixed => value spec
  | Fill => available
  | Percent => available * (value spec / 100)
  | Content => content + pad
  end.

(** The children after an axis has been resolved: [measureContent] has run
    over them when the axis is content-sized. *)
Definition axis_children (measure : Widget -> Size -> Size * Widget)
    (spec : SizeSpec) (k : Layout) (cs : list Widget) (available : Size)
    : list Widget :=
  match constraint spec with
  | Content => snd (Layout_measureContent measure k cs available)
  | _ => cs
  end.

(** [measure] writes [measuredSize_] and nothing else, and never reads it:
    two trees that differ in cached sizes only are the same to it. *)
Fixpoint forget_measured (w : Widget) : Widget :=
  match w with
  | LeafW b k => LeafW (set_measuredSize b (mkSize 0 0)) k
  | ContW b k cs =>
      ContW (set_measuredSize b (mkSize 0 0)) k (map forget_measured cs)
  end.

Definition same_but_measured (w w' : Widget) : Prop :=
  forget_measured w = forget_measured w'.

(** [near cs c]: [c] is a child of the list, up to cached sizes; these are
    the widgets [layoutChildren] passes on to [layout]. *)
Definition near (cs : list Widget) (c : Widget) : Prop :=
  exists c0, In c0 cs /\ same_but_measured c0 c.


(** [m] is the largest element of [l]. *)
Definition is_maximum (m : Q) (l : list Q) : Prop :=
  (forall x, In x l -> x <= m) /\ (exists x, In x l /\ m == x).

(** ** Vocabulary: events *)

(** What a child does with the event under [handle]: whether it returns
    [true], the child afterwards, and the handlers it called. *)
Definition consumes {W : Type} (handle : W -> bool * W * list Fired)
    (child : W) : Prop :=
  fst (fst (handle child)) = true.

Definition declines {W : Type} (handle : W -> bool * W * list Fired)
    (child : W) : Prop :=
  fst (fst (handle child)) = false.

Definition after {W : Type} (handle : W -> bool * W * list Fired)
    (child : W) : W :=
  snd (fst (handle child)).

Definition fired_by {W : Type} (handle : W -> bool * W * list Fired)
    (child : W) : list Fired :=
  snd (handle child).

(** The class invariant of [TextInput]: the cursor is an index into the
    buffer or its end.  The constructor and [value(v)] establish it,
    [handleKeyEvent] keeps it. *)
Definition cursor_in_range (d : TextInput.data) : Prop :=
  (TextInput.cursorPos_ d <= String.length (TextInput.text_ d))%nat.

(** What a key event does to a focused input whose cursor is in range,
    branch by branch. *)
Inductive key_effect (d : TextInput.data) (event : KeyEvent)
    : TextInput.data -> list Fired -> Prop :=
| eff_ignored :
    key_effect d event d []
| eff_moved cursor :
    key_effect d event (set_text d (TextInput.text_ d) cursor) []
| eff_submitted :
    key_effect d event d
      (call (TextInput.onSubmitHandler_ d)
            (fun h => OnSubmit h (TextInput.text_ d)))
| eff_edited text' cursor :
    text' <> TextInput.text_ d ->
    key_effect d event (set_text d text' cursor)
      (call (TextInput.onChangeHandler_ d) (fun h => OnChange h text')).

(** The keycodes [handleKeyEvent] gives a meaning of their own: Backspace,
    Delete, Left, Right, Enter. *)
Definition special_key (code : Z) : bool :=
  (code =? 14)%Z || (code =? 111)%Z || (code =? 105)%Z || (code =? 106)%Z
  || (code =? 28)%Z.

(** A key press that types the character [c]: a pressed key other than
    Backspace, Delete, the arrows and Enter, carrying [c] as its text. *)
Definition types (event : KeyEvent) (c : ascii) : Prop :=
  kpressed event = true
  /\ special_key (keycode event) = false
  /\ ktext event = String c EmptyString.

(** Key events delivered one after the other. *)
Fixpoint send_keys (b : WidgetBase) (d : TextInput.data)
    (events : list KeyEvent) : result (TextInput.data * list Fired) :=
  match events with
  | [] => Ok (d, [])
  | event :: rest =>
      '(_, d', fired) <- TextInput_handleKeyEvent b d event ;;
      '(d'', fired') <- send_keys b d' rest ;;
      Ok (d'', fired ++ fired')
  end.

(** The [onChange] calls typing [cs] after [s] should produce: one per
    character, each with the buffer as it then stands. *)
Fixpoint changes (h : handler) (s : string) (cs : list ascii) : list Fired :=
  match cs with
  | [] => []
  | c :: cs' =>
      let s' := (s ++ String c EmptyString)%string in
      OnChange h s' :: changes h s' cs'
  end.

Definition is_OnChange (f : Fired) : bool :=
  match f with
  | OnChange _ _ => true
  | _ => false
  end.

(** The scroll offset of a widget, when it is a [ScrollView]. *)
Definition scrollOffset (w : Widget) : option Point :=
  match w with
  | ContW _ (KScrollView d) _ => Some (ScrollView.scrollOffset_ d)
  | _ => None
  end.

(** The scroll offsets of all the scroll views of a tree, root first. *)
Fixpoint offsets (w : Widget) : list Point :=
  match w with
  | LeafW _ _ => []
  | ContW _ k cs =>
      match k with
      | KScrollView d => [ScrollView.scrollOffset_ d]
      | _ => []
      end ++ flat_map offsets cs
  end.

(** The invariant: no scroll offset of the tree is negative on any axis. *)
Definition offsets_not_negative (w : Widget) : Prop :=
  Forall (fun off => 0 <= px off /\ 0 <= py off) (offsets w).

(** ** Vocabulary: more events and accessors *)

(** A pointer motion to [(x, y)], a left-button release and a press of
    another button at [(x, y)]. *)
Definition move_to (x y : Q) : MouseEvent :=
  mkMouseEvent (mkPoint x y) (mkPoint 0 0) Left false 0.

Definition release_at (x y : Q) : MouseEvent :=
  mkMouseEvent (mkPoint x y) (mkPoint 0 0) Left false 0.

Definition right_press_at (x y : Q) : MouseEvent :=
  mkMouseEvent (mkPoint x y) (mkPoint 0 0) Right true 0.

(** The members of a [Slider] widget, when it is one. *)
Definition slider_data (w : Widget) : option Slider.data :=
  match w with
  | LeafW _ (KSlider d) => Some d
  | _ => None
  end.

(** The value [Slider::updateValue] maps a pointer abscissa to. *)
Definition slider_value_at (b : WidgetBase) (d : Slider.data) (mouseX : Q) : Q :=
  clamp (Slider.min_ d
         + (mouseX - rx (bounds_ b)) / rwidth (bounds_ b)
           * (Slider.max_ d - Slider.min_ d))
        (Slider.min_ d) (Slider.max_ d).

Definition is_OnHover (f : Fired) : bool :=
  match f with
  | OnHover _ _ => true
  | _ => false
  end.

(** The members of a [Checkbox(checked)]. *)
Definition Checkbox_new (checked : bool) : Checkbox.data :=
  Checkbox.mk checked (mkColor 1 1 1 1) None.

(** ** Vocabulary: geometry *)

(** The content rectangle [Widget::layout] derives from [rect]: [rect]
    shrunk by the padding. *)
Definition content_rect (rect : Rect) (p : Padding) : Rect :=
  mkRect (rx rect + left p) (ry rect + top p)
         (rwidth rect - horizontal p) (rheight rect - vertical p).

(** A tree with the geometry of every node ([bounds_], [contentBounds_],
    [measuredSize_]) blanked: what is left is everything [layout] has no
    business changing. *)
Definition forget_place (b : WidgetBase) : WidgetBase :=
  set_measuredSize (set_bounds b (mkRect 0 0 0 0) (mkRect 0 0 0 0)) (mkSize 0 0).

Fixpoint forget_geometry (w : Widget) : Widget :=
  match w with
  | LeafW b k => LeafW (forget_place b) k
  | ContW b k cs => ContW (forget_place b) k (map forget_geometry cs)
  end.

(** The part of a rectangle or of a size that lies along a direction: where
    it starts and how far it extends. *)
Definition span (dir : Direction) (r : Rect) : Q * Q :=
  match dir with
  | Horizontal => (rx r, rwidth r)
  | Vertical => (ry r, rheight r)
  end.

Definition along (dir : Direction) (s : Size) : Q :=
  match dir with
  | Horizontal => width s
  | Vertical => height s
  end.

Definition across (dir : Direction) : Direction :=
  match dir with
  | Horizontal => Vertical
  | Vertical => Horizontal
  end.

Definition span_end (p : Q * Q) : Q := fst p + snd p.

(** [spans] follow one another from [x] on, [spacing] apart, with the given
    extents. *)
Fixpoint in_a_row (spacing x : Q) (spans : list (Q * Q)) (extents : list Q)
    : Prop :=
  match spans, extents with
  | [], [] => True
  | p :: ps, e :: es =>
      fst p = x /\ snd p = e /\ in_a_row spacing (x + (e + spacing)) ps es
  | _, _ => False
  end.

(** What an alignment means for a span [p] of natural extent [size] inside
    the span that starts at [origin] and extends over [extent]: where the
    code puts it.  [Center] moves the span by half of what is left of the
    extent, [End] by all of it, [Stretch] fills. *)
Definition aligned (a : Alignment) (origin extent : Q) (p : Q * Q) (size : Q)
    : Prop :=
  match a with
  | Start => fst p = origin /\ snd p = size
  | Center => fst p = origin + (extent - size) / 2 /\ snd p = size
  | End_ => fst p = origin + (extent - size) /\ snd p = size
  | Stretch => fst p = origin /\ snd p = extent
  end.

(** The direction along which a [Sidebar] splits its content rectangle, and
    whether the side pane ([children_[0]]) comes first along it. *)
Definition Sidebar_axis (p : Sidebar.Position) : Direction :=
  match p with
  | Sidebar.PLeft | Sidebar.PRight => Horizontal
  | Sidebar.PTop | Sidebar.PBottom => Vertical
  end.

Definition Sidebar_pane_first (p : Sidebar.Position) : bool :=
  match p with
  | Sidebar.PLeft | Sidebar.PTop => true
  | Sidebar.PRight | Sidebar.PBottom => false
  end.

(** The members of all the text inputs of a tree, in order, and the
    invariant that every cursor is an index into its buffer or its end. *)
Fixpoint inputs (w : Widget) : list TextInput.data :=
  match w with
  | LeafW _ (KTextInput d) => [d]
  | LeafW _ _ => []
  | ContW _ _ cs => flat_map inputs cs
  end.

Definition cursors_in_range (w : Widget) : Prop :=
  Forall cursor_in_range (inputs w).

(** ** Vocabulary: text as bytes *)

(** The bytes of a string, and the number of line feeds among them. *)
Fixpoint bytes (s : string) : list Z :=
  match s with
  | EmptyString => []
  | String c s' => Z.of_nat (nat_of_ascii c) :: bytes s'
  end.

Definition is_ascii (s : string) : Prop :=
  Forall (fun b => (b < 128)%Z) (bytes s).

Definition line_feeds (s : string) : Z :=
  Z.of_nat (List.length (filter (fun b => (b =? 10)%Z) (bytes s))).

(** What the tests and masks of [decodeUTF8] say about a lead byte. *)
Definition lead_byte_facts (c : Z) : bool :=
  Bool.eqb (Z.land c 0x80 =? 0)%Z (c <? 128)%Z
  && Bool.eqb (Z.land c 0xE0 =? 0xC0)%Z ((192 <=? c) && (c <? 224))%Z
  && Bool.eqb (Z.land c 0xF0 =? 0xE0)%Z ((224 <=? c) && (c <? 240))%Z
  && Bool.eqb (Z.land c 0xF8 =? 0xF0)%Z ((240 <=? c) && (c <? 248))%Z
  && (Z.land c 0x1F =? c mod 32)%Z
  && (Z.land c 0x0F =? c mod 16)%Z
  && (Z.land c 0x07 =? c mod 8)%Z.

(** ** Vocabulary: where the widgets of a tree are *)

(** The bounds of all the widgets of a tree, root first. *)
Fixpoint all_bounds (w : Widget) : list Rect :=
  match w with
  | LeafW b _ => [bounds_ b]
  | ContW b _ cs => bounds_ b :: flat_map all_bounds cs
  end.

(** No widget of the tree has [p] within its bounds. *)
Definition nothing_at (p : Point) (w : Widget) : Prop :=
  Forall (fun r => contains r p = false) (all_bounds w).

(** The text of a widget, when it is a [TextInput]. *)
Definition input_text (w : Widget) : option string :=
  match w with
  | LeafW _ (KTextInput d) => Some (TextInput.text_ d)
  | _ => None
  end.

(** * Properties *)

(** ** Comparisons, [std::max] and [std::clamp] *)

Lemma Qltb_lt (a b : Q) : Qltb a b = true <-> a < b.
Proof.
  unfold Qltb. rewrite negb_true_iff.
  split; intro H.
  - apply Qnot_le_lt. intro Hle. apply Qle_bool_iff in Hle. congruence.
  - apply not_true_is_false. intro Hle. apply Qle_bool_iff in Hle.
    apply (Qlt_not_le _ _ H Hle).
Qed.

Lemma Qltb_ge (a b : Q) : Qltb a b = false <-> b <= a.
Proof.
  unfold Qltb. rewrite negb_false_iff. apply Qle_bool_iff.
Qed.

Lemma Qleb_le (a b : Q) : Qleb a b = true <-> a <= b.
Proof. apply Qle_bool_iff. Qed.

Lemma Qgeb_ge (a b : Q) : Qgeb a b = true <-> b <= a.
Proof. apply Qle_bool_iff. Qed.

Lemma fmax_lower (a b : Q) : a <= fmax a b.
Proof.
  unfold fmax. destruct (Qltb a b) eqn:E.
  - apply Qltb_lt in E. lra.
  - lra.
Qed.

Lemma fmax_upper (a b : Q) : b <= fmax a b.
Proof.
  unfold fmax. destruct (Qltb a b) eqn:E.
  - lra.
  - apply Qltb_ge in E. exact E.
Qed.

Lemma fmax_cases (a b : Q) : fmax a b = a \/ fmax a b = b.
Proof. unfold fmax. destruct (Qltb a b); auto. Qed.

Lemma clamp_range (v lo hi : Q) : lo <= hi -> lo <= clamp v lo hi <= hi.
Proof.
  intro H. unfold clamp.
  destruct (Qltb v lo) eqn:E1; [lra|].
  destruct (Qltb hi v) eqn:E2; [lra|].
  apply Qltb_ge in E1, E2. lra.
Qed.



Lemma clamp_monotone (v v' lo hi : Q) :
  lo <= hi -> v <= v' -> clamp v lo hi <= clamp v' lo hi.
Proof.
  intros H Hv. unfold clamp.
  destruct (Qltb v lo) eqn:E1; destruct (Qltb v' lo) eqn:E1';
    destruct (Qltb hi v) eqn:E2; destruct (Qltb hi v') eqn:E2';
    repeat match goal with
           | H : Qltb _ _ = true |- _ => apply Qltb_lt in H
           | H : Qltb _ _ = false |- _ => apply Qltb_ge in H
           end; lra.
Qed.

(** ** Button *)

Lemma Widget_handleMouseButton_disabled (b : WidgetBase) (event : MouseEvent) :
  enabled_ b = false -> Widget_handleMouseButton b event = (false, []).
Proof. intro H. unfold Widget_handleMouseButton. rewrite H. reflexivity. Qed.

(** C10: a disabled Button still records [pressed_]: whatever the mouse
    button event, [handleMouseButton] returns [false] and fires nothing, yet
    leaves [pressed_] equal to [event.pressed && bounds_.contains(position)];
    every other field keeps its value. *)
Theorem C10_disabled_button_still_sets_pressed :
  forall (b : WidgetBase) (d : Button.data) (event : MouseEvent),
    enabled_ b = false ->
    let hit := pressed event && contains (bounds_ b) (position event) in
    handleMouseButton (LeafW b (KButton d)) event
      = (false, LeafW b (KButton (set_pressed d hit)), [])
    /\ Button.pressed_ (set_pressed d hit) = hit.
Proof.
  intros b d event Hdis hit. split; [|reflexivity].
  cbn [handleMouseButton Leaf_handleMouseButton].
  unfold Button_handleMouseButton.
  rewrite (Widget_handleMouseButton_disabled b event Hdis). reflexivity.
Qed.

(** A disabled button at (0,0,10,10), pressed at (5,5): the call is declined
    but [pressed_] goes from [false] to [true]. *)
Lemma C10_witness :
  let b := laid_out (set_enabled WidgetBase_default false) (mkRect 0 0 10 10) in
  enabled_ b = false
  /\ Button.pressed_ a_button = false
  /\ handleMouseButton (LeafW b (KButton a_button)) (press_at 5 5)
     = (false, LeafW b (KButton (set_pressed a_button true)), []).
Proof.
  intro b. split; [reflexivity|]. split; [reflexivity|].
  exact (proj1 (C10_disabled_button_still_sets_pressed b a_button (press_at 5 5)
                  eq_refl)).
Defined.

(** ** Strings *)

Lemma str_length_app (s t : string) :
  String.length (s ++ t) = (String.length s + String.length t)%nat.
Proof. induction s as [|c s IH]; simpl; [reflexivity | now rewrite IH]. Qed.

Lemma str_app_nil_r (s : string) : (s ++ "")%string = s.
Proof. induction s as [|c s IH]; simpl; [reflexivity | now rewrite IH]. Qed.

Lemma str_app_assoc (s t u : string) : ((s ++ t) ++ u = s ++ (t ++ u))%string.
Proof. induction s as [|c s IH]; simpl; [reflexivity | now rewrite IH]. Qed.

Lemma str_take_all (s t : string) : str_take (String.length s) (s ++ t) = s.
Proof. induction s as [|c s IH]; simpl; [reflexivity | now rewrite IH]. Qed.

Lemma str_drop_all (s t : string) : str_drop (String.length s) (s ++ t) = t.
Proof. induction s as [|c s IH]; simpl; [reflexivity | exact IH]. Qed.

Lemma str_take_drop (n : nat) (s : string) :
  (str_take n s ++ str_drop n s)%string = s.
Proof.
  revert s. induction n as [|n IH]; intros [|c s]; simpl; try reflexivity.
  now rewrite IH.
Qed.

Lemma str_take_length (n : nat) (s : string) :
  (n <= String.length s)%nat -> String.length (str_take n s) = n.
Proof.
  revert s. induction n as [|n IH]; intros [|c s] H; simpl in *;
    try reflexivity; try lia.
  rewrite IH; [reflexivity | lia].
Qed.

Lemma str_drop_length (n : nat) (s : string) :
  String.length (str_drop n s) = (String.length s - n)%nat.
Proof.
  revert s. induction n as [|n IH]; intros [|c s]; simpl; try reflexivity.
  apply IH.
Qed.

Lemma string_of_list_ascii_app (l l' : list ascii) :
  string_of_list_ascii (l ++ l')
  = (string_of_list_ascii l ++ string_of_list_ascii l')%string.
Proof. induction l as [|c l IH]; simpl; [reflexivity | now rewrite IH]. Qed.

Lemma string_of_list_ascii_length (l : list ascii) :
  String.length (string_of_list_ascii l) = List.length l.
Proof. induction l as [|c l IH]; simpl; [reflexivity | now rewrite IH]. Qed.

Lemma str_erase_ok (s : string) (pos n : nat) :
  (pos <= String.length s)%nat ->
  str_erase s pos n = Ok (str_take pos s ++ str_drop (pos + n) s)%string.
Proof.
  intro H. unfold str_erase.
  destruct (Nat.ltb_spec (String.length s) pos); [lia | reflexivity].
Qed.

Lemma str_insert_ok (s : string) (pos : nat) (t : string) :
  (pos <= String.length s)%nat ->
  str_insert s pos t = Ok (str_take pos s ++ t ++ str_drop pos s)%string.
Proof.
  intro H. unfold str_insert.
  destruct (Nat.ltb_spec (String.length s) pos); [lia | reflexivity].
Qed.

(** ** TextInput *)

Lemma TextInput_new_in_range (p : string) : cursor_in_range (TextInput_new p).
Proof. unfold cursor_in_range. simpl. lia. Qed.

Lemma TextInput_value_in_range (d : TextInput.data) (v : string) :
  cursor_in_range (TextInput_value d v).
Proof. unfold cursor_in_range. simpl. lia. Qed.

Lemma str_length_neq (s t : string) :
  String.length s <> String.length t -> s <> t.
Proof. intros H E. apply H. now rewrite E. Qed.

Lemma TextInput_handleKeyEvent_focused (b : WidgetBase) (d : TextInput.data)
    (event : KeyEvent) :
  focused_ b = true -> cursor_in_range d ->
  exists d' fired,
    TextInput_handleKeyEvent b d event = Ok (true, d', fired)
    /\ cursor_in_range d'
    /\ key_effect d event d' fired.
Proof.
  intros Hf Hc. unfold cursor_in_range in Hc.
  unfold TextInput_handleKeyEvent. rewrite Hf. cbn [negb].
  destruct (kpressed event); [|exists d, []; repeat split; auto; constructor].
  destruct (keycode event =? 14)%Z.
  { destruct (Nat.ltb_spec 0 (TextInput.cursorPos_ d)).
    - rewrite str_erase_ok by lia. cbn [bind].
      eexists _, _. split; [reflexivity|].
      assert (L : String.length
                    (str_take (TextInput.cursorPos_ d - 1) (TextInput.text_ d)
                     ++ str_drop (TextInput.cursorPos_ d - 1 + 1)
                          (TextInput.text_ d))
                  = (String.length (TextInput.text_ d) - 1)%nat).
      { rewrite str_length_app, str_take_length, str_drop_length by lia. lia. }
      split.
      + unfold cursor_in_range. cbn [set_text TextInput.cursorPos_ TextInput.text_].
        rewrite L. lia.
      + apply eff_edited. apply str_length_neq. rewrite L. lia.
    - exists d, []. repeat split; auto. constructor. }
  destruct (keycode event =? 111)%Z.
  { destruct (Nat.ltb_spec (TextInput.cursorPos_ d)
                           (String.length (TextInput.text_ d))).
    - rewrite str_erase_ok by lia. cbn [bind].
      eexists _, _. split; [reflexivity|].
      assert (L : String.length
                    (str_take (TextInput.cursorPos_ d) (TextInput.text_ d)
                     ++ str_drop (TextInput.cursorPos_ d + 1)
                          (TextInput.text_ d))
                  = (String.length (TextInput.text_ d) - 1)%nat).
      { rewrite str_length_app, str_take_length, str_drop_length by lia. lia. }
      split.
      + unfold cursor_in_range. cbn [set_text TextInput.cursorPos_ TextInput.text_].
        rewrite L. lia.
      + apply eff_edited. apply str_length_neq. rewrite L. lia.
    - exists d, []. repeat split; auto. constructor. }
  destruct (keycode event =? 105)%Z.
  { destruct (Nat.ltb_spec 0 (TextInput.cursorPos_ d)).
    - eexists _, _. split; [reflexivity|]. split; [|constructor].
      unfold cursor_in_range. simpl. lia.
    - exists d, []. repeat split; auto. constructor. }
  destruct (keycode event =? 106)%Z.
  { destruct (Nat.ltb_spec (TextInput.cursorPos_ d)
                           (String.length (TextInput.text_ d))).
    - eexists _, _. split; [reflexivity|]. split; [|constructor].
      unfold cursor_in_range. simpl. lia.
    - exists d, []. repeat split; auto. constructor. }
  destruct (keycode event =? 28)%Z.
  { eexists _, _. split; [reflexivity|]. split; [exact Hc | constructor]. }
  destruct (ktext event) as [|c t] eqn:Et; cbn [is_empty negb].
  { exists d, []. repeat split; auto. constructor. }
  rewrite str_insert_ok by lia. cbn [bind].
  eexists _, _. split; [reflexivity|].
  assert (L : String.length
                (str_take (TextInput.cursorPos_ d) (TextInput.text_ d)
                 ++ String c t
                 ++ str_drop (TextInput.cursorPos_ d) (TextInput.text_ d))
              = (String.length (TextInput.text_ d) + String.length (String c t))%nat).
  { rewrite !str_length_app, str_take_length, str_drop_length by lia. lia. }
  split.
  - unfold cursor_in_range. cbn [set_text TextInput.cursorPos_ TextInput.text_].
    rewrite L. lia.
  - apply eff_edited. apply str_length_neq. rewrite L. simpl. lia.
Qed.

(** C9: a focused TextInput consumes every key event (pressed or released,
    handled key or not): [handleKeyEvent] returns [true]; an unfocused one
    returns [false] and is left as it was, buffer and cursor included. *)
Theorem C9_focused_textinput_consumes_every_key :
  forall (b : WidgetBase) (d : TextInput.data) (event : KeyEvent),
    cursor_in_range d ->
    (focused_ b = true ->
     exists d' fired,
       handleKeyEvent (LeafW b (KTextInput d)) event
       = Ok (true, LeafW b (KTextInput d'), fired))
    /\ (focused_ b = false ->
        handleKeyEvent (LeafW b (KTextInput d)) event
        = Ok (false, LeafW b (KTextInput d), [])).
Proof.
  intros b d event Hc. split; intro Hf.
  - destruct (TextInput_handleKeyEvent_focused b d event Hf Hc)
      as (d' & fired & E & _).
    exists d', fired. cbn [handleKeyEvent]. rewrite E. reflexivity.
  - cbn [handleKeyEvent]. unfold TextInput_handleKeyEvent. rewrite Hf.
    reflexivity.
Qed.

(** A focused input holding "ab" with the cursor at its end, and a release
    of a key the widget does not know (F1, keycode 59). *)
Lemma C9_witness :
  let d := TextInput_value (TextInput_new "name") "ab" in
  let focused := set_focused WidgetBase_default true in
  let release_f1 := mkKeyEvent 59 0 false 0 "" in
  cursor_in_range d
  /\ (exists d' fired,
        handleKeyEvent (LeafW focused (KTextInput d)) release_f1
        = Ok (true, LeafW focused (KTextInput d'), fired))
  /\ handleKeyEvent (LeafW WidgetBase_default (KTextInput d)) release_f1
     = Ok (false, LeafW WidgetBase_default (KTextInput d), []).
Proof.
  intros d focused release_f1.
  assert (Hc : cursor_in_range d) by (unfold cursor_in_range; simpl; lia).
  split; [exact Hc|]. split.
  - exact (proj1 (C9_focused_textinput_consumes_every_key
                    focused d release_f1 Hc) eq_refl).
  - exact (proj2 (C9_focused_textinput_consumes_every_key
                    WidgetBase_default d release_f1 Hc) eq_refl).
Defined.

Lemma changes_length (h : handler) (s : string) (cs : list ascii) :
  List.length (changes h s cs) = List.length cs.
Proof.
  revert s. induction cs as [|c cs IH]; intro s; simpl;
    [reflexivity | now rewrite IH].
Qed.

Lemma special_key_false (code : Z) :
  special_key code = false ->
  (code =? 14)%Z = false /\ (code =? 111)%Z = false /\ (code =? 105)%Z = false
  /\ (code =? 106)%Z = false /\ (code =? 28)%Z = false.
Proof.
  unfold special_key. intro H.
  repeat (apply orb_false_iff in H; destruct H as [H ?]). auto.
Qed.

Lemma TextInput_type_at_end (b : WidgetBase) (d : TextInput.data)
    (event : KeyEvent) (c : ascii) :
  focused_ b = true ->
  TextInput.cursorPos_ d = String.length (TextInput.text_ d) ->
  types event c ->
  TextInput_handleKeyEvent b d event
  = Ok (true,
        set_text d (TextInput.text_ d ++ String c EmptyString)
                 (String.length (TextInput.text_ d) + 1),
        call (TextInput.onChangeHandler_ d)
             (fun h => OnChange h (TextInput.text_ d ++ String c EmptyString)%string)).
Proof.
  intros Hf Hc (Hp & Hk & Ht).
  destruct (special_key_false _ Hk) as (K1 & K2 & K3 & K4 & K5).
  unfold TextInput_handleKeyEvent.
  rewrite Hf, Hp, K1, K2, K3, K4, K5, Ht. cbn [negb is_empty].
  rewrite str_insert_ok by lia. cbn [bind].
  rewrite Hc.
  replace (str_take (String.length (TextInput.text_ d)) (TextInput.text_ d))
    with (TextInput.text_ d)
    by (rewrite <- (str_app_nil_r (TextInput.text_ d)) at 3;
        now rewrite str_take_all).
  replace (str_drop (String.length (TextInput.text_ d)) (TextInput.text_ d))
    with EmptyString
    by (rewrite <- (str_app_nil_r (TextInput.text_ d)) at 2;
        now rewrite str_drop_all).
  reflexivity.
Qed.

Lemma send_keys_typed (b : WidgetBase) (h : handler) :
  focused_ b = true ->
  forall (events : list KeyEvent) (cs : list ascii),
    Forall2 types events cs ->
    forall d : TextInput.data,
      TextInput.cursorPos_ d = String.length (TextInput.text_ d) ->
      TextInput.onChangeHandler_ d = Some h ->
      exists d1,
        send_keys b d events = Ok (d1, changes h (TextInput.text_ d) cs)
        /\ TextInput.text_ d1
           = (TextInput.text_ d ++ string_of_list_ascii cs)%string
        /\ TextInput.cursorPos_ d1 = String.length (TextInput.text_ d1)
        /\ TextInput.onChangeHandler_ d1 = Some h.
Proof.
  intros Hf events cs HF.
  induction HF as [|event c events cs Hty HF IH]; intros d Hc Hh.
  - exists d. cbn [send_keys changes string_of_list_ascii].
    rewrite str_app_nil_r. auto.
  - cbn [send_keys].
    rewrite (TextInput_type_at_end b d event c Hf Hc Hty). cbn [bind].
    set (d' := set_text d (TextInput.text_ d ++ String c EmptyString)
                 (String.length (TextInput.text_ d) + 1)).
    destruct (IH d') as (d1 & E & Et & Ec & Eh).
    + subst d'. cbn [set_text TextInput.cursorPos_ TextInput.text_].
      rewrite str_length_app. reflexivity.
    + exact Hh.
    + exists d1. rewrite E. cbn [bind]. rewrite Hh. cbn [call app changes].
      split; [reflexivity|]. split; [|auto].
      rewrite Et. subst d'. cbn [set_text TextInput.text_ string_of_list_ascii].
      rewrite str_app_assoc. reflexivity.
Qed.

Lemma str_backspace_at_end (r : list ascii) (x : ascii) :
  (str_take (List.length (r ++ [x]) - 1) (string_of_list_ascii (r ++ [x]))
   ++ str_drop (List.length (r ++ [x]) - 1 + 1)
        (string_of_list_ascii (r ++ [x])))%string
  = string_of_list_ascii r.
Proof.
  rewrite length_app, string_of_list_ascii_app. cbn [List.length].
  replace (List.length r + 1 - 1)%nat
    with (String.length (string_of_list_ascii r))
    by (rewrite string_of_list_ascii_length; lia).
  rewrite str_take_all.
  replace (String.length (string_of_list_ascii r) + 1)%nat
    with (String.length (string_of_list_ascii r ++ string_of_list_ascii [x]))
    by (rewrite str_length_app; reflexivity).
  set (s := (string_of_list_ascii r ++ string_of_list_ascii [x])%string).
  rewrite <- (str_app_nil_r s) at 2. rewrite str_drop_all.
  apply str_app_nil_r.
Qed.

Lemma TextInput_backspace_at_end (b : WidgetBase) (d : TextInput.data)
    (event : KeyEvent) (cs : list ascii) :
  focused_ b = true ->
  TextInput.text_ d = string_of_list_ascii cs ->
  TextInput.cursorPos_ d = List.length cs ->
  kpressed event = true -> keycode event = 14%Z ->
  exists d2,
    TextInput_handleKeyEvent b d event
    = Ok (true, d2,
          match cs with
          | [] => []
          | _ :: _ => call (TextInput.onChangeHandler_ d)
                           (fun h => OnChange h (TextInput.text_ d2))
          end)
    /\ TextInput.text_ d2 = string_of_list_ascii (removelast cs)
    /\ TextInput.cursorPos_ d2 = (List.length cs - 1)%nat.
Proof.
  intros Hf Ht Hc Hp Hk.
  unfold TextInput_handleKeyEvent. rewrite Hf, Hp, Hk, Hc, Ht.
  cbn [negb Z.eqb Pos.eqb].
  destruct cs as [|c cs']; [exists d; simpl; rewrite Ht, Hc; auto|].
  destruct (Nat.ltb_spec 0 (List.length (c :: cs'))); [|simpl in *; lia].
  rewrite str_erase_ok by (rewrite string_of_list_ascii_length; lia).
  cbn [bind]. eexists (set_text d _ _). split; [reflexivity|].
  cbn [set_text TextInput.text_ TextInput.cursorPos_]. split; [|reflexivity].
  assert (Hne : c :: cs' <> []) by discriminate.
  destruct (exists_last Hne) as (r & x & E). rewrite E.
  rewrite removelast_last. apply str_backspace_at_end.
Qed.

Lemma TextInput_onChange_once_per_edit (b : WidgetBase) (d : TextInput.data)
    (h : handler) (event : KeyEvent) :
  focused_ b = true -> cursor_in_range d ->
  TextInput.onChangeHandler_ d = Some h ->
  exists d' fired,
    TextInput_handleKeyEvent b d event = Ok (true, d', fired)
    /\ ((TextInput.text_ d' <> TextInput.text_ d
         /\ fired = [OnChange h (TextInput.text_ d')])
        \/ (TextInput.text_ d' = TextInput.text_ d
            /\ filter is_OnChange fired = [])).
Proof.
  intros Hf Hc Hh.
  destruct (TextInput_handleKeyEvent_focused b d event Hf Hc)
    as (d' & fired & E & _ & Heff).
  exists d', fired. split; [exact E|].
  destruct Heff as [ | cursor | | text' cursor Hne].
  - right. auto.
  - right. auto.
  - right. split; [reflexivity|].
    destruct (TextInput.onSubmitHandler_ d); reflexivity.
  - left. rewrite Hh. cbn [set_text TextInput.text_ call]. auto.
Qed.

Lemma TextInput_arrow_keys (b : WidgetBase) (d : TextInput.data)
    (event : KeyEvent) :
  focused_ b = true ->
  kpressed event = true -> keycode event = 105%Z \/ keycode event = 106%Z ->
  exists cursor,
    TextInput_handleKeyEvent b d event
    = Ok (true, set_text d (TextInput.text_ d) cursor, []).
Proof.
  intros Hf Hp Hk. unfold TextInput_handleKeyEvent. rewrite Hf, Hp.
  cbn [negb].
  destruct d as [t p ts c oc os]. cbn [TextInput.text_ TextInput.cursorPos_].
  destruct Hk as [Hk|Hk]; rewrite Hk; cbn [Z.eqb Pos.eqb].
  - destruct (0 <? c)%nat; eexists; reflexivity.
  - destruct (c <? String.length t)%nat; eexists; reflexivity.
Qed.

(** C5: TextInput editing round trip.  Typing [c1 ... ck], one character per
    key press, into an empty focused input with the cursor at 0 leaves the
    buffer "c1...ck" and the cursor at [k], and calls [onChange] once per
    character (with the buffer as it then stands).  A following Backspace
    press leaves the buffer without its last character (length [k-1]) and
    the cursor at [k-1], with one [onChange] call when something was
    deleted.  In any state, a key event calls [onChange] exactly once when it
    changes the buffer and never otherwise; arrow keys move the cursor only
    and call nothing. *)
Theorem C5_textinput_editing_round_trip :
  forall (b : WidgetBase) (d : TextInput.data) (h : handler)
         (cs : list ascii) (events : list KeyEvent),
    focused_ b = true ->
    TextInput.text_ d = EmptyString ->
    TextInput.cursorPos_ d = 0%nat ->
    TextInput.onChangeHandler_ d = Some h ->
    Forall2 types events cs ->
    exists d1,
      send_keys b d events = Ok (d1, changes h EmptyString cs)
      /\ List.length (changes h EmptyString cs) = List.length cs
      /\ TextInput.text_ d1 = string_of_list_ascii cs
      /\ TextInput.cursorPos_ d1 = List.length cs
      /\ (forall backspace : KeyEvent,
             kpressed backspace = true -> keycode backspace = 14%Z ->
             exists d2,
               TextInput_handleKeyEvent b d1 backspace
               = Ok (true, d2,
                     match cs with
                     | [] => []
                     | _ :: _ => [OnChange h (TextInput.text_ d2)]
                     end)
               /\ TextInput.text_ d2 = string_of_list_ascii (removelast cs)
               /\ String.length (TextInput.text_ d2) = (List.length cs - 1)%nat
               /\ TextInput.cursorPos_ d2 = (List.length cs - 1)%nat)
      /\ (forall (d' : TextInput.data) (event : KeyEvent),
             cursor_in_range d' -> TextInput.onChangeHandler_ d' = Some h ->
             exists d'' fired,
               TextInput_handleKeyEvent b d' event = Ok (true, d'', fired)
               /\ ((TextInput.text_ d'' <> TextInput.text_ d'
                    /\ fired = [OnChange h (TextInput.text_ d'')])
                   \/ (TextInput.text_ d'' = TextInput.text_ d'
                       /\ filter is_OnChange fired = [])))
      /\ (forall (d' : TextInput.data) (arrow : KeyEvent),
             kpressed arrow = true ->
             keycode arrow = 105%Z \/ keycode arrow = 106%Z ->
             exists cursor,
               TextInput_handleKeyEvent b d' arrow
               = Ok (true, set_text d' (TextInput.text_ d') cursor, [])).
Proof.
  intros b d h cs events Hf Ht Hc Hh HF.
  destruct (send_keys_typed b h Hf events cs HF d) as (d1 & E & Et & Ec & Eh).
  { rewrite Hc, Ht. reflexivity. }
  { exact Hh. }
  rewrite Ht in E, Et. cbn [append] in Et.
  assert (Ec' : TextInput.cursorPos_ d1 = List.length cs).
  { rewrite Ec, Et. apply string_of_list_ascii_length. }
  exists d1. split; [exact E|]. split; [apply changes_length|].
  split; [exact Et|]. split; [exact Ec'|]. split; [|split].
  - intros bs Hp Hk.
    destruct (TextInput_backspace_at_end b d1 bs cs Hf Et Ec' Hp Hk)
      as (d2 & E2 & Et2 & Ec2).
    exists d2. rewrite E2, Eh. split; [destruct cs; reflexivity|].
    split; [exact Et2|]. split; [|exact Ec2].
    rewrite Et2, string_of_list_ascii_length.
    destruct cs as [|c cs']; [reflexivity|].
    assert (Hne : c :: cs' <> []) by discriminate.
    destruct (exists_last Hne) as (r & x & Er). rewrite Er, removelast_last.
    rewrite length_app. simpl. lia.
  - intros d' event Hr Hh'.
    exact (TextInput_onChange_once_per_edit b d' h event Hf Hr Hh').
  - intros d' arrow Hp Hk. exact (TextInput_arrow_keys b d' arrow Hf Hp Hk).
Qed.

(** Typing "hi" (keys 35 and 23) into a fresh focused input whose
    [onChange] handler is 7, then pressing Backspace. *)
Lemma C5_witness :
  let b := set_focused WidgetBase_default true in
  let d := TextInput_onChange (TextInput_new "") 7%nat in
  let events := [key_press 35 "h"; key_press 23 "i"] in
  exists d1 d2,
    send_keys b d events = Ok (d1, [OnChange 7%nat "h"; OnChange 7%nat "hi"])
    /\ TextInput.text_ d1 = "hi"%string
    /\ TextInput.cursorPos_ d1 = 2%nat
    /\ TextInput_handleKeyEvent b d1 (key_press 14 "")
       = Ok (true, d2, [OnChange 7%nat "h"])
    /\ TextInput.cursorPos_ d2 = 1%nat.
Proof.
  intros b d events.
  assert (HF : Forall2 types events ["h"; "i"]%char).
  { repeat constructor. }
  destruct (C5_textinput_editing_round_trip b d 7%nat ["h"; "i"]%char events
              eq_refl eq_refl eq_refl eq_refl HF)
    as (d1 & E & _ & Et & Ec & Hbs & _).
  destruct (Hbs (key_press 14 "") eq_refl eq_refl) as (d2 & E2 & Et2 & _ & Ec2).
  exists d1, d2. rewrite E2, Et2. simpl in *. auto.
Defined.

(** ** Slider *)

Lemma Slider_updateValue_value (b : WidgetBase) (d : Slider.data) (mouseX : Q) :
  Slider.value_ (fst (Slider_updateValue b d mouseX))
  = clamp (Slider.min_ d
           + (mouseX - rx (bounds_ b)) / rwidth (bounds_ b)
             * (Slider.max_ d - Slider.min_ d))
          (Slider.min_ d) (Slider.max_ d).
Proof. reflexivity. Qed.

Lemma normalized_monotone (w x y : Q) : 0 < w -> x <= y -> x / w <= y / w.
Proof.
  intros Hw Hxy. unfold Qdiv. apply Qmult_le_compat_r; [exact Hxy|].
  apply Qlt_le_weak. apply Qinv_lt_0_compat. exact Hw.
Qed.
















(** ** Container hit-testing *)

Section OfferInOrder.
Variable W : Type.
Variable handle : W -> bool * W * list Fired.

(** The first child that consumes ends the loop: the children before it have
    been offered the event (and declined), the children after it are not
    touched. *)
Lemma offer_in_order_first_consumer (pre : list W) (c : W) (post : list W) :
  Forall (declines handle) pre -> consumes handle c ->
  offer_in_order handle (pre ++ c :: post)
  = (true, map (after handle) pre ++ after handle c :: post,
     flat_map (fired_by handle) pre ++ fired_by handle c).
Proof.
  unfold consumes, declines, after, fired_by.
  intros Hpre Hc. induction Hpre as [|p pre Hp Hpre IH]; cbn [app offer_in_order].
  - destruct (handle c) as [[r c'] f]. simpl in *. subst r. reflexivity.
  - rewrite IH. cbn [map flat_map app].
    destruct (handle p) as [[r p'] f]. simpl in *. subst r.
    rewrite app_assoc. reflexivity.
Qed.

Lemma offer_in_order_nobody (cs : list W) :
  Forall (declines handle) cs ->
  offer_in_order handle cs
  = (false, map (after handle) cs, flat_map (fired_by handle) cs).
Proof.
  unfold declines, after, fired_by.
  intros H. induction H as [|p cs Hp H IH]; cbn [offer_in_order map flat_map].
  - reflexivity.
  - rewrite IH. destruct (handle p) as [[r p'] f]. simpl in *. subst r.
    reflexivity.
Qed.
End OfferInOrder.

Lemma Widget_handleMouseButton_declines (b : WidgetBase) (event : MouseEvent) :
  fst (Widget_handleMouseButton b event) = false ->
  Widget_handleMouseButton b event = (false, []).
Proof.
  unfold Widget_handleMouseButton.
  destruct (negb (enabled_ b)); [reflexivity|].
  destruct (pressed event && MouseButton_eqb (button event) Left);
    [|reflexivity].
  destruct (contains (bounds_ b) (position event)); [discriminate | reflexivity].
Qed.

Lemma Widget_handleMouseButton_hit (b : WidgetBase) (event : MouseEvent) :
  enabled_ b = true -> pressed event = true -> button event = Left ->
  contains (bounds_ b) (position event) = true ->
  Widget_handleMouseButton b event = (true, call (onClickHandler_ b) OnClick).
Proof.
  intros He Hp Hb Hc. unfold Widget_handleMouseButton.
  rewrite He, Hp, Hb, Hc. reflexivity.
Qed.

(** An enabled widget of any class consumes a left press inside its bounds. *)
Lemma enabled_widget_consumes_press (w : Widget) (event : MouseEvent) :
  isEnabled w = true -> pressed event = true -> button event = Left ->
  contains (bounds w) (position event) = true ->
  consumes (fun child => handleMouseButton child event) w.
Proof.
  unfold consumes, isEnabled, bounds. intros He Hp Hb Hc.
  destruct w as [b k | b k cs]; cbn [base] in *.
  - cbn [handleMouseButton]. unfold Leaf_handleMouseButton.
    destruct k;
      try (rewrite (Widget_handleMouseButton_hit b event He Hp Hb Hc);
           reflexivity).
    + unfold Button_handleMouseButton.
      rewrite (Widget_handleMouseButton_hit b event He Hp Hb Hc). reflexivity.
    + unfold TextInput_handleMouseButton.
      rewrite (Widget_handleMouseButton_hit b event He Hp Hb Hc), Hp.
      cbn [andb]. destruct (Widget_setFocus b true). reflexivity.
    + unfold Slider_handleMouseButton. rewrite Hb, Hp, Hc. reflexivity.
    + unfold Checkbox_handleMouseButton. rewrite Hb, Hp, Hc. reflexivity.
  - cbn [handleMouseButton].
    rewrite (Widget_handleMouseButton_hit b event He Hp Hb Hc). reflexivity.
Qed.

(** C1 (as the code has it): [Container::handleMouseButton] first applies
    [Widget::handleMouseButton] to the container itself; when that consumes
    the event no child sees it.  Otherwise the children are offered the event
    in insertion order up to the first one that returns [true]; the children
    after it are not touched.  So, for children [A] (added first) and [B] and a
    left press at a point inside [A]: when the container itself does not
    consume the press and [A] is enabled, [A] consumes it and [B] never sees
    it, wherever [B] lies. *)
Theorem C1_container_offers_press_self_first_then_in_order :
  forall (b : WidgetBase) (k : Layout) (cs : list Widget) (event : MouseEvent),
    let offer := fun child => handleMouseButton child event in
    (fst (Widget_handleMouseButton b event) = true ->
     handleMouseButton (ContW b k cs) event
     = (true, ContW b k cs, snd (Widget_handleMouseButton b event)))
    /\ (fst (Widget_handleMouseButton b event) = false ->
        (forall pre c post,
            cs = pre ++ c :: post ->
            Forall (declines offer) pre -> consumes offer c ->
            handleMouseButton (ContW b k cs) event
            = (true, ContW b k (map (after offer) pre ++ after offer c :: post),
               flat_map (fired_by offer) pre ++ fired_by offer c))
        /\ (Forall (declines offer) cs ->
            handleMouseButton (ContW b k cs) event
            = (false, ContW b k (map (after offer) cs),
               flat_map (fired_by offer) cs))
        /\ (forall A B,
               cs = [A; B] ->
               pressed event = true -> button event = Left ->
               isEnabled A = true ->
               contains (bounds A) (position event) = true ->
               handleMouseButton (ContW b k cs) event
               = (true, ContW b k [after offer A; B], fired_by offer A))).
Proof.
  intros b k cs event offer. split; [|intro Hself; split; [|split]].
  - intro Hself. cbn [handleMouseButton].
    destruct (Widget_handleMouseButton b event) as [r f]. simpl in *.
    subst r. reflexivity.
  - intros pre c post E Hpre Hc. subst cs. cbn [handleMouseButton].
    rewrite (Widget_handleMouseButton_declines b event Hself).
    fold offer. rewrite (offer_in_order_first_consumer _ offer pre c post Hpre Hc).
    reflexivity.
  - intro Hall. cbn [handleMouseButton].
    rewrite (Widget_handleMouseButton_declines b event Hself).
    fold offer. rewrite (offer_in_order_nobody _ offer cs Hall). reflexivity.
  - intros A B E Hp Hb He Hc. subst cs. cbn [handleMouseButton].
    rewrite (Widget_handleMouseButton_declines b event Hself).
    fold offer.
    change [A; B] with ([] ++ A :: [B]) at 1.
    rewrite (offer_in_order_first_consumer _ offer [] A [B] (Forall_nil _)
               (enabled_widget_consumes_press A event He Hp Hb Hc)).
    reflexivity.
Qed.

(** A container that was never laid out (bounds 0,0,0,0) holding two enabled
    widgets A (handler 1) and B (handler 2), both at (0,0,10,10): a left
    press at (5,5) calls A's handler only. *)
Lemma C1_witness :
  let A := clickable true 1%nat (mkRect 0 0 10 10) in
  let B := clickable true 2%nat (mkRect 0 0 10 10) in
  fst (Widget_handleMouseButton WidgetBase_default (press_at 5 5)) = false
  /\ contains (bounds B) (mkPoint 5 5) = true
  /\ handleMouseButton (ContW WidgetBase_default KContainer [A; B]) (press_at 5 5)
     = (true, ContW WidgetBase_default KContainer [A; B], [OnClick 1%nat]).
Proof.
  intros A B. split; [reflexivity|]. split; [reflexivity|].
  exact (proj2 (proj2 (proj2
           (C1_container_offers_press_self_first_then_in_order
              WidgetBase_default KContainer [A; B] (press_at 5 5))
           eq_refl))
         A B eq_refl eq_refl eq_refl eq_refl eq_refl).
Defined.

(** C1, as stated, fails in two ways.  (1) With A disabled, a left press at
    a point inside both A and B is consumed by B: B's handler (2) runs, not
    A's (1).  (2) With an enabled container whose own bounds hold the point,
    the container consumes the press: neither A's nor B's handler runs. *)
Lemma C1_counterexample :
  let A := clickable false 1%nat (mkRect 0 0 10 10) in
  let A' := clickable true 1%nat (mkRect 0 0 10 10) in
  let B := clickable true 2%nat (mkRect 0 0 10 10) in
  let event := press_at 5 5 in
  let root := laid_out WidgetBase_default (mkRect 0 0 100 100) in
  (contains (bounds A) (position event) = true
   /\ contains (bounds B) (position event) = true
   /\ handleMouseButton A event = (false, A, [])
   /\ handleMouseButton (ContW WidgetBase_default KContainer [A; B]) event
      = (true, ContW WidgetBase_default KContainer [A; B], [OnClick 2%nat]))
  /\ (contains (bounds A') (position event) = true
      /\ handleMouseButton A' event = (true, A', [OnClick 1%nat])
      /\ handleMouseButton (ContW root KContainer [A'; B]) event
         = (true, ContW root KContainer [A'; B], [])).
Proof. repeat split. Qed.

(** ** [measure]: the recursion bound is not observable *)

Lemma Forall2_map_right {A B : Type} (R : A -> B -> Prop) (g : A -> B)
    (l : list A) :
  (forall x, In x l -> R x (g x)) -> Forall2 R l (map g l).
Proof.
  induction l as [|x l IH]; intro H; cbn [map]; constructor.
  - apply H. left. reflexivity.
  - apply IH. intros y Hy. apply H. right. exact Hy.
Qed.

Lemma Forall2_same {A : Type} (R : A -> A -> Prop) (l : list A) :
  (forall x, R x x) -> Forall2 R l l.
Proof. intro H. induction l; constructor; auto. Qed.

Lemma Forall2_map_eq {A B C : Type} (p : A -> C) (q : B -> C)
    (l : list A) (l' : list B) :
  Forall2 (fun x y => p x = q y) l l' -> map p l = map q l'.
Proof. induction 1; cbn [map]; congruence. Qed.

Section MeasureContentFacts.
Variable W : Type.

Lemma Layout_measureContent_ext (f g : W -> Size -> Size * W) (k : Layout)
    (cs : list W) (a : Size) :
  (forall c, In c cs -> forall a', f c a' = g c a') ->
  Layout_measureContent f k cs a = Layout_measureContent g k cs a.
Proof.
  intro H.
  assert (Hmap : forall a', map (fun c => f c a') cs = map (fun c => g c a') cs).
  { intro a'. apply map_ext_in. intros c Hc. apply H. exact Hc. }
  destruct k as [ | d | d | d | d | d ]; cbn [Layout_measureContent];
    try reflexivity.
  - unfold Box_measureContent. destruct cs as [|c0 cs']; [reflexivity|].
    destruct (Box.direction_ d); rewrite Hmap; reflexivity.
  - unfold Stack_measureContent. rewrite Hmap. reflexivity.
  - unfold ScrollView_measureContent. destruct cs as [|c0 cs']; [reflexivity|].
    destruct (ScrollView.scrollDir_ d); rewrite (H c0 (or_introl eq_refl));
      reflexivity.
Qed.

(** The children a layout hands back are the ones it was given, each either
    untouched or as [measure] left it. *)
Lemma Layout_measureContent_children (R : W -> W -> Prop)
    (f : W -> Size -> Size * W) (k : Layout) (cs : list W) (a : Size) :
  (forall c, R c c) ->
  (forall c, In c cs -> forall a', R c (snd (f c a'))) ->
  Forall2 R cs (snd (Layout_measureContent f k cs a)).
Proof.
  intros Hrefl H.
  assert (Hmap : forall a',
             Forall2 R cs (map snd (map (fun c => f c a') cs))).
  { intro a'. rewrite map_map. apply Forall2_map_right.
    intros c Hc. apply H. exact Hc. }
  destruct k as [ | d | d | d | d | d ]; cbn [Layout_measureContent snd];
    try (apply Forall2_same; exact Hrefl).
  - unfold Box_measureContent. destruct cs as [|c0 cs'];
      [constructor|]. destruct (Box.direction_ d); cbn [snd]; apply Hmap.
  - unfold Stack_measureContent. cbn [snd]. apply Hmap.
  - unfold Grid_measureContent. destruct cs as [|c0 cs']; [constructor|].
    destruct (Grid.columns_ d <=? 0)%Z; cbn [snd];
      apply Forall2_same; exact Hrefl.
  - unfold ScrollView_measureContent. destruct cs as [|c0 cs'];
      [constructor|].
    destruct (ScrollView.scrollDir_ d).
    + pose proof (H c0 (or_introl eq_refl) (mkSize 1000000000 (height a))) as Hc.
      destruct (f c0 (mkSize 1000000000 (height a))) as [s c0'].
      cbn [snd] in *. constructor; [exact Hc | apply Forall2_same; exact Hrefl].
    + pose proof (H c0 (or_introl eq_refl) (mkSize (width a) 1000000000)) as Hc.
      destruct (f c0 (mkSize (width a) 1000000000)) as [s c0'].
      cbn [snd] in *. constructor; [exact Hc | apply Forall2_same; exact Hrefl].
Qed.

(** The size a layout reports depends on its children only through the sizes
    they report. *)
Lemma Layout_measureContent_size (f g : W -> Size -> Size * W) (k : Layout)
    (cs cs' : list W) (a : Size) :
  Forall2 (fun c c' => forall a', fst (f c a') = fst (g c' a')) cs cs' ->
  fst (Layout_measureContent f k cs a) = fst (Layout_measureContent g k cs' a).
Proof.
  intro H.
  assert (Hlen : List.length cs = List.length cs')
    by (eapply Forall2_length; exact H).
  assert (Hmap : forall a',
             map fst (map (fun c => f c a') cs)
             = map fst (map (fun c => g c a') cs')).
  { intro a'. rewrite !map_map. apply Forall2_map_eq.
    induction H; constructor; auto. }
  destruct k as [ | d | d | d | d | d ]; cbn [Layout_measureContent fst];
    try reflexivity.
  - unfold Box_measureContent.
    destruct H as [|c0 c0' cs cs' H0 H]; [reflexivity|].
    destruct (Box.direction_ d); cbn [fst]; rewrite Hmap, Hlen; reflexivity.
  - unfold Stack_measureContent. cbn [fst]. rewrite Hmap. reflexivity.
  - unfold Grid_measureContent.
    destruct H as [|c0 c0' cs cs' H0 H]; [reflexivity|].
    destruct (Grid.columns_ d <=? 0)%Z; cbn [fst]; [reflexivity|].
    rewrite Hlen. reflexivity.
  - unfold ScrollView_measureContent.
    destruct H as [|c0 c0' cs cs' H0 H]; [reflexivity|].
    destruct (ScrollView.scrollDir_ d).
    + pose proof (H0 (mkSize 1000000000 (height a))) as E.
      destruct (f c0 (mkSize 1000000000 (height a))),
               (g c0' (mkSize 1000000000 (height a))).
      cbn [fst] in *. rewrite E. reflexivity.
    + pose proof (H0 (mkSize (width a) 1000000000)) as E.
      destruct (f c0 (mkSize (width a) 1000000000)),
               (g c0' (mkSize (width a) 1000000000)).
      cbn [fst] in *. rewrite E. reflexivity.
Qed.
End MeasureContentFacts.

Arguments Layout_measureContent_ext {W}.
Arguments Layout_measureContent_children {W}.
Arguments Layout_measureContent_size {W}.

Lemma Widget_measure_invisible (f : Widget -> Size -> Size * Widget)
    (w : Widget) (a : Size) :
  isVisible w = false -> Widget_measure f w a = (mkSize 0 0, w).
Proof.
  unfold isVisible. destruct w as [b k | b k cs]; cbn [base Widget_measure];
    intros ->; reflexivity.
Qed.

Lemma Widget_measure_leaf (f : Widget -> Size -> Size * Widget)
    (b : WidgetBase) (k : Leaf) (a : Size) :
  visible_ b = true ->
  let av := sub_margin b a in
  let content := Leaf_measureContent b k av in
  let result :=
    mkSize (axis_extent (widthSpec_ b) (width av) (width content)
                        (horizontal (padding (style_ b))))
           (axis_extent (heightSpec_ b) (height av) (height content)
                        (vertical (padding (style_ b)))) in
  Widget_measure f (LeafW b k) a = (result, LeafW (set_measuredSize b result) k).
Proof. intro Hv. cbn [Widget_measure]. rewrite Hv. reflexivity. Qed.

Lemma Widget_measure_cont (f : Widget -> Size -> Size * Widget)
    (b : WidgetBase) (k : Layout) (cs : list Widget) (a : Size) :
  visible_ b = true ->
  let av := sub_margin b a in
  let cs1 := axis_children f (widthSpec_ b) k cs av in
  let cs2 := axis_children f (heightSpec_ b) k cs1 av in
  let result :=
    mkSize (axis_extent (widthSpec_ b) (width av)
                        (width (fst (Layout_measureContent f k cs av)))
                        (horizontal (padding (style_ b))))
           (axis_extent (heightSpec_ b) (height av)
                        (height (fst (Layout_measureContent f k cs1 av)))
                        (vertical (padding (style_ b)))) in
  Widget_measure f (ContW b k cs) a
  = (result, ContW (set_measuredSize b result) k cs2).
Proof.
  intro Hv. cbn [Widget_measure]. rewrite Hv. cbn [negb].
  unfold axis_children, axis_extent.
  destruct (constraint (widthSpec_ b)), (constraint (heightSpec_ b));
    repeat match goal with
           | |- context [Layout_measureContent ?f ?k ?l ?a] =>
               destruct (Layout_measureContent f k l a); cbn [fst snd]
           end; reflexivity.
Qed.

Lemma same_but_measured_refl (w : Widget) : same_but_measured w w.
Proof. reflexivity. Qed.

Lemma same_but_measured_sym (w w' : Widget) :
  same_but_measured w w' -> same_but_measured w' w.
Proof. unfold same_but_measured. congruence. Qed.

Lemma same_but_measured_trans (w w' w'' : Widget) :
  same_but_measured w w' -> same_but_measured w' w'' -> same_but_measured w w''.
Proof. unfold same_but_measured. congruence. Qed.

Lemma Forall2_same_but_measured (cs cs' : list Widget) :
  Forall2 same_but_measured cs cs'
  <-> map forget_measured cs = map forget_measured cs'.
Proof.
  split.
  - induction 1 as [|c c' cs cs' H _ IH]; cbn [map]; [reflexivity|].
    rewrite H, IH. reflexivity.
  - revert cs'. induction cs as [|c cs IH]; intros [|c' cs'] H;
      cbn [map] in H; try discriminate; constructor.
    + injection H. auto.
    + apply IH. injection H. auto.
Qed.

Lemma Forall2_trans {A : Type} (R : A -> A -> Prop) :
  (forall x y z, R x y -> R y z -> R x z) ->
  forall l l' l'', Forall2 R l l' -> Forall2 R l' l'' -> Forall2 R l l''.
Proof.
  intros Ht l l' l'' H. revert l''.
  induction H; intros l'' H'; inversion H'; subst; constructor; eauto.
Qed.

Lemma Forall2_In_right {A B : Type} (R : A -> B -> Prop) (l : list A)
    (l' : list B) (y : B) :
  Forall2 R l l' -> In y l' -> exists x, In x l /\ R x y.
Proof.
  induction 1 as [|x y' l l' H _ IH]; intros Hy; [destruct Hy|].
  destruct Hy as [->|Hy].
  - exists x. split; [left; reflexivity | exact H].
  - destruct (IH Hy) as (x' & Hin & HR). exists x'. split; [right|]; assumption.
Qed.

Lemma depth_forget_measured (w : Widget) : depth (forget_measured w) = depth w.
Proof.
  induction w as [b k | b k cs IH] using Widget_tree_ind; [reflexivity|].
  cbn [forget_measured depth]. f_equal.
  induction IH as [|c cs Hc _ IHcs]; cbn [map fold_right]; [reflexivity|].
  rewrite Hc, IHcs. reflexivity.
Qed.

Lemma same_but_measured_depth (w w' : Widget) :
  same_but_measured w w' -> depth w = depth w'.
Proof.
  intro H. rewrite <- (depth_forget_measured w), <- (depth_forget_measured w').
  now rewrite H.
Qed.

Lemma depth_child (b : WidgetBase) (k : Layout) (cs : list Widget) (c : Widget) :
  In c cs -> (depth c < depth (ContW b k cs))%nat.
Proof.
  cbn [depth]. induction cs as [|c' cs IH]; intro H; [destruct H|].
  destruct H as [->|H]; cbn [fold_right].
  - lia.
  - specialize (IH H). lia.
Qed.

Section MeasureBody.
Variable f : Widget -> Size -> Size * Widget.
Hypothesis f_same : forall c a, same_but_measured c (snd (f c a)).

Lemma axis_children_same (spec : SizeSpec) (k : Layout) (cs : list Widget)
    (a : Size) :
  Forall2 same_but_measured cs (axis_children f spec k cs a).
Proof.
  unfold axis_children. destruct (constraint spec);
    try (apply Forall2_same; exact same_but_measured_refl).
  apply Layout_measureContent_children;
    [exact same_but_measured_refl | intros; apply f_same].
Qed.

Lemma Widget_measure_same (w : Widget) (a : Size) :
  same_but_measured w (snd (Widget_measure f w a)).
Proof.
  destruct (isVisible w) eqn:Hv.
  2:{ rewrite Widget_measure_invisible by exact Hv. reflexivity. }
  destruct w as [b k | b k cs]; unfold isVisible in Hv; cbn [base] in Hv.
  - rewrite Widget_measure_leaf by exact Hv. reflexivity.
  - rewrite Widget_measure_cont by exact Hv. cbn [snd].
    unfold same_but_measured. cbn [forget_measured]. f_equal.
    apply Forall2_same_but_measured.
    eapply Forall2_trans; [exact same_but_measured_trans | |];
      apply axis_children_same.
Qed.

Hypothesis f_size :
  forall c c' a, same_but_measured c c' -> fst (f c a) = fst (f c' a).

Lemma Layout_measureContent_same (k : Layout) (cs cs' : list Widget) (a : Size) :
  Forall2 same_but_measured cs cs' ->
  fst (Layout_measureContent f k cs a) = fst (Layout_measureContent f k cs' a).
Proof.
  intro H. apply Layout_measureContent_size.
  induction H; constructor; auto.
Qed.

Lemma set_measuredSize_same (b b' : WidgetBase) (s : Size) :
  set_measuredSize b s = set_measuredSize b' s ->
  exists m, b' = set_measuredSize b m.
Proof.
  destruct b, b'. cbn. intro H. injection H. intros. subst.
  eexists. reflexivity.
Qed.

Lemma Widget_measure_size (w w' : Widget) (a : Size) :
  same_but_measured w w' ->
  fst (Widget_measure f w a) = fst (Widget_measure f w' a).
Proof.
  unfold same_but_measured.
  destruct w as [b k | b k cs], w' as [b' k' | b' k' cs'];
    cbn [forget_measured]; intro H; try discriminate.
  - pose proof (f_equal base H) as Hb. cbn [base] in Hb.
    assert (Hk : k = k') by congruence. subst k'.
    apply set_measuredSize_same in Hb. destruct Hb as [m ->].
    destruct (visible_ b) eqn:Hv.
    + rewrite !Widget_measure_leaf by exact Hv. destruct k; reflexivity.
    + rewrite !Widget_measure_invisible by exact Hv. reflexivity.
  - pose proof (f_equal base H) as Hb. cbn [base] in Hb.
    pose proof (f_equal children H) as Hcs. cbn [children] in Hcs.
    assert (Hk : k = k') by congruence. subst k'.
    apply set_measuredSize_same in Hb. destruct Hb as [m ->].
    apply Forall2_same_but_measured in Hcs.
    destruct (visible_ b) eqn:Hv.
    2:{ rewrite !Widget_measure_invisible by exact Hv. reflexivity. }
    rewrite !Widget_measure_cont by exact Hv. cbn [fst].
    cbn [set_measuredSize widthSpec_ heightSpec_ style_ sub_margin].
    change (sub_margin (set_measuredSize b m) a) with (sub_margin b a).
    rewrite (Layout_measureContent_same k cs cs' _ Hcs).
    rewrite (Layout_measureContent_same k
               (axis_children f (widthSpec_ b) k cs (sub_margin b a))
               (axis_children f (widthSpec_ b) k cs' (sub_margin b a))).
    + reflexivity.
    + eapply Forall2_trans; [exact same_but_measured_trans | |].
      * eapply Forall2_trans; [exact same_but_measured_trans | | exact Hcs].
        assert (Hs : Forall2 same_but_measured cs
                       (axis_children f (widthSpec_ b) k cs (sub_margin b a)))
          by apply axis_children_same.
        clear -Hs. induction Hs; constructor; auto.
        now apply same_but_measured_sym.
      * apply axis_children_same.
Qed.

Lemma Widget_measure_ext (g : Widget -> Size -> Size * Widget) (w : Widget)
    (a : Size) :
  (forall c c', In c (children w) -> same_but_measured c c' ->
                forall a', f c' a' = g c' a') ->
  Widget_measure f w a = Widget_measure g w a.
Proof.
  intro H. destruct (isVisible w) eqn:Hv.
  2:{ rewrite !Widget_measure_invisible by exact Hv. reflexivity. }
  destruct w as [b k | b k cs]; unfold isVisible in Hv; cbn [base] in Hv.
  - rewrite !Widget_measure_leaf by exact Hv. reflexivity.
  - cbn [children] in H. rewrite !Widget_measure_cont by exact Hv.
    assert (E0 : forall av,
               Layout_measureContent f k cs av = Layout_measureContent g k cs av).
    { intro av. apply Layout_measureContent_ext. intros c Hc a'.
      apply (H c c Hc). reflexivity. }
    assert (E1 : forall spec av,
               axis_children f spec k cs av = axis_children g spec k cs av).
    { intros spec av. unfold axis_children. rewrite E0. reflexivity. }
    assert (E2 : forall spec av av',
               Layout_measureContent f k (axis_children f spec k cs av) av'
               = Layout_measureContent g k (axis_children f spec k cs av) av').
    { intros spec av av'. apply Layout_measureContent_ext. intros c1 Hc1 a'.
      destruct (Forall2_In_right _ _ _ c1 (axis_children_same spec k cs av) Hc1)
        as (c & Hc & Hs).
      apply (H c c1 Hc Hs). }
    rewrite <- !E1, E0, E2.
    assert (E3 : forall spec spec' av av',
               axis_children f spec' k (axis_children f spec k cs av) av'
               = axis_children g spec' k (axis_children f spec k cs av) av').
    { intros. unfold axis_children at 1 3.
      destruct (constraint spec'); try reflexivity. rewrite E2. reflexivity. }
    rewrite E3. reflexivity.
Qed.
End MeasureBody.

Lemma measure_fuel_same (n : nat) :
  forall w a, same_but_measured w (snd (measure_fuel n w a)).
Proof.
  induction n as [|n IH]; intros w a; cbn [measure_fuel].
  - reflexivity.
  - apply Widget_measure_same. exact IH.
Qed.

Lemma measure_fuel_size (n : nat) :
  forall w w' a,
    same_but_measured w w' ->
    fst (measure_fuel n w a) = fst (measure_fuel n w' a).
Proof.
  induction n as [|n IH]; intros w w' a H; cbn [measure_fuel].
  - reflexivity.
  - apply Widget_measure_size; [apply measure_fuel_same | exact IH | exact H].
Qed.

Lemma children_depth (w c : Widget) :
  In c (children w) -> (depth c < depth w)%nat.
Proof.
  destruct w as [b k | b k cs]; cbn [children]; [intros []|].
  apply depth_child.
Qed.

(** Any bound above the depth of the tree gives the same result. *)
Lemma measure_fuel_irrelevant (n : nat) :
  forall m w a,
    (depth w < n)%nat -> (depth w < m)%nat ->
    measure_fuel n w a = measure_fuel m w a.
Proof.
  induction n as [|n IH]; intros m w a Hn Hm; [lia|].
  destruct m as [|m]; [lia|]. cbn [measure_fuel].
  apply Widget_measure_ext; [apply measure_fuel_same|].
  intros c c' Hc Hs a'.
  pose proof (children_depth w c Hc) as Hd.
  pose proof (same_but_measured_depth c c' Hs) as Hd'.
  apply IH; lia.
Qed.

(** [measure] satisfies the equation of [Widget::measure]. *)
Theorem measure_eq (w : Widget) (a : Size) :
  measure w a = Widget_measure measure w a.
Proof.
  unfold measure at 1. cbn [measure_fuel].
  apply Widget_measure_ext; [apply measure_fuel_same|].
  intros c c' Hc Hs a'. unfold measure.
  pose proof (children_depth w c Hc) as Hd.
  pose proof (same_but_measured_depth c c' Hs) as Hd'.
  apply measure_fuel_irrelevant; lia.
Qed.

Lemma measure_same (w : Widget) (a : Size) :
  same_but_measured w (snd (measure w a)).
Proof. apply measure_fuel_same. Qed.

Lemma measure_size (w w' : Widget) (a : Size) :
  same_but_measured w w' -> fst (measure w a) = fst (measure w' a).
Proof.
  intro H. unfold measure. rewrite <- (same_but_measured_depth w w' H).
  apply measure_fuel_size. exact H.
Qed.

Lemma measure_depth (w : Widget) (a : Size) :
  depth (snd (measure w a)) = depth w.
Proof. symmetry. apply same_but_measured_depth. apply measure_same. Qed.

(** C2: [measure] on a visible widget takes the margin off the available
    size and resolves each axis on its own from that axis's [SizeSpec]:
    Fixed gives [spec.value], Fill the margin-adjusted available extent,
    Percent that extent times [value/100], Content the extent
    [measureContent] reports for the margin-adjusted size plus the padding of
    the axis.  The result is returned and stored in [measuredSize_]; the
    margin is not part of it. *)
Theorem C2_measure_resolves_each_axis_from_its_spec :
  forall (w : Widget) (available : Size),
    isVisible w = true ->
    let b := base w in
    let adjusted :=
      mkSize (width available - horizontal (margin (style_ b)))
             (height available - vertical (margin (style_ b))) in
    let content := measureContent w adjusted in
    let result :=
      mkSize (axis_extent (widthSpec_ b) (width adjusted) (width content)
                          (horizontal (padding (style_ b))))
             (axis_extent (heightSpec_ b) (height adjusted) (height content)
                          (vertical (padding (style_ b)))) in
    fst (measure w available) = result
    /\ measuredSize_ (base (snd (measure w available))) = result.
Proof.
  intros w available Hv. cbv zeta.
  rewrite measure_eq. unfold isVisible in Hv.
  destruct w as [b k | b k cs]; cbn [base] in *.
  - rewrite Widget_measure_leaf by exact Hv. split; reflexivity.
  - rewrite Widget_measure_cont by exact Hv. cbn [fst snd base measuredSize_
      set_measuredSize measureContent].
    fold (sub_margin b available).
    rewrite (Layout_measureContent_same measure measure_size k
               (axis_children measure (widthSpec_ b) k cs (sub_margin b available))
               cs).
    + split; reflexivity.
    + assert (Hs : Forall2 same_but_measured cs
                     (axis_children measure (widthSpec_ b) k cs
                        (sub_margin b available)))
        by (apply axis_children_same; exact measure_same).
      clear -Hs. induction Hs; constructor; auto.
      now apply same_but_measured_sym.
Qed.

(** The default button "Click Me" (content-sized, padding 10/20) with a
    margin of 5, measured in 500 x 400: 8 characters at 14 px give a content
    box of 107.2 x 39.6, hence 147.2 x 59.6 with the padding. *)
Lemma C2_witness :
  let w := with_margin (Button_new "Click Me") 5 in
  isVisible w = true
  /\ width (fst (measure w (mkSize 500 400))) == 1472 # 10
  /\ height (fst (measure w (mkSize 500 400))) == 596 # 10
  /\ measuredSize_ (base (snd (measure w (mkSize 500 400))))
     = fst (measure w (mkSize 500 400)).
Proof.
  intro w.
  destruct (C2_measure_resolves_each_axis_from_its_spec w (mkSize 500 400)
              eq_refl) as [E1 E2].
  rewrite E2, E1. repeat split; reflexivity.
Defined.

(** ** Invisible widgets *)

Lemma measure_invisible (w : Widget) (available : Size) :
  isVisible w = false -> measure w available = (mkSize 0 0, w).
Proof. intro H. rewrite measure_eq. apply Widget_measure_invisible. exact H. Qed.

Lemma Widget_render_invisible (b : WidgetBase) :
  visible_ b = false -> Widget_render b = [].
Proof. intro H. unfold Widget_render. rewrite H. reflexivity. Qed.

(** Classes that keep [Widget::render] draw nothing when invisible. *)
Lemma render_invisible_base_class (r : Renderer) (b : WidgetBase) (k : Leaf) :
  visible_ b = false ->
  k = KWidget \/ k = KSpacer \/ (exists d, k = KDivider d) ->
  render r (LeafW b k) = Ok (LeafW b k, []).
Proof.
  intros Hv [-> | [-> | [d ->]]]; cbn [render Leaf_render];
    rewrite ?Widget_render_invisible by exact Hv; reflexivity.
Qed.

(** C3 fails on the code for classes that override [render].  An invisible
    [Text] measures as (0,0) and is left untouched by [measure], but [render]
    called on it still issues [drawText]: the visibility test sits in
    [Widget::render], and returning from it does not end [Text::render].
    Likewise an invisible container still renders its visible children. *)
Theorem C3_invisible_text_still_draws :
  let hidden := with_visible (Text_new "hi") false in
  let box := ContW (set_visible WidgetBase_default false) KContainer
                   [Text_new "hi"] in
  let call :=
    drawText "hi" (mkPoint 0 (centered 0 0 16)) (mkFont 0) (mkColor 1 1 1 1)
             TextStyle_default in
  isVisible hidden = false
  /\ measure hidden (mkSize 500 400) = (mkSize 0 0, hidden)
  /\ render a_renderer hidden = Ok (hidden, [call])
  /\ isVisible box = false
  /\ render a_renderer box = Ok (box, [call]).
Proof. repeat split. Qed.

(** ** Box *)






(** ** [layout]: it always returns, and the recursion bound is not observable *)

Lemma at_ok {A : Type} (v : list A) (i : nat) :
  (i < List.length v)%nat -> exists a, at_ v i = Ok a /\ In a v.
Proof.
  intro H. unfold at_. destruct (nth_error v i) as [a|] eqn:E.
  - exists a. split; [reflexivity | eapply nth_error_In; exact E].
  - apply nth_error_None in E. lia.
Qed.

Lemma In_set_at {A : Type} (v : list A) (i : nat) (a x : A) :
  In x (set_at v i a) -> x = a \/ In x v.
Proof.
  revert i. induction v as [|y v IH]; intros i H; [destruct H|].
  destruct i as [|i]; cbn [set_at] in H.
  - destruct H as [<-|H]; [left; reflexivity | right; right; exact H].
  - destruct H as [<-|H]; [right; left; reflexivity|].
    destruct (IH i H) as [->|H']; [left; reflexivity | right; right; exact H'].
Qed.

Section LayoutBody.
Variables f g : Widget -> Rect -> result Widget.

Lemma near_In (cs : list Widget) (c : Widget) : In c cs -> near cs c.
Proof. intro H. exists c. split; [exact H | reflexivity]. Qed.

Lemma near_measured (cs : list Widget) (c : Widget) (a : Size) :
  In c cs -> near cs (snd (measure c a)).
Proof. intro H. exists c. split; [exact H | apply measure_same]. Qed.

Lemma near_cons (c0 : Widget) (cs : list Widget) (c : Widget) :
  near cs c -> near (c0 :: cs) c.
Proof. intros (x & Hx & Hs). exists x. split; [right; exact Hx | exact Hs]. Qed.

Section Agree.
Variable cs0 : list Widget.
Hypothesis agree : forall c r, near cs0 c -> f c r = g c r.

Lemma Box_layoutHorizontal_loop_ext cb d sizes rest i x :
  (forall c, In c rest -> near cs0 c) ->
  Box_layoutHorizontal_loop f cb d sizes rest i x
  = Box_layoutHorizontal_loop g cb d sizes rest i x.
Proof.
  revert i x. induction rest as [|c rest IH]; intros i x H;
    cbn [Box_layoutHorizontal_loop]; [reflexivity|].
  destruct (at_ sizes i) as [sz|e]; cbn [bind]; [|reflexivity].
  destruct (cross_place _ _ _ _) as [y h].
  rewrite (agree c _ (H c (or_introl eq_refl))).
  destruct (g c _); cbn [bind]; [|reflexivity].
  rewrite IH by (intros c' Hc'; apply H; right; exact Hc'). reflexivity.
Qed.

Lemma Box_layoutVertical_loop_ext cb d sizes rest i y :
  (forall c, In c rest -> near cs0 c) ->
  Box_layoutVertical_loop f cb d sizes rest i y
  = Box_layoutVertical_loop g cb d sizes rest i y.
Proof.
  revert i y. induction rest as [|c rest IH]; intros i y H;
    cbn [Box_layoutVertical_loop]; [reflexivity|].
  destruct (at_ sizes i) as [sz|e]; cbn [bind]; [|reflexivity].
  destruct (cross_place _ _ _ _) as [x w].
  rewrite (agree c _ (H c (or_introl eq_refl))).
  destruct (g c _); cbn [bind]; [|reflexivity].
  rewrite IH by (intros c' Hc'; apply H; right; exact Hc'). reflexivity.
Qed.

Lemma Stack_layoutChildren_ext cb d cs :
  (forall c, In c cs -> In c cs0) ->
  Stack_layoutChildren f cb d cs = Stack_layoutChildren g cb d cs.
Proof.
  induction cs as [|c cs IH]; intro H; cbn [Stack_layoutChildren];
    [reflexivity|].
  pose proof (near_measured cs0 c (mkSize (rwidth cb) (rheight cb))
                (H c (or_introl eq_refl))) as Hn.
  destruct (measure c (mkSize (rwidth cb) (rheight cb))) as [sz c1].
  cbn [snd] in Hn. rewrite (agree c1 _ Hn).
  destruct (g c1 _); cbn [bind]; [|reflexivity].
  rewrite IH by (intros c' Hc'; apply H; right; exact Hc'). reflexivity.
Qed.

Lemma Grid_layout_loop_ext cb d cw ch rest row col :
  (forall c, In c rest -> In c cs0) ->
  Grid_layout_loop f cb d cw ch rest row col
  = Grid_layout_loop g cb d cw ch rest row col.
Proof.
  revert row col. induction rest as [|c rest IH]; intros row col H;
    cbn [Grid_layout_loop]; [reflexivity|].
  rewrite (agree c _ (near_In cs0 c (H c (or_introl eq_refl)))).
  destruct (g c _); cbn [bind]; [|reflexivity].
  assert (H' : forall c', In c' rest -> In c' cs0)
    by (intros c' Hc'; apply H; right; exact Hc').
  destruct (col + 1 >=? Grid.columns_ d)%Z; rewrite IH by exact H';
    reflexivity.
Qed.
End Agree.

Lemma In_measured_near (cs : list Widget) (a : Size) (c : Widget) :
  In c (map snd (map (fun child => measure child a) cs)) -> near cs c.
Proof.
  rewrite map_map. intro H. apply in_map_iff in H.
  destruct H as (c0 & <- & Hc0). apply near_measured. exact Hc0.
Qed.

Lemma Layout_layoutChildren_ext (cb : Rect) (k : Layout) (cs : list Widget) :
  (forall c r, near cs c -> f c r = g c r) ->
  Layout_layoutChildren f cb k cs = Layout_layoutChildren g cb k cs.
Proof.
  intro H. destruct k as [ | d | d | d | d | d ]; cbn [Layout_layoutChildren].
  - reflexivity.
  - unfold Box_layoutChildren. destruct (is_nil cs); [reflexivity|].
    destruct (Box.direction_ d).
    + unfold Box_layoutHorizontal.
      apply (Box_layoutHorizontal_loop_ext cs H). apply In_measured_near.
    + unfold Box_layoutVertical.
      apply (Box_layoutVertical_loop_ext cs H). apply In_measured_near.
  - apply (Stack_layoutChildren_ext cs H). auto.
  - unfold Grid_layoutChildren.
    destruct (is_nil cs || (Grid.columns_ d <=? 0)%Z); [reflexivity|].
    apply (Grid_layout_loop_ext cs H). auto.
  - unfold ScrollView_layoutChildren. destruct (is_nil cs); [reflexivity|].
    unfold at_. destruct (nth_error cs 0) as [c0|] eqn:E; cbn [bind];
      [|reflexivity].
    pose proof (near_measured cs c0
                  (mkSize (if Direction_eqb (ScrollView.scrollDir_ d) Horizontal
                           then 1000000000 else rwidth cb)
                          (if Direction_eqb (ScrollView.scrollDir_ d) Vertical
                           then 1000000000 else rheight cb))
                  (nth_error_In _ _ E)) as Hn.
    destruct (measure c0 _) as [sz c1]. cbn [snd] in Hn.
    rewrite (H c1 _ Hn). reflexivity.
  - unfold Sidebar_layoutChildren.
    destruct (List.length cs <? 2)%nat; [reflexivity|].
    unfold at_. destruct (nth_error cs 0) as [c0|] eqn:E0; cbn [bind];
      [|reflexivity].
    destruct (nth_error cs 1) as [c1|] eqn:E1; cbn [bind]; [|reflexivity].
    pose proof (near_In cs c0 (nth_error_In _ _ E0)) as H0.
    pose proof (near_In cs c1 (nth_error_In _ _ E1)) as H1.
    destruct (Sidebar.position_ d);
      rewrite ?(H c0 _ H0), ?(H c1 _ H1); reflexivity.
Qed.

Lemma Widget_layout_ext (w : Widget) (rect : Rect) :
  (forall c r, near (children w) c -> f c r = g c r) ->
  Widget_layout f w rect = Widget_layout g w rect.
Proof.
  intro H. unfold Widget_layout. destruct w as [b k | b k cs];
    cbn [set_base Widget_layoutChildren]; [reflexivity|].
  rewrite (Layout_layoutChildren_ext _ k cs H). reflexivity.
Qed.
End LayoutBody.

Section LayoutTotal.
Variable f : Widget -> Rect -> result Widget.
Variable cs0 : list Widget.
Hypothesis f_total : forall c r, near cs0 c -> exists c', f c r = Ok c'.

Lemma Box_layoutHorizontal_loop_total cb d sizes rest i x :
  (forall c, In c rest -> near cs0 c) ->
  (i + List.length rest <= List.length sizes)%nat ->
  exists rest', Box_layoutHorizontal_loop f cb d sizes rest i x = Ok rest'.
Proof.
  revert i x. induction rest as [|c rest IH]; intros i x H Hlen;
    cbn [Box_layoutHorizontal_loop]; [eexists; reflexivity|].
  cbn [List.length] in Hlen.
  destruct (at_ok sizes i) as (sz & -> & _); [lia|]. cbn [bind].
  destruct (cross_place _ _ _ _) as [y h].
  destruct (f_total c (mkRect x y (width sz) h) (H c (or_introl eq_refl)))
    as [c' ->]. cbn [bind].
  destruct (IH (S i) (x + (width sz + Box.spacing_ d))) as [rest' ->];
    [intros c'' Hc''; apply H; right; exact Hc'' | lia |].
  eexists. reflexivity.
Qed.

Lemma Box_layoutVertical_loop_total cb d sizes rest i y :
  (forall c, In c rest -> near cs0 c) ->
  (i + List.length rest <= List.length sizes)%nat ->
  exists rest', Box_layoutVertical_loop f cb d sizes rest i y = Ok rest'.
Proof.
  revert i y. induction rest as [|c rest IH]; intros i y H Hlen;
    cbn [Box_layoutVertical_loop]; [eexists; reflexivity|].
  cbn [List.length] in Hlen.
  destruct (at_ok sizes i) as (sz & -> & _); [lia|]. cbn [bind].
  destruct (cross_place _ _ _ _) as [x w].
  destruct (f_total c (mkRect x y w (height sz)) (H c (or_introl eq_refl)))
    as [c' ->]. cbn [bind].
  destruct (IH (S i) (y + (height sz + Box.spacing_ d))) as [rest' ->];
    [intros c'' Hc''; apply H; right; exact Hc'' | lia |].
  eexists. reflexivity.
Qed.

Lemma Stack_layoutChildren_total cb d cs :
  (forall c, In c cs -> In c cs0) ->
  exists cs', Stack_layoutChildren f cb d cs = Ok cs'.
Proof.
  induction cs as [|c cs IH]; intro H; cbn [Stack_layoutChildren];
    [eexists; reflexivity|].
  pose proof (near_measured cs0 c (mkSize (rwidth cb) (rheight cb))
                (H c (or_introl eq_refl))) as Hn.
  destruct (measure c (mkSize (rwidth cb) (rheight cb))) as [sz c1].
  cbn [snd] in Hn.
  destruct (f_total c1
              (mkRect (main_origin (Stack.horizontalAlign_ d) (rx cb)
                         (rwidth cb) (width sz))
                      (main_origin (Stack.verticalAlign_ d) (ry cb)
                         (rheight cb) (height sz))
                      (width sz) (height sz)) Hn) as [c' ->].
  cbn [bind].
  destruct IH as [cs' ->]; [intros c'' Hc''; apply H; right; exact Hc''|].
  eexists. reflexivity.
Qed.

Lemma Grid_layout_loop_total cb d cw ch rest row col :
  (forall c, In c rest -> In c cs0) ->
  exists rest', Grid_layout_loop f cb d cw ch rest row col = Ok rest'.
Proof.
  revert row col. induction rest as [|c rest IH]; intros row col H;
    cbn [Grid_layout_loop]; [eexists; reflexivity|].
  destruct (f_total c
              (mkRect (rx cb + of_int col * (cw + Grid.spacing_ d))
                      (ry cb + of_int row * (ch + Grid.spacing_ d)) cw ch)
              (near_In cs0 c (H c (or_introl eq_refl)))) as [c' ->].
  cbn [bind].
  assert (H' : forall c', In c' rest -> In c' cs0)
    by (intros c'' Hc''; apply H; right; exact Hc'').
  destruct (col + 1 >=? Grid.columns_ d)%Z.
  - destruct (IH (row + 1)%Z 0%Z H') as [rest' ->]. eexists. reflexivity.
  - destruct (IH row (col + 1)%Z H') as [rest' ->]. eexists. reflexivity.
Qed.

(** No layout reads a child that is not there, whatever the number of
    children. *)
Lemma Layout_layoutChildren_total (cb : Rect) (k : Layout) :
  exists cs', Layout_layoutChildren f cb k cs0 = Ok cs'.
Proof.
  destruct k as [ | d | d | d | d | d ]; cbn [Layout_layoutChildren].
  - eexists. reflexivity.
  - unfold Box_layoutChildren. destruct (is_nil cs0); [eexists; reflexivity|].
    destruct (Box.direction_ d).
    + apply Box_layoutHorizontal_loop_total; [apply In_measured_near|].
      rewrite !length_map. lia.
    + apply Box_layoutVertical_loop_total; [apply In_measured_near|].
      rewrite !length_map. lia.
  - apply Stack_layoutChildren_total. auto.
  - unfold Grid_layoutChildren.
    destruct (is_nil cs0 || (Grid.columns_ d <=? 0)%Z); [eexists; reflexivity|].
    apply Grid_layout_loop_total. auto.
  - unfold ScrollView_layoutChildren.
    destruct cs0 as [|c0 rest] eqn:E; cbn [is_nil]; [eexists; reflexivity|].
    cbn [at_ nth_error bind].
    assert (Hn : forall a, near (c0 :: rest) (snd (measure c0 a)))
      by (intro a; apply near_measured; left; reflexivity).
    match goal with
    | |- context [measure c0 ?a] =>
        specialize (Hn a); destruct (measure c0 a) as [sz c1]
    end.
    cbn [snd] in Hn.
    match goal with
    | |- context [f c1 ?r] => destruct (f_total c1 r Hn) as [c' ->]
    end.
    cbn [bind]. eexists. reflexivity.
  - unfold Sidebar_layoutChildren.
    destruct (Nat.ltb_spec (List.length cs0) 2); [eexists; reflexivity|].
    destruct (at_ok cs0 0) as (sidebar & -> & Hs); [lia|].
    destruct (at_ok cs0 1) as (content & -> & Hc); [lia|].
    cbn [bind].
    destruct (Sidebar.position_ d);
      repeat match goal with
             | |- context [f sidebar ?r] =>
                 destruct (f_total sidebar r (near_In _ _ Hs)) as [? ->];
                 cbn [bind]
             | |- context [f content ?r] =>
                 destruct (f_total content r (near_In _ _ Hc)) as [? ->];
                 cbn [bind]
             end;
      eexists; reflexivity.
Qed.
End LayoutTotal.

Lemma near_depth (cs : list Widget) (c : Widget) (b : WidgetBase) (k : Layout) :
  near cs c -> (depth c < depth (ContW b k cs))%nat.
Proof.
  intros (c0 & Hin & Hs).
  rewrite <- (same_but_measured_depth c0 c Hs). apply depth_child. exact Hin.
Qed.

Lemma near_children_depth (w c : Widget) :
  near (children w) c -> (depth c < depth w)%nat.
Proof.
  destruct w as [b k | b k cs]; cbn [children].
  - intros (c0 & [] & _).
  - apply near_depth.
Qed.

Lemma layout_fuel_total (n : nat) :
  forall w rect, (depth w < n)%nat -> exists w', layout_fuel n w rect = Ok w'.
Proof.
  induction n as [|n IH]; intros w rect Hd; [lia|].
  cbn [layout_fuel]. unfold Widget_layout.
  destruct w as [b k | b k cs]; cbn [set_base base Widget_layoutChildren].
  - eexists. reflexivity.
  - match goal with
    | |- context [Layout_layoutChildren _ ?box k cs] =>
        destruct (Layout_layoutChildren_total (layout_fuel n) cs) with
          (cb := box) (k := k) as [cs' ->]
    end.
    + intros c r Hn. apply IH.
      pose proof (near_depth cs c b k Hn). lia.
    + cbn [bind]. eexists. reflexivity.
Qed.

Lemma layout_fuel_irrelevant (n : nat) :
  forall m w rect,
    (depth w < n)%nat -> (depth w < m)%nat ->
    layout_fuel n w rect = layout_fuel m w rect.
Proof.
  induction n as [|n IH]; intros m w rect Hn Hm; [lia|].
  destruct m as [|m]; [lia|]. cbn [layout_fuel].
  apply Widget_layout_ext. intros c r Hc.
  pose proof (near_children_depth w c Hc). apply IH; lia.
Qed.

(** [layout] always returns: it neither runs out of its bound nor indexes a
    child that does not exist. *)
Theorem layout_total (w : Widget) (rect : Rect) :
  exists w', layout w rect = Ok w'.
Proof. apply layout_fuel_total. lia. Qed.

(** [layout] satisfies the equation of [Widget::layout]. *)
Theorem layout_eq (w : Widget) (rect : Rect) :
  layout w rect = Widget_layout layout w rect.
Proof.
  unfold layout at 1. cbn [layout_fuel].
  apply Widget_layout_ext. intros c r Hc. unfold layout.
  pose proof (near_children_depth w c Hc).
  apply layout_fuel_irrelevant; lia.
Qed.

Theorem layoutChildren_total (w : Widget) :
  exists w', layoutChildren w = Ok w'.
Proof.
  unfold layoutChildren. destruct w as [b k | b k cs];
    cbn [Widget_layoutChildren]; [eexists; reflexivity|].
  destruct (Layout_layoutChildren_total layout cs) with
    (cb := contentBounds_ b) (k := k) as [cs' ->].
  - intros c r _. apply layout_total.
  - cbn [bind]. eexists. reflexivity.
Qed.

Lemma layoutChildren_keeps_node (b : WidgetBase) (k : Layout)
    (cs : list Widget) (w' : Widget) :
  layoutChildren (ContW b k cs) = Ok w' -> exists cs', w' = ContW b k cs'.
Proof.
  unfold layoutChildren. cbn [Widget_layoutChildren].
  destruct (Layout_layoutChildren layout (contentBounds_ b) k cs) as [cs'|e];
    cbn [bind]; intro H; [|discriminate].
  injection H as <-. exists cs'. reflexivity.
Qed.

(** ** Sidebar and ScrollView with too few children *)

(** C8: a Sidebar with fewer than two children and a ScrollView without
    children are laid out as no-ops: [layoutChildren] returns normally (no
    child index is read out of range) and the widget is exactly as before;
    [layout] only records the new bounds.  For the empty ScrollView
    [measureContent] returns (0,0) and touches nothing. *)
Theorem C8_underpopulated_layouts_are_no_ops :
  forall (b : WidgetBase) (cs : list Widget) (rect : Rect) (available : Size),
    (forall d : Sidebar.data,
        (List.length cs < 2)%nat ->
        layoutChildren (ContW b (KSidebar d) cs) = Ok (ContW b (KSidebar d) cs)
        /\ exists b',
            layout (ContW b (KSidebar d) cs) rect
            = Ok (ContW b' (KSidebar d) cs))
    /\ (forall d : ScrollView.data,
           layoutChildren (ContW b (KScrollView d) [])
           = Ok (ContW b (KScrollView d) [])
           /\ (exists b',
                  layout (ContW b (KScrollView d) []) rect
                  = Ok (ContW b' (KScrollView d) []))
           /\ Layout_measureContent measure (KScrollView d) [] available
              = (mkSize 0 0, [])
           /\ measureContent (ContW b (KScrollView d) []) available
              = mkSize 0 0).
Proof.
  intros b cs rect available. split.
  - intros d Hlen.
    assert (E : forall cb,
               Sidebar_layoutChildren layout cb d cs = Ok cs).
    { intro cb. unfold Sidebar_layoutChildren.
      destruct (Nat.ltb_spec (List.length cs) 2); [reflexivity | lia]. }
    split.
    + unfold layoutChildren. cbn [Widget_layoutChildren Layout_layoutChildren].
      rewrite E. reflexivity.
    + rewrite layout_eq. unfold Widget_layout.
      cbn [set_base base Widget_layoutChildren Layout_layoutChildren].
      rewrite E. cbn [bind]. eexists. reflexivity.
  - intro d. split; [reflexivity|]. split; [|split; reflexivity].
    rewrite layout_eq. eexists. reflexivity.
Qed.

(** A left sidebar holding only its sidebar pane. *)
Lemma C8_witness :
  let pane := Text_new "menu" in
  (List.length [pane] < 2)%nat
  /\ layoutChildren (Sidebar_new Sidebar.PLeft 200 [pane])
     = Ok (Sidebar_new Sidebar.PLeft 200 [pane]).
Proof.
  intro pane. split; [cbn; lia|].
  refine (proj1 (proj1 (C8_underpopulated_layouts_are_no_ops
                          WidgetBase_default [pane] (mkRect 0 0 0 0)
                          (mkSize 0 0))
                   (Sidebar.mk Sidebar.PLeft 200) _)).
  cbn. lia.
Defined.

(** ** ScrollView scrolling *)

(** Everything but [handleScroll] leaves every scroll offset of the tree as
    it is. *)
Lemma flat_map_offsets_Forall2 (cs cs' : list Widget) :
  Forall2 (fun c c' => offsets c' = offsets c) cs cs' ->
  flat_map offsets cs' = flat_map offsets cs.
Proof.
  induction 1 as [|c c' cs cs' H _ IH]; cbn [flat_map]; [reflexivity|].
  rewrite H, IH. reflexivity.
Qed.

Lemma offsets_forget_measured (w : Widget) :
  offsets (forget_measured w) = offsets w.
Proof.
  induction w as [b k | b k cs IH] using Widget_tree_ind; [reflexivity|].
  cbn [forget_measured offsets]. f_equal.
  induction IH as [|c cs Hc _ IHcs]; cbn [map flat_map]; [reflexivity|].
  rewrite Hc, IHcs. reflexivity.
Qed.

Lemma same_but_measured_offsets (w w' : Widget) :
  same_but_measured w w' -> offsets w' = offsets w.
Proof.
  intro H. rewrite <- (offsets_forget_measured w), <- (offsets_forget_measured w').
  now rewrite H.
Qed.

Lemma measure_keeps_offsets (w : Widget) (a : Size) :
  offsets (snd (measure w a)) = offsets w.
Proof. apply same_but_measured_offsets. apply measure_same. Qed.

Lemma offer_in_order_keeps_offsets (handle : Widget -> bool * Widget * list Fired)
    (cs : list Widget) :
  Forall (fun c => offsets (snd (fst (handle c))) = offsets c) cs ->
  flat_map offsets (snd (fst (offer_in_order handle cs))) = flat_map offsets cs.
Proof.
  induction 1 as [|c cs Hc _ IH]; cbn [offer_in_order]; [reflexivity|].
  destruct (handle c) as [[r c'] fired]. cbn [fst snd] in Hc.
  destruct r.
  - cbn [fst snd flat_map]. rewrite Hc. reflexivity.
  - destruct (offer_in_order handle cs) as [[r' cs'] fired'].
    cbn [fst snd flat_map] in *. rewrite Hc, IH. reflexivity.
Qed.

Lemma handleMouseButton_keeps_offsets (w : Widget) (event : MouseEvent) :
  offsets (snd (fst (handleMouseButton w event))) = offsets w.
Proof.
  induction w as [b k | b k cs IH] using Widget_tree_ind;
    cbn [handleMouseButton].
  - unfold Leaf_handleMouseButton.
    destruct k;
      repeat match goal with
             | |- context [match ?x with (_, _) => _ end] => destruct x
             end; reflexivity.
  - destruct (Widget_handleMouseButton b event) as [[|] fired]; [reflexivity|].
    pose proof (offer_in_order_keeps_offsets
                  (fun child => handleMouseButton child event) cs IH) as H.
    destruct (offer_in_order _ cs) as [[r cs'] fired'].
    cbn [fst snd offsets] in *. rewrite H. reflexivity.
Qed.

Lemma handleMouseMove_keeps_offsets (w : Widget) (event : MouseEvent) :
  offsets (snd (fst (handleMouseMove w event))) = offsets w.
Proof.
  induction w as [b k | b k cs IH] using Widget_tree_ind;
    cbn [handleMouseMove].
  - unfold Leaf_handleMouseMove.
    destruct k;
      repeat match goal with
             | |- context [match ?x with (_, _) => _ end] => destruct x
             end; reflexivity.
  - destruct (Widget_handleMouseMove b event) as [[r0 b'] fired].
    pose proof (offer_in_order_keeps_offsets
                  (fun child => handleMouseMove child event) cs IH) as H.
    destruct (offer_in_order _ cs) as [[r cs'] fired'].
    cbn [fst snd offsets] in *. rewrite H. reflexivity.
Qed.

Lemma handleKeyEvent_keeps_offsets (w : Widget) (event : KeyEvent)
    (r : bool) (w' : Widget) (fired : list Fired) :
  handleKeyEvent w event = Ok (r, w', fired) -> offsets w' = offsets w.
Proof.
  unfold handleKeyEvent.
  destruct w as [b k | b k cs];
    [destruct k|];
    try (intro E; injection E as _ <- _; reflexivity).
  destruct (TextInput_handleKeyEvent _ _ event) as [[[r' d'] fired']|e];
    cbn [bind]; [|discriminate].
  intro E. injection E as _ <- _. reflexivity.
Qed.

Lemma render_children_keeps_offsets (render : Widget -> result (Widget * list DrawCall))
    (cs cs' : list Widget) (calls : list DrawCall) :
  Forall (fun c => forall c' calls',
              render c = Ok (c', calls') -> offsets c' = offsets c) cs ->
  render_children isVisible render cs = Ok (cs', calls) ->
  flat_map offsets cs' = flat_map offsets cs.
Proof.
  intro H. revert cs' calls.
  induction H as [|c cs Hc _ IH]; intros cs' calls; cbn [render_children].
  - intro E. injection E as <- _. reflexivity.
  - assert (Hc' : forall c' calls',
               (if isVisible c then render c else Ok (c, []))
               = Ok (c', calls') -> offsets c' = offsets c).
    { destruct (isVisible c); [exact Hc|].
      intros c' calls' E. injection E as <- _. reflexivity. }
    destruct (if isVisible c then render c else Ok (c, []))
      as [[c1 calls1]|e]; cbn [bind]; [|discriminate].
    destruct (render_children isVisible render cs) as [[cs1 calls2]|e];
      cbn [bind]; [|discriminate].
    intro E. injection E as <- _. cbn [flat_map].
    rewrite (Hc' c1 calls1 eq_refl), (IH cs1 calls2 eq_refl). reflexivity.
Qed.

Lemma render_keeps_offsets (r : Renderer) (w w' : Widget)
    (calls : list DrawCall) :
  render r w = Ok (w', calls) -> offsets w' = offsets w.
Proof.
  revert w' calls.
  induction w as [b k | b k cs IH] using Widget_tree_ind; intros w' calls;
    cbn [render].
  - unfold Leaf_render.
    destruct k;
      repeat match goal with
             | |- context [match ?x with (_, _) => _ end] => destruct x
             | |- context [bind ?x _] => destruct x as [[? ?]|?]; cbn [bind]
             end; intro H; try discriminate; injection H as <- _; reflexivity.
  - destruct (render_children isVisible (render r) cs) as [[cs' calls']|e] eqn:E;
      cbn [bind]; intro H; [|discriminate].
    injection H as <- _. cbn [offsets].
    rewrite (render_children_keeps_offsets (render r) cs cs' calls' IH E).
    reflexivity.
Qed.

Lemma flat_map_offsets_set_at (v : list Widget) (i : nat) (a : Widget) :
  (forall x, nth_error v i = Some x -> offsets a = offsets x) ->
  flat_map offsets (set_at v i a) = flat_map offsets v.
Proof.
  revert i. induction v as [|y v IH]; intros i H; [reflexivity|].
  destruct i as [|i]; cbn [set_at flat_map].
  - rewrite (H y eq_refl). reflexivity.
  - rewrite IH; [reflexivity | exact H].
Qed.

Lemma nth_error_set_at_other {A : Type} (v : list A) (i j : nat) (a : A) :
  i <> j -> nth_error (set_at v i a) j = nth_error v j.
Proof.
  revert i j. induction v as [|y v IH]; intros i j H; [reflexivity|].
  destruct i as [|i], j as [|j]; cbn [set_at nth_error];
    try reflexivity; try congruence.
  apply IH. congruence.
Qed.

Lemma at_Ok_nth_error {A : Type} (v : list A) (i : nat) (a : A) :
  at_ v i = Ok a -> nth_error v i = Some a.
Proof.
  unfold at_. destruct (nth_error v i); intro H; [|discriminate].
  injection H as <-. reflexivity.
Qed.

Section LayoutKeepsOffsets.
Variable f : Widget -> Rect -> result Widget.
Hypothesis f_keeps : forall c r c', f c r = Ok c' -> offsets c' = offsets c.

Lemma Box_layoutHorizontal_loop_keeps cb d sizes rest i x rest' :
  Box_layoutHorizontal_loop f cb d sizes rest i x = Ok rest' ->
  flat_map offsets rest' = flat_map offsets rest.
Proof.
  revert i x rest'. induction rest as [|c rest IH]; intros i x rest';
    cbn [Box_layoutHorizontal_loop].
  - intro E. injection E as <-. reflexivity.
  - destruct (at_ sizes i) as [sz|e]; cbn [bind]; [|discriminate].
    destruct (cross_place _ _ _ _) as [y h].
    destruct (f c _) as [c'|e] eqn:Ec; cbn [bind]; [|discriminate].
    destruct (Box_layoutHorizontal_loop f cb d sizes rest _ _) as [r'|e] eqn:Er;
      cbn [bind]; [|discriminate].
    intro E. injection E as <-. cbn [flat_map].
    rewrite (f_keeps _ _ _ Ec), (IH _ _ _ Er). reflexivity.
Qed.

Lemma Box_layoutVertical_loop_keeps cb d sizes rest i y rest' :
  Box_layoutVertical_loop f cb d sizes rest i y = Ok rest' ->
  flat_map offsets rest' = flat_map offsets rest.
Proof.
  revert i y rest'. induction rest as [|c rest IH]; intros i y rest';
    cbn [Box_layoutVertical_loop].
  - intro E. injection E as <-. reflexivity.
  - destruct (at_ sizes i) as [sz|e]; cbn [bind]; [|discriminate].
    destruct (cross_place _ _ _ _) as [x w].
    destruct (f c _) as [c'|e] eqn:Ec; cbn [bind]; [|discriminate].
    destruct (Box_layoutVertical_loop f cb d sizes rest _ _) as [r'|e] eqn:Er;
      cbn [bind]; [|discriminate].
    intro E. injection E as <-. cbn [flat_map].
    rewrite (f_keeps _ _ _ Ec), (IH _ _ _ Er). reflexivity.
Qed.

Lemma Stack_layoutChildren_keeps cb d cs cs' :
  Stack_layoutChildren f cb d cs = Ok cs' ->
  flat_map offsets cs' = flat_map offsets cs.
Proof.
  revert cs'. induction cs as [|c cs IH]; intro cs';
    cbn [Stack_layoutChildren].
  - intro E. injection E as <-. reflexivity.
  - pose proof (measure_keeps_offsets c (mkSize (rwidth cb) (rheight cb))) as Hm.
    destruct (measure c (mkSize (rwidth cb) (rheight cb))) as [sz c1].
    cbn [snd] in Hm.
    destruct (f c1 _) as [c'|e] eqn:Ec; cbn [bind]; [|discriminate].
    destruct (Stack_layoutChildren f cb d cs) as [r'|e]; cbn [bind];
      [|discriminate].
    intro E. injection E as <-. cbn [flat_map].
    rewrite (f_keeps _ _ _ Ec), Hm, (IH _ eq_refl). reflexivity.
Qed.

Lemma Grid_layout_loop_keeps cb d cw ch rest row col rest' :
  Grid_layout_loop f cb d cw ch rest row col = Ok rest' ->
  flat_map offsets rest' = flat_map offsets rest.
Proof.
  revert row col rest'. induction rest as [|c rest IH]; intros row col rest';
    cbn [Grid_layout_loop].
  - intro E. injection E as <-. reflexivity.
  - destruct (f c _) as [c'|e] eqn:Ec; cbn [bind]; [|discriminate].
    destruct (col + 1 >=? Grid.columns_ d)%Z;
      (destruct (Grid_layout_loop f cb d cw ch rest _ _) as [r'|e] eqn:Er;
       cbn [bind]; [|discriminate];
       intro E; injection E as <-; cbn [flat_map];
       rewrite (f_keeps _ _ _ Ec), (IH _ _ _ Er); reflexivity).
Qed.

Lemma Layout_layoutChildren_keeps cb k cs cs' :
  Layout_layoutChildren f cb k cs = Ok cs' ->
  flat_map offsets cs' = flat_map offsets cs.
Proof.
  destruct k as [ | d | d | d | d | d ]; cbn [Layout_layoutChildren].
  - intro E. injection E as <-. reflexivity.
  - unfold Box_layoutChildren. destruct (is_nil cs).
    { intro E. injection E as <-. reflexivity. }
    assert (Hm : flat_map offsets
                   (map snd (map (fun child =>
                                    measure child
                                      (mkSize (rwidth cb) (rheight cb))) cs))
                 = flat_map offsets cs).
    { apply flat_map_offsets_Forall2. rewrite map_map.
      apply Forall2_map_right. intros c _. apply measure_keeps_offsets. }
    destruct (Box.direction_ d); intro E; rewrite <- Hm.
    + exact (Box_layoutHorizontal_loop_keeps _ _ _ _ _ _ _ E).
    + exact (Box_layoutVertical_loop_keeps _ _ _ _ _ _ _ E).
  - apply Stack_layoutChildren_keeps.
  - unfold Grid_layoutChildren.
    destruct (is_nil cs || (Grid.columns_ d <=? 0)%Z).
    { intro E. injection E as <-. reflexivity. }
    apply Grid_layout_loop_keeps.
  - unfold ScrollView_layoutChildren. destruct (is_nil cs).
    { intro E. injection E as <-. reflexivity. }
    destruct (at_ cs 0) as [c0|e] eqn:E0; cbn [bind]; [|discriminate].
    apply at_Ok_nth_error in E0.
    match goal with
    | |- context [measure c0 ?a] =>
        pose proof (measure_keeps_offsets c0 a) as Hm;
        destruct (measure c0 a) as [sz c1]
    end.
    cbn [snd] in Hm.
    destruct (f c1 _) as [c'|e] eqn:Ec; cbn [bind]; [|discriminate].
    intro E. injection E as <-. apply flat_map_offsets_set_at.
    intros x Hx. rewrite E0 in Hx. injection Hx as <-.
    rewrite (f_keeps _ _ _ Ec). exact Hm.
  - unfold Sidebar_layoutChildren. destruct (List.length cs <? 2)%nat.
    { intro E. injection E as <-. reflexivity. }
    destruct (at_ cs 0) as [c0|e] eqn:E0; cbn [bind]; [|discriminate].
    destruct (at_ cs 1) as [c1|e] eqn:E1; cbn [bind]; [|discriminate].
    apply at_Ok_nth_error in E0, E1.
    destruct (Sidebar.position_ d);
      repeat match goal with
             | |- context [f ?c ?r] =>
                 let E := fresh "Ef" in
                 destruct (f c r) eqn:E; cbn [bind]; [|discriminate]
             end;
      intro E; injection E as <-;
      (rewrite flat_map_offsets_set_at;
       [ apply flat_map_offsets_set_at
       | rewrite nth_error_set_at_other by discriminate ]);
      intros x Hx; rewrite ?E0, ?E1 in Hx; injection Hx as <-;
      eapply f_keeps; eassumption.
Qed.
End LayoutKeepsOffsets.

Lemma layout_fuel_keeps_offsets (n : nat) :
  forall w rect w', layout_fuel n w rect = Ok w' -> offsets w' = offsets w.
Proof.
  induction n as [|n IH]; intros w rect w'; cbn [layout_fuel];
    [discriminate|].
  unfold Widget_layout.
  destruct w as [b k | b k cs]; cbn [set_base base Widget_layoutChildren].
  - intro E. injection E as <-. reflexivity.
  - destruct (Layout_layoutChildren (layout_fuel n) _ k cs) as [cs'|e] eqn:Ec;
      cbn [bind]; [|discriminate].
    intro E. injection E as <-. cbn [offsets].
    rewrite (Layout_layoutChildren_keeps (layout_fuel n) IH _ _ _ _ Ec).
    reflexivity.
Qed.

Lemma layout_keeps_offsets (w w' : Widget) (rect : Rect) :
  layout w rect = Ok w' -> offsets w' = offsets w.
Proof. apply layout_fuel_keeps_offsets. Qed.

Lemma layoutChildren_keeps_offsets (w w' : Widget) :
  layoutChildren w = Ok w' -> offsets w' = offsets w.
Proof.
  unfold layoutChildren. destruct w as [b k | b k cs];
    cbn [Widget_layoutChildren].
  - intro E. injection E as <-. reflexivity.
  - destruct (Layout_layoutChildren layout _ k cs) as [cs'|e] eqn:Ec;
      cbn [bind]; [|discriminate].
    intro E. injection E as <-. cbn [offsets].
    rewrite (Layout_layoutChildren_keeps layout
               (fun c r c' => layout_keeps_offsets c c' r) _ _ _ _ Ec).
    reflexivity.
Qed.

Lemma fmax_zero_not_negative (x : Q) : 0 <= fmax 0 x.
Proof. apply fmax_lower. Qed.

Lemma fmax_zero_keeps (x : Q) : 0 <= x -> fmax 0 x == x.
Proof.
  intro H. unfold fmax. destruct (Qltb 0 x) eqn:E; [reflexivity|].
  apply Qltb_ge in E. lra.
Qed.

(** C7: [ScrollView::handleScroll].  An event outside [contentBounds_] is
    declined and changes nothing.  An event inside moves the offset of the
    scroll axis by [-delta * 20], raises it to 0 when it fell below, leaves
    the other axis alone, runs [layoutChildren] on the result at once and
    returns [true].  There is no upper clamp: whenever the moved offset is
    not negative it is stored as it is, whatever the extent of the content.
    If no scroll offset in the tree is negative, none is after
    [handleScroll]; the other operations on a widget ([measure], [layout],
    [handleMouseButton], [handleMouseMove], [handleKeyEvent] and [render])
    change no scroll offset at all. *)
Theorem C7_scrollview_offset_clamped_at_zero_only :
  forall (b : WidgetBase) (d : ScrollView.data) (cs : list Widget)
         (event : ScrollEvent),
    let w := ContW b (KScrollView d) cs in
    let off := ScrollView.scrollOffset_ d in
    let movedX := px off - deltaX event * 20 in
    let movedY := py off - deltaY event * 20 in
    let off' :=
      match ScrollView.scrollDir_ d with
      | Horizontal => mkPoint (fmax 0 movedX) (py off)
      | Vertical => mkPoint (px off) (fmax 0 movedY)
      end in
    let scrolled :=
      ContW b (KScrollView (ScrollView.mk (ScrollView.scrollDir_ d) off')) cs in
    (contains (contentBounds_ b) (sposition event) = false ->
     handleScroll w event = Ok (false, w))
    /\ (contains (contentBounds_ b) (sposition event) = true ->
        exists w',
          layoutChildren scrolled = Ok w'
          /\ handleScroll w event = Ok (true, w')
          /\ scrollOffset w' = Some off')
    /\ (match ScrollView.scrollDir_ d with
        | Horizontal =>
            0 <= px off' /\ py off' = py off
            /\ (0 <= movedX -> px off' == movedX)
        | Vertical =>
            0 <= py off' /\ px off' = px off
            /\ (0 <= movedY -> py off' == movedY)
        end)
    /\ (offsets_not_negative w ->
        forall r w', handleScroll w event = Ok (r, w') -> offsets_not_negative w')
    /\ (forall a, offsets (snd (measure w a)) = offsets w)
    /\ (forall rect w', layout w rect = Ok w' -> offsets w' = offsets w)
    /\ (forall e, offsets (snd (fst (handleMouseButton w e))) = offsets w)
    /\ (forall r w' calls, render r w = Ok (w', calls) -> offsets w' = offsets w)
    /\ (forall e, offsets (snd (fst (handleMouseMove w e))) = offsets w)
    /\ (forall e r w' fired,
           handleKeyEvent w e = Ok (r, w', fired) -> offsets w' = offsets w).
Proof.
  intros b d cs event w off movedX movedY off' scrolled.
  assert (Hin : contains (contentBounds_ b) (sposition event) = true ->
                exists w',
                  layoutChildren scrolled = Ok w'
                  /\ handleScroll w event = Ok (true, w')
                  /\ scrollOffset w' = Some off').
  { intro Hc. destruct (layoutChildren_total scrolled) as [w' E].
    exists w'. split; [exact E|]. split.
    - subst w. cbn [handleScroll]. unfold ScrollView_handleScroll.
      rewrite Hc. cbn [negb]. fold off movedX movedY off' scrolled.
      rewrite E. reflexivity.
    - destruct (layoutChildren_keeps_node _ _ _ _ E) as [cs' ->]. reflexivity. }
  assert (Hclamp : match ScrollView.scrollDir_ d with
                   | Horizontal =>
                       0 <= px off' /\ py off' = py off
                       /\ (0 <= movedX -> px off' == movedX)
                   | Vertical =>
                       0 <= py off' /\ px off' = px off
                       /\ (0 <= movedY -> py off' == movedY)
                   end).
  { subst off'. destruct (ScrollView.scrollDir_ d); cbn [px py];
      (split; [apply fmax_zero_not_negative|]);
      (split; [reflexivity | apply fmax_zero_keeps]). }
  split; [|split; [exact Hin|split; [exact Hclamp|]]].
  - intro Hc. subst w. cbn [handleScroll]. unfold ScrollView_handleScroll.
    rewrite Hc. reflexivity.
  - split; [|split; [|split; [|split; [|split; [|split]]]]].
    + intros Hinv r w' E.
      destruct (contains (contentBounds_ b) (sposition event)) eqn:Hc.
      * destruct (Hin eq_refl) as (w'' & El & E' & _).
        rewrite E' in E. injection E as _ <-.
        unfold offsets_not_negative.
        rewrite (layoutChildren_keeps_offsets _ _ El).
        unfold offsets_not_negative in Hinv. subst w scrolled.
        cbn [offsets app] in *. inversion Hinv as [|? ? [Hx Hy] Hrest]; subst.
        constructor; [|exact Hrest].
        fold off in Hx, Hy. subst off'.
        destruct (ScrollView.scrollDir_ d); cbn [px py];
          split; try assumption; apply fmax_zero_not_negative.
      * subst w. cbn [handleScroll] in E. unfold ScrollView_handleScroll in E.
        rewrite Hc in E. injection E as _ <-. exact Hinv.
    + intro a. apply measure_keeps_offsets.
    + intros rect w'. apply layout_keeps_offsets.
    + intro e. apply handleMouseButton_keeps_offsets.
    + intros r w' calls. apply render_keeps_offsets.
    + intro e. apply handleMouseMove_keeps_offsets.
    + intros e r w' fired. apply handleKeyEvent_keeps_offsets.
Qed.

(** A vertical scroll view 100 x 100 around one line of text: scrolling by
    deltaY = -1000 at (50,50) stores the offset 20000, far past the content;
    scrolling by +1 stores 0. *)
Lemma C7_witness :
  let w := a_scroll_view Vertical [Text_new "line"] in
  let down := mkScrollEvent (mkPoint 50 50) 0 (-1000) in
  let up := mkScrollEvent (mkPoint 50 50) 0 1 in
  offsets_not_negative w
  /\ (exists w', handleScroll w down = Ok (true, w')
                 /\ scrollOffset w' = Some (mkPoint 0 (fmax 0 (0 - -1000 * 20))))
  /\ fmax 0 (0 - -1000 * 20) == 20000
  /\ (exists w', handleScroll w up = Ok (true, w')
                 /\ scrollOffset w' = Some (mkPoint 0 (fmax 0 (0 - 1 * 20))))
  /\ fmax 0 (0 - 1 * 20) == 0
  /\ (forall r w', handleScroll w down = Ok (r, w') -> offsets_not_negative w').
Proof.
  intros w down up.
  assert (Hinv : offsets_not_negative w).
  { repeat constructor; discriminate. }
  pose proof (C7_scrollview_offset_clamped_at_zero_only
                (laid_out WidgetBase_default (mkRect 0 0 100 100))
                (ScrollView.mk Vertical (mkPoint 0 0)) [Text_new "line"] down)
    as Hdown.
  pose proof (C7_scrollview_offset_clamped_at_zero_only
                (laid_out WidgetBase_default (mkRect 0 0 100 100))
                (ScrollView.mk Vertical (mkPoint 0 0)) [Text_new "line"] up)
    as Hup.
  cbv zeta in Hdown, Hup.
  destruct Hdown as (_ & Hd & _ & Hk & _). destruct Hup as (_ & Hu & _).
  destruct (Hd eq_refl) as (w1 & _ & E1 & O1).
  destruct (Hu eq_refl) as (w2 & _ & E2 & O2).
  split; [exact Hinv|]. split; [exists w1; split; [exact E1 | exact O1]|].
  split; [reflexivity|]. split; [exists w2; split; [exact E2 | exact O2]|].
  split; [reflexivity|]. exact (Hk Hinv).
Defined.

(** * Further properties of the code *)

(** ** Checkbox *)

(** Checkbox: a left press inside the bounds toggles [checked_], returns
    [true] and calls [onToggle] once with the new state, whether or not the
    widget is enabled; a second such press restores the checkbox exactly.  A
    press outside the bounds, a release or another button changes nothing and
    calls nothing. *)
Theorem Checkbox_press_toggles_and_two_presses_restore :
  forall (b : WidgetBase) (d : Checkbox.data) (event : MouseEvent),
    let once := Checkbox_handleMouseButton b d event in
    let twice := Checkbox_handleMouseButton b (snd (fst once)) event in
    (pressed event = true -> button event = Left ->
     contains (bounds_ b) (position event) = true ->
     once = (true,
             Checkbox.mk (negb (Checkbox.checked_ d)) (Checkbox.checkColor_ d)
                         (Checkbox.onToggleHandler_ d),
             call (Checkbox.onToggleHandler_ d)
                  (fun h => OnToggle h (negb (Checkbox.checked_ d))))
     /\ twice = (true, d,
                 call (Checkbox.onToggleHandler_ d)
                      (fun h => OnToggle h (Checkbox.checked_ d))))
    /\ (pressed event = false \/ button event <> Left
        \/ contains (bounds_ b) (position event) = false ->
        once = (false, d, [])).
Proof.
  intros b d event once twice. subst once twice. split.
  - intros Hp Hb Hc. unfold Checkbox_handleMouseButton.
    rewrite Hp, Hb, Hc. cbn [andb MouseButton_eqb fst snd Checkbox.checked_
      Checkbox.checkColor_ Checkbox.onToggleHandler_].
    split; [reflexivity|]. rewrite negb_involutive. destruct d; reflexivity.
  - intro H. unfold Checkbox_handleMouseButton.
    destruct (pressed event) eqn:Hp; [|reflexivity].
    destruct (button event) eqn:Hb; cbn [andb MouseButton_eqb];
      try reflexivity.
    destruct (contains (bounds_ b) (position event)) eqn:Hc; [|reflexivity].
    destruct H as [H|[H|H]]; congruence.
Qed.

(** A disabled, unchecked checkbox at (0,0,20,20) pressed twice at (5,5). *)
Lemma Checkbox_press_toggles_witness :
  let b := laid_out (set_enabled WidgetBase_default false) (mkRect 0 0 20 20) in
  let d := Checkbox_new false in
  Checkbox_handleMouseButton b d (press_at 5 5)
  = (true, Checkbox_new true, [])
  /\ Checkbox_handleMouseButton b (Checkbox_new true) (press_at 5 5)
     = (true, d, [])
  /\ Checkbox_handleMouseButton b d (press_at 50 5) = (false, d, []).
Proof.
  intros b d.
  pose proof (Checkbox_press_toggles_and_two_presses_restore b d (press_at 5 5))
    as H.
  pose proof (Checkbox_press_toggles_and_two_presses_restore b d (press_at 50 5))
    as H'.
  cbv zeta in H, H'.
  destruct (proj1 H eq_refl eq_refl eq_refl) as [E1 E2].
  split; [exact E1|]. split.
  - rewrite E1 in E2. exact E2.
  - apply (proj2 H'). right. right. reflexivity.
Defined.

(** ** What a mouse button event can do to a tree *)

Lemma offer_in_order_all_silent {W : Type}
    (handle : W -> bool * W * list Fired) (cs : list W) :
  Forall (fun c => fst (fst (handle c)) = false /\ snd (handle c) = []) cs ->
  fst (fst (offer_in_order handle cs)) = false
  /\ snd (offer_in_order handle cs) = [].
Proof.
  induction 1 as [|c cs [Hr Hf] _ [IHr IHf]]; cbn [offer_in_order];
    [split; reflexivity|].
  destruct (handle c) as [[r c'] f]. cbn [fst snd] in Hr, Hf. subst r f.
  destruct (offer_in_order handle cs) as [[r' cs'] f'].
  cbn [fst snd] in *. subst. split; reflexivity.
Qed.

Lemma Widget_handleMouseButton_not_left_press (b : WidgetBase)
    (event : MouseEvent) :
  pressed event && MouseButton_eqb (button event) Left = false ->
  Widget_handleMouseButton b event = (false, []).
Proof.
  intro H. unfold Widget_handleMouseButton. rewrite H.
  destruct (negb (enabled_ b)); reflexivity.
Qed.

(** Only a left-button press is ever consumed: for every widget tree, a
    release or an event of another button makes [handleMouseButton] return
    [false] and calls no handler at all (it may still clear a button's
    [pressed_] flag or end a slider drag). *)
Theorem handleMouseButton_consumes_left_presses_only :
  forall (w : Widget) (event : MouseEvent),
    pressed event = false \/ button event <> Left ->
    fst (fst (handleMouseButton w event)) = false
    /\ snd (handleMouseButton w event) = [].
Proof.
  intros w event H.
  assert (Hn : pressed event && MouseButton_eqb (button event) Left = false).
  { destruct H as [->|H]; [reflexivity|].
    destruct (button event); try (rewrite andb_false_r; reflexivity).
    congruence. }
  clear H.
  induction w as [b k | b k cs IH] using Widget_tree_ind;
    cbn [handleMouseButton].
  - unfold Leaf_handleMouseButton.
    destruct k;
      try (rewrite (Widget_handleMouseButton_not_left_press b event Hn);
           split; reflexivity).
    + unfold Button_handleMouseButton.
      rewrite (Widget_handleMouseButton_not_left_press b event Hn).
      split; reflexivity.
    + unfold TextInput_handleMouseButton.
      rewrite (Widget_handleMouseButton_not_left_press b event Hn).
      split; reflexivity.
    + unfold Slider_handleMouseButton.
      destruct (MouseButton_eqb (button event) Left) eqn:Hb;
        [|split; reflexivity].
      rewrite andb_true_r in Hn. rewrite Hn. split; reflexivity.
    + unfold Checkbox_handleMouseButton. rewrite Hn. split; reflexivity.
  - rewrite (Widget_handleMouseButton_not_left_press b event Hn).
    destruct (offer_in_order_all_silent
                (fun child => handleMouseButton child event) cs IH) as [Hr Hf].
    destruct (offer_in_order _ cs) as [[r cs'] f]. cbn [fst snd] in *.
    subst. split; reflexivity.
Qed.

(** A release over two buttons in a box. *)
Lemma handleMouseButton_consumes_left_presses_only_witness :
  let w := Box_new Horizontal 0 [Button_new "A"; Button_new "B"] in
  handleMouseButton w (release_at 0 0) = (false, w, [])
  /\ fst (fst (handleMouseButton w (right_press_at 0 0))) = false.
Proof.
  intro w. split; [reflexivity|].
  refine (proj1 (handleMouseButton_consumes_left_presses_only w
                   (right_press_at 0 0) _)).
  right. discriminate.
Defined.

(** ** Focus *)

Lemma Widget_setFocus_focused (b : WidgetBase) (focus : bool) :
  focused_ (fst (Widget_setFocus b focus)) = focus.
Proof.
  unfold Widget_setFocus. destruct (focused_ b) eqn:E, focus; cbn; auto.
Qed.

(** [setFocus] is idempotent and calls [onFocus] on changes only: the first
    call leaves [focused_] equal to the request and calls the handler exactly
    when the state changed; a repeated call with the same request changes
    nothing and calls nothing.  Clicking a [TextInput] (an enabled one, left
    press inside its bounds) consumes the press, calls [onClick], and leaves
    it focused, calling [onFocus(true)] only if it was not focused; no mouse
    button event ever takes the focus away from it. *)
Theorem setFocus_idempotent_and_click_focuses_TextInput :
  forall (b : WidgetBase) (d : TextInput.data) (focus : bool)
         (event : MouseEvent),
    let '(b1, fired1) := Widget_setFocus b focus in
    focused_ b1 = focus
    /\ fired1 = (if Bool.eqb (focused_ b) focus then []
                 else call (onFocusHandler_ b) (fun h => OnFocus h focus))
    /\ Widget_setFocus b1 focus = (b1, [])
    /\ (enabled_ b = true -> pressed event = true -> button event = Left ->
        contains (bounds_ b) (position event) = true ->
        exists b',
          handleMouseButton (LeafW b (KTextInput d)) event
          = (true, LeafW b' (KTextInput d),
             call (onClickHandler_ b) OnClick
             ++ (if focused_ b then []
                 else call (onFocusHandler_ b) (fun h => OnFocus h true)))
          /\ focused_ b' = true)
    /\ (focused_ b = true ->
        focused_ (base (snd (fst (handleMouseButton (LeafW b (KTextInput d))
                                                    event)))) = true).
Proof.
  intros b d focus event.
  destruct (Widget_setFocus b focus) as [b1 fired1] eqn:E.
  assert (Hb1 : focused_ b1 = focus).
  { pose proof (Widget_setFocus_focused b focus) as H. rewrite E in H. exact H. }
  split; [exact Hb1|]. split; [|split; [|split]].
  - unfold Widget_setFocus in E.
    destruct (Bool.eqb (focused_ b) focus); cbn [negb] in E;
      injection E as _ <-; reflexivity.
  - unfold Widget_setFocus. rewrite Hb1, eqb_reflx. reflexivity.
  - intros He Hp Hbt Hc. cbn [handleMouseButton Leaf_handleMouseButton].
    unfold TextInput_handleMouseButton.
    rewrite (Widget_handleMouseButton_hit b event He Hp Hbt Hc), Hp.
    cbn [andb]. unfold Widget_setFocus.
    destruct (focused_ b) eqn:Hf; cbn [Bool.eqb negb].
    + exists b. rewrite app_nil_r. split; [reflexivity | exact Hf].
    + eexists. split; reflexivity.
  - intro Hf. cbn [handleMouseButton Leaf_handleMouseButton].
    unfold TextInput_handleMouseButton.
    destruct (Widget_handleMouseButton b event) as [clicked fired].
    destruct (clicked && pressed event); [|exact Hf].
    unfold Widget_setFocus. rewrite Hf. cbn [Bool.eqb negb fst snd base].
    exact Hf.
Qed.

(** An enabled, unfocused input at (0,0,200,30) with an [onFocus] handler,
    clicked at (10,10). *)
Lemma setFocus_idempotent_witness :
  let b :=
    laid_out (mkWidgetBase SizeSpec_content SizeSpec_content BoxStyle_default
                (mkRect 0 0 0 0) (mkRect 0 0 0 0) (mkSize 0 0)
                true true false false None None (Some 3%nat))
             (mkRect 0 0 200 30) in
  exists b',
    handleMouseButton (LeafW b (KTextInput (TextInput_new ""))) (press_at 10 10)
    = (true, LeafW b' (KTextInput (TextInput_new "")), [OnFocus 3%nat true])
    /\ focused_ b' = true.
Proof.
  intro b.
  pose proof (setFocus_idempotent_and_click_focuses_TextInput
                b (TextInput_new "") true (press_at 10 10)) as H.
  destruct (Widget_setFocus b true) as [b1 fired1].
  destruct H as (_ & _ & _ & H & _).
  exact (H eq_refl eq_refl eq_refl eq_refl).
Defined.

(** ** TextInput: how the editing keys compose *)

Lemma str_take_prefix (p : nat) (s t : string) :
  (p <= String.length s)%nat -> str_take p (str_take p s ++ t) = str_take p s.
Proof.
  intro H. rewrite <- (str_take_length p s H) at 1. apply str_take_all.
Qed.

Lemma str_drop_prefix (p : nat) (s t : string) :
  (p <= String.length s)%nat -> str_drop p (str_take p s ++ t) = t.
Proof.
  intro H. rewrite <- (str_take_length p s H) at 1. apply str_drop_all.
Qed.

(** Typing a character and then pressing Backspace gives back the buffer
    and the cursor, wherever the cursor stands; when the cursor is not at the
    start, pressing Left and then Delete does to buffer, cursor and
    [onChange] what Backspace alone does. *)
Theorem TextInput_backspace_undoes_typing :
  forall (b : WidgetBase) (d : TextInput.data) (c : ascii)
         (key backspace left_ delete : KeyEvent),
    focused_ b = true -> cursor_in_range d ->
    types key c ->
    kpressed backspace = true -> keycode backspace = 14%Z ->
    kpressed left_ = true -> keycode left_ = 105%Z ->
    kpressed delete = true -> keycode delete = 111%Z ->
    (exists d2 fired,
        send_keys b d [key; backspace] = Ok (d2, fired)
        /\ TextInput.text_ d2 = TextInput.text_ d
        /\ TextInput.cursorPos_ d2 = TextInput.cursorPos_ d)
    /\ ((0 < TextInput.cursorPos_ d)%nat ->
        exists d' fired,
          TextInput_handleKeyEvent b d backspace = Ok (true, d', fired)
          /\ send_keys b d [left_; delete] = Ok (d', fired)).
Proof.
  intros b d c key backspace left_ delete Hf Hr (Hp & Hk & Ht)
         Hbp Hbk Hlp Hlk Hdp Hdk.
  destruct (special_key_false _ Hk) as (K1 & K2 & K3 & K4 & K5).
  unfold cursor_in_range in Hr.
  destruct d as [s ph ts p oc os].
  cbn [TextInput.text_ TextInput.cursorPos_] in *.
  split.
  - cbn [send_keys]. unfold TextInput_handleKeyEvent.
    rewrite Hf, Hp, K1, K2, K3, K4, K5, Ht, Hbp, Hbk.
    cbn [negb is_empty TextInput.text_ TextInput.cursorPos_ Z.eqb Pos.eqb
         TextInput.onChangeHandler_].
    rewrite str_insert_ok by lia. cbn [bind set_text TextInput.text_
      TextInput.cursorPos_ TextInput.placeholder_ TextInput.textStyle_
      TextInput.onChangeHandler_ TextInput.onSubmitHandler_ String.length].
    destruct (Nat.ltb_spec 0 (p + 1)); [|lia].
    replace (p + 1 - 1)%nat with p by lia.
    rewrite str_erase_ok
      by (rewrite str_length_app, str_take_length by lia; lia).
    cbn [bind set_text TextInput.text_ TextInput.cursorPos_].
    eexists _, _. split; [reflexivity|].
    cbn [TextInput.text_ TextInput.cursorPos_]. split; [|reflexivity].
    rewrite str_take_prefix by lia.
    change (String c "" ++ str_drop p s)%string
      with (String c (str_drop p s)).
    replace (str_take p s ++ String c (str_drop p s))%string
      with ((str_take p s ++ String c "") ++ str_drop p s)%string
      by (rewrite str_app_assoc; reflexivity).
    replace (p + 1)%nat
      with (String.length (str_take p s ++ String c ""))
      by (rewrite str_length_app, str_take_length by lia; reflexivity).
    rewrite str_drop_all. apply str_take_drop.
  - intro Hpos. cbn [send_keys]. unfold TextInput_handleKeyEvent.
    rewrite Hf, Hbp, Hbk, Hlp, Hlk, Hdp, Hdk.
    cbn [negb TextInput.text_ TextInput.cursorPos_ Z.eqb Pos.eqb
         TextInput.onChangeHandler_].
    destruct (Nat.ltb_spec 0 p); [|lia].
    rewrite str_erase_ok by lia. cbn [bind set_text TextInput.text_
      TextInput.cursorPos_ TextInput.placeholder_ TextInput.textStyle_
      TextInput.onChangeHandler_ TextInput.onSubmitHandler_].
    destruct (Nat.ltb_spec (p - 1) (String.length s)); [|lia].
    rewrite str_erase_ok by lia. cbn [bind set_text TextInput.text_
      TextInput.cursorPos_ TextInput.placeholder_ TextInput.textStyle_
      TextInput.onChangeHandler_ TextInput.onSubmitHandler_ app].
    rewrite app_nil_r. eexists _, _. split; reflexivity.
Qed.

(** The buffer "abc" with the cursor after the "a". *)
Lemma TextInput_backspace_undoes_typing_witness :
  let b := set_focused WidgetBase_default true in
  let d := TextInput.mk "abc" "" TextStyle_default 1 None None in
  (exists d2 fired,
      send_keys b d [key_press 45 "x"; key_press 14 ""] = Ok (d2, fired)
      /\ TextInput.text_ d2 = "abc"%string
      /\ TextInput.cursorPos_ d2 = 1%nat)
  /\ (exists d' fired,
         TextInput_handleKeyEvent b d (key_press 14 "") = Ok (true, d', fired)
         /\ send_keys b d [key_press 105 ""; key_press 111 ""] = Ok (d', fired)).
Proof.
  intros b d.
  assert (Hr : cursor_in_range d) by (unfold cursor_in_range; cbn; lia).
  assert (Ht : types (key_press 45 "x") "x"%char) by (repeat split).
  destruct (TextInput_backspace_undoes_typing b d "x"%char
              (key_press 45 "x") (key_press 14 "") (key_press 105 "")
              (key_press 111 "") eq_refl Hr Ht eq_refl eq_refl eq_refl eq_refl
              eq_refl eq_refl) as [H1 H2].
  split; [exact H1|]. apply H2. cbn. lia.
Defined.

(** ** Slider dragging *)

(** The slider's value follows the pointer while a drag is on, and only
    then: a left press inside the bounds starts a drag and stores the value
    for the press abscissa; a motion during the drag is consumed and stores
    the value for its abscissa; a left release, wherever it happens, ends the
    drag without touching the value; a motion after that is not consumed and
    leaves the value alone. *)
Theorem Slider_value_follows_pointer_while_dragging_only :
  forall (b : WidgetBase) (d : Slider.data)
         (press motion release motion' : MouseEvent),
    pressed press = true -> button press = Left ->
    contains (bounds_ b) (position press) = true ->
    pressed release = false -> button release = Left ->
    let w0 := LeafW b (KSlider d) in
    let w1 := snd (fst (handleMouseButton w0 press)) in
    let w2 := snd (fst (handleMouseMove w1 motion)) in
    let w3 := snd (fst (handleMouseButton w2 release)) in
    let w4 := snd (fst (handleMouseMove w3 motion')) in
    (exists d1, slider_data w1 = Some d1
                /\ Slider.dragging_ d1 = true
                /\ Slider.value_ d1 = slider_value_at b d (px (position press)))
    /\ fst (fst (handleMouseMove w1 motion)) = true
    /\ (exists d2, slider_data w2 = Some d2
                   /\ Slider.dragging_ d2 = true
                   /\ Slider.value_ d2
                      = slider_value_at b d (px (position motion)))
    /\ fst (fst (handleMouseButton w2 release)) = false
    /\ fst (fst (handleMouseMove w3 motion')) = false
    /\ (exists d4, slider_data w4 = Some d4
                   /\ Slider.dragging_ d4 = false
                   /\ Slider.value_ d4
                      = slider_value_at b d (px (position motion))).
Proof.
  intros b d press motion release motion' Hp Hb Hc Hr Hrb w0 w1 w2 w3 w4.
  set (v1 := slider_value_at b d (px (position press))).
  set (v2 := slider_value_at b d (px (position motion))).
  set (d1 := set_value (set_dragging d true) v1).
  assert (E1 : w1 = LeafW b (KSlider d1)).
  { subst w1 w0. cbn [handleMouseButton Leaf_handleMouseButton].
    unfold Slider_handleMouseButton. rewrite Hb, Hp, Hc. reflexivity. }
  set (b2 := set_hovered b (contains (bounds_ b) (position motion))).
  set (d2 := set_value d1 v2).
  assert (E2 : handleMouseMove w1 motion
               = (true, LeafW b2 (KSlider d2),
                  snd (handleMouseMove w1 motion))).
  { rewrite E1. reflexivity. }
  assert (E2' : w2 = LeafW b2 (KSlider d2)).
  { subst w2. rewrite E2. reflexivity. }
  set (d3 := set_dragging d2 false).
  assert (E3 : handleMouseButton w2 release
               = (false, LeafW b2 (KSlider d3), [])).
  { rewrite E2'. cbn [handleMouseButton Leaf_handleMouseButton].
    unfold Slider_handleMouseButton. rewrite Hrb, Hr. reflexivity. }
  assert (E3' : w3 = LeafW b2 (KSlider d3)).
  { subst w3. rewrite E3. reflexivity. }
  assert (E4 : fst (fst (handleMouseMove w3 motion')) = false
               /\ slider_data w4 = Some d3).
  { subst w4. rewrite E3'. split; reflexivity. }
  split; [exists d1; rewrite E1; repeat split; reflexivity|].
  split; [rewrite E2; reflexivity|].
  split; [exists d2; rewrite E2'; repeat split; reflexivity|].
  split; [rewrite E3; reflexivity|].
  split; [apply E4|].
  exists d3. split; [apply E4|]. split; reflexivity.
Qed.

(** The default slider at (10,0,200,20): press at x = 60, drag to x = 110,
    release far away, move on to x = 200: the value stays at 1/2. *)
Lemma Slider_value_follows_pointer_witness :
  let b := laid_out WidgetBase_default (mkRect 10 0 200 20) in
  let w0 := LeafW b (KSlider a_slider) in
  let w1 := snd (fst (handleMouseButton w0 (press_at 60 10))) in
  let w2 := snd (fst (handleMouseMove w1 (move_to 110 10))) in
  let w3 := snd (fst (handleMouseButton w2 (release_at 500 500))) in
  let w4 := snd (fst (handleMouseMove w3 (move_to 200 10))) in
  exists d4, slider_data w4 = Some d4
             /\ Slider.dragging_ d4 = false
             /\ Slider.value_ d4 == 1 # 2.
Proof.
  intros b w0 w1 w2 w3 w4.
  destruct (Slider_value_follows_pointer_while_dragging_only b a_slider
              (press_at 60 10) (move_to 110 10) (release_at 500 500)
              (move_to 200 10) eq_refl eq_refl eq_refl eq_refl eq_refl)
    as (_ & _ & _ & _ & _ & d4 & E & Hd & Hv).
  exists d4. split; [exact E|]. split; [exact Hd|]. rewrite Hv. reflexivity.
Defined.

(** ** Hovering *)

Lemma Widget_handleMouseMove_again (b : WidgetBase) (event : MouseEvent) :
  let b' := snd (fst (Widget_handleMouseMove b event)) in
  Widget_handleMouseMove b' event
  = (fst (fst (Widget_handleMouseMove b event)), b', []).
Proof.
  unfold Widget_handleMouseMove. cbn [fst snd set_hovered bounds_ hovered_].
  rewrite Bool.eqb_reflx. reflexivity.
Qed.

(** A handler that settles after one call settles the whole list of
    children after one round of [offer_in_order]. *)
Lemma offer_in_order_again {W : Type} (handle : W -> bool * W * list Fired)
    (quiet : Fired -> bool) (cs : list W) :
  Forall (fun c =>
            let c' := snd (fst (handle c)) in
            fst (fst (handle c')) = fst (fst (handle c))
            /\ snd (fst (handle c')) = c'
            /\ filter quiet (snd (handle c')) = []) cs ->
  let cs' := snd (fst (offer_in_order handle cs)) in
  fst (fst (offer_in_order handle cs')) = fst (fst (offer_in_order handle cs))
  /\ snd (fst (offer_in_order handle cs')) = cs'
  /\ filter quiet (snd (offer_in_order handle cs')) = [].
Proof.
  induction 1 as [|c cs Hc _ IH]; cbn [offer_in_order fst snd];
    [repeat split; reflexivity|].
  cbn zeta in Hc, IH. destruct Hc as (Hr & Hw & Hf).
  destruct (handle c) as [[r c'] f] eqn:E. cbn [fst snd] in Hr, Hw, Hf.
  destruct r.
  - cbn [fst snd offer_in_order].
    destruct (handle c') as [[r2 c2] f2]. cbn [fst snd] in Hr, Hw, Hf.
    subst r2 c2. cbn [fst snd]. repeat split; assumption.
  - destruct (offer_in_order handle cs) as [[r' cs'] f'] eqn:E'.
    cbn [fst snd] in IH |- *. cbn [offer_in_order].
    destruct (handle c') as [[r2 c2] f2]. cbn [fst snd] in Hr, Hw, Hf.
    subst r2 c2.
    destruct IH as (IHr & IHw & IHf).
    destruct (offer_in_order handle cs') as [[r3 cs3] f3].
    cbn [fst snd] in IHr, IHw, IHf |- *. subst r3 cs3.
    repeat split; try reflexivity.
    rewrite filter_app, Hf, IHf. reflexivity.
Qed.

(** Hover handlers fire on a change of the hover state only.  For every
    widget tree, delivering a motion event a second time reports the same
    result as the first delivery, leaves the tree as the first delivery left
    it, and calls no hover handler (a slider that is being dragged reports
    its value again, nothing else is called). *)
Theorem handleMouseMove_repeated_changes_nothing :
  forall (w : Widget) (event : MouseEvent),
    let w' := snd (fst (handleMouseMove w event)) in
    fst (fst (handleMouseMove w' event)) = fst (fst (handleMouseMove w event))
    /\ snd (fst (handleMouseMove w' event)) = w'
    /\ filter is_OnHover (snd (handleMouseMove w' event)) = [].
Proof.
  intros w event. induction w as [b k|b k cs IH] using Widget_tree_ind.
  - pose proof (Widget_handleMouseMove_again b event) as A.
    cbn zeta in A. cbn zeta.
    destruct k as [| | | |d| |d| | | | |];
      cbn [handleMouseMove Leaf_handleMouseMove];
      try (destruct (Widget_handleMouseMove b event) as [[r b'] f];
           cbn [fst snd] in A |- *;
           cbn [handleMouseMove Leaf_handleMouseMove];
           rewrite A; repeat split; reflexivity).
    + unfold Button_handleMouseMove.
      destruct (Widget_handleMouseMove b event) as [[r b'] f].
      cbn [fst snd] in A |- *.
      cbn [handleMouseMove Leaf_handleMouseMove]. unfold Button_handleMouseMove.
      rewrite A. cbn [fst snd Button.label_ Button.iconPath_ Button.textStyle_
                      Button.hoverBg_ Button.activeBg_ Button.pressed_].
      repeat split; reflexivity.
    + unfold Slider_handleMouseMove.
      assert (Hb : bounds_ (snd (fst (Widget_handleMouseMove b event)))
                   = bounds_ b) by reflexivity.
      destruct (Widget_handleMouseMove b event) as [[r b'] f].
      cbn [fst snd] in A, Hb |- *.
      destruct (Slider.dragging_ d) eqn:Hd.
      * unfold Slider_updateValue. cbn [fst snd].
        cbn [handleMouseMove Leaf_handleMouseMove].
        unfold Slider_handleMouseMove. rewrite A.
        cbn [set_value Slider.dragging_]. rewrite Hd.
        unfold Slider_updateValue.
        cbn [fst snd set_value Slider.min_ Slider.max_ Slider.value_
             Slider.thumbColor_ Slider.fillColor_ Slider.dragging_
             Slider.onChangeHandler_ app].
        repeat split; try reflexivity.
        destruct (Slider.onChangeHandler_ d); reflexivity.
      * cbn [fst snd]. cbn [handleMouseMove Leaf_handleMouseMove].
        unfold Slider_handleMouseMove. rewrite A, Hd.
        repeat split; reflexivity.
  - cbn zeta. cbn [handleMouseMove].
    pose proof (Widget_handleMouseMove_again b event) as A. cbn zeta in A.
    destruct (Widget_handleMouseMove b event) as [[r b'] f].
    cbn [fst snd] in A.
    pose proof (offer_in_order_again
                  (fun child => handleMouseMove child event) is_OnHover cs IH)
      as B. cbn zeta in B.
    destruct (offer_in_order (fun child => handleMouseMove child event) cs)
      as [[r' cs'] f'].
    cbn [fst snd] in B |- *. cbn [handleMouseMove]. rewrite A.
    destruct (offer_in_order (fun child => handleMouseMove child event) cs')
      as [[r2 cs2] f2].
    cbn [fst snd] in B |- *. destruct B as (Br & Bw & Bf). subst r2 cs2.
    repeat split; assumption.
Qed.

(** [Container::handleMouseMove] updates the container's own hover state,
    whose result it drops, and then offers the motion to the children in
    insertion order.  It returns at the first child that reports [true]: the
    children before it have seen the motion, the children after it have not
    and keep the hover state they had, whatever the pointer position.  When
    no child reports [true] the container returns [false], also with the
    pointer inside its own bounds. *)
Theorem Container_handleMouseMove_stops_at_first_reporting_child :
  forall (b : WidgetBase) (k : Layout) (cs : list Widget) (event : MouseEvent),
    let offer := fun child => handleMouseMove child event in
    let own := Widget_handleMouseMove b event in
    (forall pre c post,
        cs = pre ++ c :: post ->
        Forall (declines offer) pre -> consumes offer c ->
        handleMouseMove (ContW b k cs) event
        = (true,
           ContW (snd (fst own)) k (map (after offer) pre ++ after offer c :: post),
           snd own ++ flat_map (fired_by offer) pre ++ fired_by offer c))
    /\ (Forall (declines offer) cs ->
        handleMouseMove (ContW b k cs) event
        = (false, ContW (snd (fst own)) k (map (after offer) cs),
           snd own ++ flat_map (fired_by offer) cs)).
Proof.
  intros b k cs event offer own. split.
  - intros pre c post -> Hpre Hc. cbn [handleMouseMove]. fold offer.
    rewrite (offer_in_order_first_consumer _ offer pre c post Hpre Hc).
    subst own. destruct (Widget_handleMouseMove b event) as [[r b'] f].
    reflexivity.
  - intros Hall. cbn [handleMouseMove]. fold offer.
    rewrite (offer_in_order_nobody _ offer cs Hall).
    subst own. destruct (Widget_handleMouseMove b event) as [[r b'] f].
    reflexivity.
Qed.

(** Two widgets side by side, the second one still marked as hovered from
    an earlier motion.  The pointer moves onto the first: the second one is
    not told and stays hovered.  With the pointer between the two, nobody
    reports and the container returns [false] inside its own bounds. *)
Lemma Container_handleMouseMove_witness :
  let b := laid_out WidgetBase_default (mkRect 0 0 100 100) in
  let A := LeafW (laid_out WidgetBase_default (mkRect 0 0 10 10)) KWidget in
  let B := LeafW (set_hovered (laid_out WidgetBase_default (mkRect 20 0 10 10))
                    true) KWidget in
  map (fun c => hovered_ (base c))
      (children (snd (fst (handleMouseMove (ContW b KContainer [A; B])
                             (move_to 5 5)))))
  = [true; true]
  /\ fst (fst (handleMouseMove (ContW b KContainer [A; B]) (move_to 15 5)))
     = false.
Proof.
  intros b A B.
  destruct (Container_handleMouseMove_stops_at_first_reporting_child
              b KContainer [A; B] (move_to 5 5)) as [H1 _].
  destruct (Container_handleMouseMove_stops_at_first_reporting_child
              b KContainer [A; B] (move_to 15 5)) as [_ H2].
  split.
  - rewrite (H1 [] A [B] eq_refl (Forall_nil _) eq_refl). reflexivity.
  - rewrite H2; [reflexivity|].
    repeat constructor.
Defined.

(** ** [layout] changes geometry and nothing else *)

Lemma forget_geometry_forget_measured (w : Widget) :
  forget_geometry (forget_measured w) = forget_geometry w.
Proof.
  induction w as [b k | b k cs IH] using Widget_tree_ind; [reflexivity|].
  cbn [forget_measured forget_geometry]. f_equal.
  rewrite map_map.
  induction IH as [|c cs Hc _ IHcs]; cbn [map]; [reflexivity|].
  rewrite Hc, IHcs. reflexivity.
Qed.

Lemma measure_keeps_all_but_geometry (w : Widget) (a : Size) :
  forget_geometry (snd (measure w a)) = forget_geometry w.
Proof.
  rewrite <- (forget_geometry_forget_measured (snd (measure w a))),
          <- (forget_geometry_forget_measured w).
  pose proof (measure_same w a) as H. unfold same_but_measured in H.
  rewrite <- H. reflexivity.
Qed.

Lemma map_forget_geometry_set_at (v : list Widget) (i : nat) (a : Widget) :
  (forall x, nth_error v i = Some x -> forget_geometry a = forget_geometry x) ->
  map forget_geometry (set_at v i a) = map forget_geometry v.
Proof.
  revert i. induction v as [|y v IH]; intros i H; [reflexivity|].
  destruct i as [|i]; cbn [set_at map].
  - rewrite (H y eq_refl). reflexivity.
  - rewrite IH; [reflexivity | exact H].
Qed.

Section LayoutKeepsAllButGeometry.
Variable f : Widget -> Rect -> result Widget.
Hypothesis f_keeps :
  forall c r c', f c r = Ok c' -> forget_geometry c' = forget_geometry c.

Lemma Box_layoutHorizontal_loop_frame cb d sizes rest i x rest' :
  Box_layoutHorizontal_loop f cb d sizes rest i x = Ok rest' ->
  map forget_geometry rest' = map forget_geometry rest.
Proof.
  revert i x rest'. induction rest as [|c rest IH]; intros i x rest';
    cbn [Box_layoutHorizontal_loop].
  - intro E. injection E as <-. reflexivity.
  - destruct (at_ sizes i) as [sz|e]; cbn [bind]; [|discriminate].
    destruct (cross_place _ _ _ _) as [y h].
    destruct (f c _) as [c'|e] eqn:Ec; cbn [bind]; [|discriminate].
    destruct (Box_layoutHorizontal_loop f cb d sizes rest _ _) as [r'|e] eqn:Er;
      cbn [bind]; [|discriminate].
    intro E. injection E as <-. cbn [map].
    rewrite (f_keeps _ _ _ Ec), (IH _ _ _ Er). reflexivity.
Qed.

Lemma Box_layoutVertical_loop_frame cb d sizes rest i y rest' :
  Box_layoutVertical_loop f cb d sizes rest i y = Ok rest' ->
  map forget_geometry rest' = map forget_geometry rest.
Proof.
  revert i y rest'. induction rest as [|c rest IH]; intros i y rest';
    cbn [Box_layoutVertical_loop].
  - intro E. injection E as <-. reflexivity.
  - destruct (at_ sizes i) as [sz|e]; cbn [bind]; [|discriminate].
    destruct (cross_place _ _ _ _) as [x w].
    destruct (f c _) as [c'|e] eqn:Ec; cbn [bind]; [|discriminate].
    destruct (Box_layoutVertical_loop f cb d sizes rest _ _) as [r'|e] eqn:Er;
      cbn [bind]; [|discriminate].
    intro E. injection E as <-. cbn [map].
    rewrite (f_keeps _ _ _ Ec), (IH _ _ _ Er). reflexivity.
Qed.

Lemma Stack_layoutChildren_frame cb d cs cs' :
  Stack_layoutChildren f cb d cs = Ok cs' ->
  map forget_geometry cs' = map forget_geometry cs.
Proof.
  revert cs'. induction cs as [|c cs IH]; intro cs';
    cbn [Stack_layoutChildren].
  - intro E. injection E as <-. reflexivity.
  - pose proof (measure_keeps_all_but_geometry c
                  (mkSize (rwidth cb) (rheight cb))) as Hm.
    destruct (measure c (mkSize (rwidth cb) (rheight cb))) as [sz c1].
    cbn [snd] in Hm.
    destruct (f c1 _) as [c'|e] eqn:Ec; cbn [bind]; [|discriminate].
    destruct (Stack_layoutChildren f cb d cs) as [r'|e]; cbn [bind];
      [|discriminate].
    intro E. injection E as <-. cbn [map].
    rewrite (f_keeps _ _ _ Ec), Hm, (IH _ eq_refl). reflexivity.
Qed.

Lemma Grid_layout_loop_frame cb d cw ch rest row col rest' :
  Grid_layout_loop f cb d cw ch rest row col = Ok rest' ->
  map forget_geometry rest' = map forget_geometry rest.
Proof.
  revert row col rest'. induction rest as [|c rest IH]; intros row col rest';
    cbn [Grid_layout_loop].
  - intro E. injection E as <-. reflexivity.
  - destruct (f c _) as [c'|e] eqn:Ec; cbn [bind]; [|discriminate].
    destruct (col + 1 >=? Grid.columns_ d)%Z;
      (destruct (Grid_layout_loop f cb d cw ch rest _ _) as [r'|e] eqn:Er;
       cbn [bind]; [|discriminate];
       intro E; injection E as <-; cbn [map];
       rewrite (f_keeps _ _ _ Ec), (IH _ _ _ Er); reflexivity).
Qed.

Lemma Layout_layoutChildren_frame cb k cs cs' :
  Layout_layoutChildren f cb k cs = Ok cs' ->
  map forget_geometry cs' = map forget_geometry cs.
Proof.
  destruct k as [ | d | d | d | d | d ]; cbn [Layout_layoutChildren].
  - intro E. injection E as <-. reflexivity.
  - unfold Box_layoutChildren. destruct (is_nil cs).
    { intro E. injection E as <-. reflexivity. }
    assert (Hm : map forget_geometry
                   (map snd (map (fun child =>
                                    measure child
                                      (mkSize (rwidth cb) (rheight cb))) cs))
                 = map forget_geometry cs).
    { rewrite !map_map. apply map_ext. intro c.
      apply measure_keeps_all_but_geometry. }
    destruct (Box.direction_ d); intro E; rewrite <- Hm.
    + exact (Box_layoutHorizontal_loop_frame _ _ _ _ _ _ _ E).
    + exact (Box_layoutVertical_loop_frame _ _ _ _ _ _ _ E).
  - apply Stack_layoutChildren_frame.
  - unfold Grid_layoutChildren.
    destruct (is_nil cs || (Grid.columns_ d <=? 0)%Z).
    { intro E. injection E as <-. reflexivity. }
    apply Grid_layout_loop_frame.
  - unfold ScrollView_layoutChildren. destruct (is_nil cs).
    { intro E. injection E as <-. reflexivity. }
    destruct (at_ cs 0) as [c0|e] eqn:E0; cbn [bind]; [|discriminate].
    apply at_Ok_nth_error in E0.
    match goal with
    | |- context [measure c0 ?a] =>
        pose proof (measure_keeps_all_but_geometry c0 a) as Hm;
        destruct (measure c0 a) as [sz c1]
    end.
    cbn [snd] in Hm.
    destruct (f c1 _) as [c'|e] eqn:Ec; cbn [bind]; [|discriminate].
    intro E. injection E as <-. apply map_forget_geometry_set_at.
    intros x Hx. rewrite E0 in Hx. injection Hx as <-.
    rewrite (f_keeps _ _ _ Ec). exact Hm.
  - unfold Sidebar_layoutChildren. destruct (List.length cs <? 2)%nat.
    { intro E. injection E as <-. reflexivity. }
    destruct (at_ cs 0) as [c0|e] eqn:E0; cbn [bind]; [|discriminate].
    destruct (at_ cs 1) as [c1|e] eqn:E1; cbn [bind]; [|discriminate].
    apply at_Ok_nth_error in E0, E1.
    destruct (Sidebar.position_ d);
      repeat match goal with
             | |- context [f ?c ?r] =>
                 let E := fresh "Ef" in
                 destruct (f c r) eqn:E; cbn [bind]; [|discriminate]
             end;
      intro E; injection E as <-;
      (rewrite map_forget_geometry_set_at;
       [ apply map_forget_geometry_set_at
       | rewrite nth_error_set_at_other by discriminate ]);
      intros x Hx; rewrite ?E0, ?E1 in Hx; injection Hx as <-;
      eapply f_keeps; eassumption.
Qed.
End LayoutKeepsAllButGeometry.

Lemma layout_fuel_frame (n : nat) :
  forall w rect w',
    layout_fuel n w rect = Ok w' ->
    forget_geometry w' = forget_geometry w
    /\ bounds_ (base w') = rect
    /\ contentBounds_ (base w') = content_rect rect (padding (style_ (base w))).
Proof.
  induction n as [|n IH]; intros w rect w'; cbn [layout_fuel];
    [discriminate|].
  unfold Widget_layout.
  destruct w as [b k | b k cs]; cbn [set_base base Widget_layoutChildren].
  - intro E. injection E as <-. repeat split; reflexivity.
  - destruct (Layout_layoutChildren (layout_fuel n) _ k cs) as [cs'|e] eqn:Ec;
      cbn [bind]; [|discriminate].
    intro E. injection E as <-. cbn [forget_geometry base].
    rewrite (Layout_layoutChildren_frame (layout_fuel n)
               (fun c r c' H => proj1 (IH c r c' H)) _ _ _ _ Ec).
    repeat split; reflexivity.
Qed.

(** [Widget::layout(rect)] always returns.  Afterwards the widget's
    [bounds_] are [rect] and its [contentBounds_] are [rect] shrunk by the
    padding of its style; apart from the geometry of its nodes ([bounds_],
    [contentBounds_], [measuredSize_]) the whole tree is as before: same
    classes, same children in the same order, same styles, flags, handlers
    and class members. *)
Theorem layout_places_the_widget_and_changes_geometry_only :
  forall (w : Widget) (rect : Rect),
    exists w',
      layout w rect = Ok w'
      /\ bounds_ (base w') = rect
      /\ contentBounds_ (base w')
         = content_rect rect (padding (style_ (base w)))
      /\ forget_geometry w' = forget_geometry w.
Proof.
  intros w rect. destruct (layout_total w rect) as [w' E].
  exists w'. split; [exact E|].
  destruct (layout_fuel_frame _ _ _ _ E) as (H1 & H2 & H3).
  repeat split; assumption.
Qed.

(** ** Box: where the children go *)

Lemma layout_bounds (c c' : Widget) (r : Rect) :
  layout c r = Ok c' -> bounds c' = r.
Proof. intro E. apply (layout_fuel_frame _ _ _ _ E). Qed.

Lemma at_skipn {A : Type} (v : list A) (i : nat) (a : A) :
  at_ v i = Ok a -> skipn i v = a :: skipn (S i) v.
Proof.
  intro E. apply at_Ok_nth_error in E. revert i E.
  induction v as [|y v IH]; intros [|i] E; cbn in E; try discriminate.
  - injection E as <-. reflexivity.
  - cbn [skipn]. rewrite (IH i E). reflexivity.
Qed.

Lemma inject_Z_pred (z : Z) : inject_Z (z - 1) == inject_Z z - 1.
Proof.
  unfold Z.sub. rewrite inject_Z_plus, inject_Z_opp. reflexivity.
Qed.


Lemma in_a_row_next (s : Q) (spans : list (Q * Q)) :
  forall (x : Q) (extents : list Q) (i : nat) (p q : Q * Q),
    in_a_row s x spans extents ->
    nth_error spans i = Some p -> nth_error spans (S i) = Some q ->
    fst q = fst p + (snd p + s).
Proof.
  induction spans as [|p0 spans IH]; intros x extents i p q H Hp Hq.
  - destruct i; discriminate.
  - destruct extents as [|e es]; [contradiction|].
    destruct H as (H1 & H2 & H3). destruct i as [|i].
    + cbn in Hp. injection Hp as <-.
      destruct spans as [|p1 spans]; [discriminate|].
      cbn in Hq. injection Hq as <-.
      destruct es as [|e1 es]; [contradiction|].
      destruct H3 as (H4 & _). rewrite H4, H1, H2. reflexivity.
    + exact (IH _ _ i p q H3 Hp Hq).
Qed.

Lemma in_a_row_first (s x : Q) (spans : list (Q * Q)) (extents : list Q) :
  spans <> [] -> in_a_row s x spans extents -> fst (hd (0, 0) spans) = x.
Proof.
  destruct spans as [|p spans]; [contradiction|]. intros _.
  destruct extents as [|e es]; [contradiction|].
  intros (H & _). exact H.
Qed.

Lemma in_a_row_extents (s : Q) (spans : list (Q * Q)) :
  forall (x : Q) (extents : list Q),
    in_a_row s x spans extents -> map snd spans = extents.
Proof.
  induction spans as [|p spans IH]; intros x [|e es] H; try contradiction.
  - reflexivity.
  - destruct H as (_ & H2 & H3). cbn [map]. rewrite H2, (IH _ _ H3).
    reflexivity.
Qed.

Lemma cross_place_aligned (a : Alignment) (origin extent size : Q) :
  aligned a origin extent (cross_place a origin extent size) size.
Proof. destruct a; split; reflexivity. Qed.

Lemma Box_layoutHorizontal_loop_places cb d sizes rest :
  forall i x rest',
    (i + List.length rest = List.length sizes)%nat ->
    Box_layoutHorizontal_loop layout cb d sizes rest i x = Ok rest' ->
    in_a_row (Box.spacing_ d) x
             (map (fun c => span Horizontal (bounds c)) rest')
             (map width (skipn i sizes))
    /\ Forall2 (aligned (Box.crossAlignment_ d) (ry cb) (rheight cb))
               (map (fun c => span Vertical (bounds c)) rest')
               (map height (skipn i sizes)).
Proof.
  induction rest as [|c rest IH]; intros i x rest' Hlen;
    cbn [Box_layoutHorizontal_loop].
  - intro E. injection E as <-. cbn [List.length] in Hlen.
    rewrite skipn_all2 by lia. cbn. split; constructor.
  - destruct (at_ sizes i) as [sz|e] eqn:Ei; cbn [bind]; [|discriminate].
    pose proof (cross_place_aligned (Box.crossAlignment_ d) (ry cb)
                  (rheight cb) (height sz)) as Ha.
    destruct (cross_place _ _ _ _) as [y h].
    destruct (layout c _) as [c'|e] eqn:Ec; cbn [bind]; [|discriminate].
    destruct (Box_layoutHorizontal_loop layout cb d sizes rest _ _)
      as [r'|e] eqn:Er; cbn [bind]; [|discriminate].
    intro E. injection E as <-.
    rewrite (at_skipn _ _ _ Ei). cbn [map in_a_row].
    rewrite (layout_bounds _ _ _ Ec). cbn [span rx rwidth ry rheight fst snd].
    cbn [List.length] in Hlen.
    destruct (IH (S i) _ _ ltac:(lia) Er) as [H1 H2].
    split; [split; [reflexivity | split; [reflexivity | exact H1]]|].
    constructor; assumption.
Qed.

Lemma Box_layoutVertical_loop_places cb d sizes rest :
  forall i y rest',
    (i + List.length rest = List.length sizes)%nat ->
    Box_layoutVertical_loop layout cb d sizes rest i y = Ok rest' ->
    in_a_row (Box.spacing_ d) y
             (map (fun c => span Vertical (bounds c)) rest')
             (map height (skipn i sizes))
    /\ Forall2 (aligned (Box.crossAlignment_ d) (rx cb) (rwidth cb))
               (map (fun c => span Horizontal (bounds c)) rest')
               (map width (skipn i sizes)).
Proof.
  induction rest as [|c rest IH]; intros i y rest' Hlen;
    cbn [Box_layoutVertical_loop].
  - intro E. injection E as <-. cbn [List.length] in Hlen.
    rewrite skipn_all2 by lia. cbn. split; constructor.
  - destruct (at_ sizes i) as [sz|e] eqn:Ei; cbn [bind]; [|discriminate].
    pose proof (cross_place_aligned (Box.crossAlignment_ d) (rx cb)
                  (rwidth cb) (width sz)) as Ha.
    destruct (cross_place _ _ _ _) as [x w].
    destruct (layout c _) as [c'|e] eqn:Ec; cbn [bind]; [|discriminate].
    destruct (Box_layoutVertical_loop layout cb d sizes rest _ _)
      as [r'|e] eqn:Er; cbn [bind]; [|discriminate].
    intro E. injection E as <-.
    rewrite (at_skipn _ _ _ Ei). cbn [map in_a_row].
    rewrite (layout_bounds _ _ _ Ec). cbn [span rx rwidth ry rheight fst snd].
    cbn [List.length] in Hlen.
    destruct (IH (S i) _ _ ltac:(lia) Er) as [H1 H2].
    split; [split; [reflexivity | split; [reflexivity | exact H1]]|].
    constructor; assumption.
Qed.

Lemma layoutChildren_Box (b : WidgetBase) (d : Box.data) (cs : list Widget) :
  exists cs',
    layoutChildren (ContW b (KBox d) cs) = Ok (ContW b (KBox d) cs')
    /\ Box_layoutChildren layout (contentBounds_ b) d cs = Ok cs'.
Proof.
  destruct (layoutChildren_total (ContW b (KBox d) cs)) as [w' E].
  unfold layoutChildren in *. cbn [Widget_layoutChildren Layout_layoutChildren] in *.
  destruct (Box_layoutChildren layout (contentBounds_ b) d cs) as [cs'|e];
    cbn [bind] in *; [|discriminate].
  exists cs'. split; reflexivity.
Qed.

(** [Box::layoutChildren] for a box with children.  Every child is measured
    against the content rectangle and laid out with its measured extent along
    the direction of the box.  The first child starts where the code puts
    the row: at the start of the content rectangle ([Start], [Stretch]),
    moved by half of [extent - total] ([Center]) or by all of it ([End]),
    [total] being the measured extents added up from 0 in order plus
    [spacing_ * (n - 1)].  Each further child starts at the start of the
    previous one plus the sum of its extent and the spacing, so that with a
    spacing that is not negative no child starts before the previous one
    ends.  Across the direction each child is placed by the cross alignment:
    at the start with its measured extent, moved by half or by all of what
    is left, or stretched over the content rectangle. *)
Theorem Box_layoutChildren_places_children_in_a_row :
  forall (b : WidgetBase) (d : Box.data) (cs : list Widget),
    cs <> [] ->
    let cb := contentBounds_ b in
    let dir := Box.direction_ d in
    let sizes :=
      map (fun c => fst (measure c (mkSize (rwidth cb) (rheight cb)))) cs in
    let total :=
      fold_left (fun t size => t + along dir size) sizes 0
      + Box.spacing_ d * inject_Z (Z.of_nat (List.length cs) - 1) in
    let origin := fst (span dir cb) in
    let extent := snd (span dir cb) in
    exists cs',
      layoutChildren (ContW b (KBox d) cs) = Ok (ContW b (KBox d) cs')
      /\ let main := map (fun c => span dir (bounds c)) cs' in
         let cross := map (fun c => span (across dir) (bounds c)) cs' in
         map snd main = map (along dir) sizes
         /\ fst (hd (0, 0) main)
            = match Box.alignment_ d with
              | Center => origin + (extent - total) / 2
              | End_ => origin + (extent - total)
              | _ => origin
              end
         /\ (forall i p q,
                nth_error main i = Some p -> nth_error main (S i) = Some q ->
                fst q = fst p + (snd p + Box.spacing_ d))
         /\ (0 <= Box.spacing_ d ->
             forall i p q,
               nth_error main i = Some p -> nth_error main (S i) = Some q ->
               span_end p <= fst q)
         /\ Forall2 (aligned (Box.crossAlignment_ d)
                       (fst (span (across dir) cb))
                       (snd (span (across dir) cb)))
                    cross (map (along (across dir)) sizes).
Proof.
  intros b d cs Hne cb dir sizes total origin extent.
  destruct (layoutChildren_Box b d cs) as (cs' & E & Hbox).
  exists cs'. split; [exact E|]. clear E. fold cb in Hbox.
  unfold Box_layoutChildren in Hbox.
  destruct cs as [|c0 cs0]; [contradiction|].
  cbn [is_nil] in Hbox. set (cs := c0 :: cs0) in *.
  rewrite !map_map in Hbox. cbn [fst snd] in Hbox.
  change (map (fun x => fst (measure x (mkSize (rwidth cb) (rheight cb)))) cs)
    with sizes in Hbox.
  set (cs1 := map (fun x => snd (measure x (mkSize (rwidth cb) (rheight cb)))) cs)
    in *.
  assert (Hl1 : List.length cs1 = List.length sizes).
  { unfold cs1, sizes. rewrite !length_map. reflexivity. }
  assert (Hl : List.length cs1 = List.length cs).
  { unfold cs1. rewrite length_map. reflexivity. }
  rewrite Hl in Hbox.
  assert (Hrows :
            forall main : list (Q * Q),
              main <> [] ->
              in_a_row (Box.spacing_ d)
                (main_origin (Box.alignment_ d) origin extent total)
                main (map (along dir) sizes) ->
              map snd main = map (along dir) sizes
              /\ fst (hd (0, 0) main)
                 = match Box.alignment_ d with
                   | Center => origin + (extent - total) / 2
                   | End_ => origin + (extent - total)
                   | _ => origin
                   end
              /\ (forall i p q,
                     nth_error main i = Some p ->
                     nth_error main (S i) = Some q ->
                     fst q = fst p + (snd p + Box.spacing_ d))
              /\ (0 <= Box.spacing_ d ->
                  forall i p q,
                    nth_error main i = Some p ->
                    nth_error main (S i) = Some q ->
                    span_end p <= fst q)).
  { intros main Hmain Hrow.
    split; [apply (in_a_row_extents _ _ _ _ Hrow)|].
    split.
    { rewrite (in_a_row_first _ _ _ _ Hmain Hrow).
      destruct (Box.alignment_ d); reflexivity. }
    split; [intros i p q; apply (in_a_row_next _ _ _ _ _ _ _ Hrow)|].
    intros Hs i p q Hp Hq.
    rewrite (in_a_row_next _ _ _ _ _ _ _ Hrow Hp Hq).
    unfold span_end. lra. }
  assert (Hcs' : forall dir',
             map (fun c => span dir' (bounds c)) cs' <> [] \/ cs' = []).
  { intro dir'. destruct cs'; [right; reflexivity | left; discriminate]. }
  subst dir origin extent total. destruct (Box.direction_ d).
  - unfold Box_layoutHorizontal in Hbox.
    destruct (Box_layoutHorizontal_loop_places cb d sizes cs1 0 _ cs'
                Hl1 Hbox) as [Hrow Hcross].
    cbn [skipn] in Hrow, Hcross. cbn zeta. cbn [across].
    assert (Hmain : map (fun c => span Horizontal (bounds c)) cs' <> []).
    { destruct (Hcs' Horizontal) as [H| ->]; [exact H|].
      cbn in Hrow. contradiction. }
    destruct (Hrows _ Hmain Hrow) as (H1 & H2 & H3 & H4).
    repeat split; assumption.
  - unfold Box_layoutVertical in Hbox.
    destruct (Box_layoutVertical_loop_places cb d sizes cs1 0 _ cs'
                Hl1 Hbox) as [Hrow Hcross].
    cbn [skipn] in Hrow, Hcross. cbn zeta. cbn [across].
    assert (Hmain : map (fun c => span Vertical (bounds c)) cs' <> []).
    { destruct (Hcs' Vertical) as [H| ->]; [exact H|].
      cbn in Hrow. contradiction. }
    destruct (Hrows _ Hmain Hrow) as (H1 & H2 & H3 & H4).
    repeat split; assumption.
Qed.

(** Two texts in a horizontal box, spacing 10, packed to the end and centred
    across: the second starts 10 past the extent of the first. *)
Lemma Box_layoutChildren_places_witness :
  let d := Box.mk Horizontal 10 End_ Center in
  let b := laid_out WidgetBase_default (mkRect 0 0 300 100) in
  let cs := [Text_new "a"; Text_new "b"] in
  cs <> []
  /\ exists cs',
      layoutChildren (ContW b (KBox d) cs) = Ok (ContW b (KBox d) cs')
      /\ forall p q,
           nth_error (map (fun c => span Horizontal (bounds c)) cs') 0 = Some p ->
           nth_error (map (fun c => span Horizontal (bounds c)) cs') 1 = Some q ->
           fst q = fst p + (snd p + 10).
Proof.
  intros d b cs.
  assert (Hne : cs <> []) by discriminate.
  split; [exact Hne|].
  destruct (Box_layoutChildren_places_children_in_a_row b d cs Hne)
    as (cs' & E & _ & _ & Hnext & _).
  exists cs'. split; [exact E|].
  intros p q. exact (Hnext 0%nat p q).
Defined.

(** ** Box (vertical) and Stack: content size *)

Lemma fold_left_fmax (l : list Q) (a : Q) :
  is_maximum (fold_left fmax l a) (a :: l).
Proof.
  revert a. induction l as [|x l IH]; intro a; cbn [fold_left].
  - split.
    + intros y [<-|[]]. lra.
    + exists a. split; [left; reflexivity | reflexivity].
  - destruct (IH (fmax a x)) as [Hub (y & Hy & E)]. split.
    + intros z [<-|[<-|Hz]].
      * eapply Qle_trans; [apply fmax_lower | apply Hub; left; reflexivity].
      * eapply Qle_trans; [apply fmax_upper | apply Hub; left; reflexivity].
      * apply Hub. right. exact Hz.
    + destruct Hy as [<-|Hy].
      * destruct (fmax_cases a x) as [F|F].
        -- exists a. split; [left; reflexivity|]. rewrite E, F. reflexivity.
        -- exists x. split; [right; left; reflexivity|].
           rewrite E, F. reflexivity.
      * exists y. split; [right; right; exact Hy | exact E].
Qed.


Lemma Stack_fold (sizes : list Size) (init : Size) :
  fold_left (fun result childSize =>
               mkSize (fmax (width result) (width childSize))
                      (fmax (height result) (height childSize)))
            sizes init
  = mkSize (fold_left fmax (map width sizes) (width init))
           (fold_left fmax (map height sizes) (height init)).
Proof.
  revert init. induction sizes as [|s sizes IH]; intro init;
    cbn [fold_left map].
  - destruct init; reflexivity.
  - rewrite IH. reflexivity.
Qed.



(** The content size of a Stack: every child is measured against the whole
    available size, and the content is as wide as the widest and as high as
    the highest child, and never below 0 on either axis.  An empty Stack has
    content size (0,0). *)
Theorem Stack_content_size :
  forall (b : WidgetBase) (d : Stack.data) (cs : list Widget) (available : Size),
    let sizes := map (fun child => fst (measure child available)) cs in
    let content := measureContent (ContW b (KStack d) cs) available in
    is_maximum (width content) (0 :: map width sizes)
    /\ is_maximum (height content) (0 :: map height sizes)
    /\ (cs = [] -> content = mkSize 0 0).
Proof.
  intros b d cs available sizes content.
  subst content. cbn [measureContent Layout_measureContent].
  unfold Stack_measureContent. cbn [fst]. rewrite map_map. cbn [fst].
  fold sizes. rewrite Stack_fold. cbn [width height].
  split; [apply fold_left_fmax|]. split; [apply fold_left_fmax|].
  intros ->. reflexivity.
Qed.

(** ** Sidebar: the split *)

Lemma layout_ok (c : Widget) (r : Rect) :
  exists c',
    layout c r = Ok c' /\ bounds c' = r
    /\ forget_geometry c' = forget_geometry c.
Proof.
  destruct (layout_total c r) as [c' E]. exists c'.
  split; [exact E|]. split; [exact (layout_bounds _ _ _ E)|].
  apply (layout_fuel_frame _ _ _ _ E).
Qed.

(** [Sidebar::layoutChildren] with at least two children splits the content
    rectangle between the side pane ([children_[0]]) and the content
    ([children_[1]]) along one direction: the pane gets [sidebarSize_], the
    content [extent - sidebarSize_] (no clamping: a negative extent when the
    pane is larger than the content rectangle).  The first of the two starts
    where the content rectangle starts.  When the pane comes first ([Left],
    [Top]) the content starts at [start + sidebarSize_], which is where the
    pane ends; when it comes second ([Right], [Bottom]) it starts at
    [start + extent - sidebarSize_].  Across the direction both fill the
    content rectangle.  Children after the second are not laid out, and
    nothing but geometry changes in the two that are. *)
Theorem Sidebar_layoutChildren_splits_the_content_rectangle :
  forall (b : WidgetBase) (d : Sidebar.data) (pane content : Widget)
         (rest : list Widget),
    let cb := contentBounds_ b in
    let dir := Sidebar_axis (Sidebar.position_ d) in
    let size := Sidebar.sidebarSize_ d in
    exists pane' content',
      layoutChildren (ContW b (KSidebar d) (pane :: content :: rest))
      = Ok (ContW b (KSidebar d) (pane' :: content' :: rest))
      /\ forget_geometry pane' = forget_geometry pane
      /\ forget_geometry content' = forget_geometry content
      /\ snd (span dir (bounds pane')) = size
      /\ snd (span dir (bounds content')) = snd (span dir cb) - size
      /\ span (across dir) (bounds pane') = span (across dir) cb
      /\ span (across dir) (bounds content') = span (across dir) cb
      /\ (if Sidebar_pane_first (Sidebar.position_ d)
          then fst (span dir (bounds pane')) = fst (span dir cb)
               /\ fst (span dir (bounds content')) = fst (span dir cb) + size
               /\ fst (span dir (bounds content'))
                  = span_end (span dir (bounds pane'))
          else fst (span dir (bounds content')) = fst (span dir cb)
               /\ fst (span dir (bounds pane'))
                  = fst (span dir cb) + snd (span dir cb) - size).
Proof.
  intros b d pane content rest cb dir size. subst dir size.
  unfold layoutChildren.
  cbn [Widget_layoutChildren Layout_layoutChildren].
  unfold Sidebar_layoutChildren. fold cb.
  cbn [List.length Nat.ltb Nat.leb at_ nth_error bind].
  destruct (Sidebar.position_ d); cbn [Sidebar_axis Sidebar_pane_first across];
    match goal with
    | |- context [layout pane ?r] =>
        destruct (layout_ok pane r) as (pane' & Ep & Bp & Fp)
    end;
    match goal with
    | |- context [layout content ?r] =>
        destruct (layout_ok content r) as (content' & Ec & Bc & Fc)
    end;
    exists pane', content'; rewrite Ep, Ec; cbn [bind set_at];
    rewrite Bp, Bc; unfold span_end; cbn [span rx ry rwidth rheight fst snd];
    repeat split; try reflexivity; assumption.
Qed.

(** ** Grid: rows are filled from left to right *)

Lemma Grid_layout_loop_places cb d cw ch rest :
  forall row col rest',
    (0 <= col < Grid.columns_ d)%Z ->
    Grid_layout_loop layout cb d cw ch rest row col = Ok rest' ->
    List.length rest' = List.length rest
    /\ forall j c',
        nth_error rest' j = Some c' ->
        bounds c'
        = mkRect (rx cb
                  + of_int ((col + Z.of_nat j) mod Grid.columns_ d)
                    * (cw + Grid.spacing_ d))
                 (ry cb
                  + of_int (row + (col + Z.of_nat j) / Grid.columns_ d)
                    * (ch + Grid.spacing_ d))
                 cw ch.
Proof.
  induction rest as [|c rest IH]; intros row col rest' Hcol;
    cbn [Grid_layout_loop].
  - intro E. injection E as <-. split; [reflexivity|].
    intros [|j] c' H; discriminate.
  - destruct (layout c _) as [c1|e] eqn:Ec; cbn [bind]; [|discriminate].
    apply layout_bounds in Ec.
    destruct (col + 1 >=? Grid.columns_ d)%Z eqn:Hwrap.
    + destruct (Grid_layout_loop layout cb d cw ch rest (row + 1) 0)
        as [r'|e] eqn:Er; cbn [bind]; [|discriminate].
      intro E. injection E as <-.
      assert (Hzero : (0 <= 0 < Grid.columns_ d)%Z) by lia.
      destruct (IH _ _ _ Hzero Er) as [Hlen Hat].
      split; [cbn [List.length]; rewrite Hlen; reflexivity|].
      intros [|j] c' H; cbn [nth_error] in H.
      * injection H as <-. rewrite Ec.
        rewrite Z.add_0_r, Z.mod_small, Z.div_small, Z.add_0_r by lia.
        reflexivity.
      * rewrite (Hat _ _ H).
        assert (Hc : (col + Z.of_nat (S j)
                      = 0 + Z.of_nat j + 1 * Grid.columns_ d)%Z) by lia.
        rewrite Hc, Z.mod_add, Z.div_add by lia.
        replace (row + ((0 + Z.of_nat j) / Grid.columns_ d + 1))%Z
          with (row + 1 + (0 + Z.of_nat j) / Grid.columns_ d)%Z by lia.
        reflexivity.
    + destruct (Grid_layout_loop layout cb d cw ch rest row (col + 1))
        as [r'|e] eqn:Er; cbn [bind]; [|discriminate].
      intro E. injection E as <-.
      assert (Hnext : (0 <= col + 1 < Grid.columns_ d)%Z) by lia.
      destruct (IH _ _ _ Hnext Er) as [Hlen Hat].
      split; [cbn [List.length]; rewrite Hlen; reflexivity|].
      intros [|j] c' H; cbn [nth_error] in H.
      * injection H as <-. rewrite Ec.
        rewrite Z.add_0_r, Z.mod_small, Z.div_small, Z.add_0_r by lia.
        reflexivity.
      * rewrite (Hat _ _ H).
        replace (col + 1 + Z.of_nat j)%Z with (col + Z.of_nat (S j))%Z by lia.
        reflexivity.
Qed.

(** [Grid::layoutChildren] for a grid with children and a positive number of
    columns.  All cells have the same size; child [i] goes to column
    [i mod columns] of row [i / columns], at
    [x + column * (cellWidth + spacing)] and [y + row * (cellHeight + spacing)].
    A cell is as wide as [cellSize_] says when that is positive, and
    otherwise [(width - spacing * (columns - 1)) / columns] of the content
    rectangle; it is as high as [cellSize_] says when that is positive, and
    square otherwise.  [measureContent] against the content rectangle works
    with the same cells: it reports [cellWidth * columns + spacing * (columns
    - 1)] by [cellHeight * rows + spacing * (rows - 1)], and its [rows] is
    the number of rows the placement uses: every child is in a row below
    [rows], the last child in row [rows - 1]. *)
Theorem Grid_layoutChildren_fills_rows_left_to_right :
  forall (b : WidgetBase) (d : Grid.data) (cs : list Widget),
    cs <> [] -> (0 < Grid.columns_ d)%Z ->
    let cb := contentBounds_ b in
    let cols := Grid.columns_ d in
    let sp := Grid.spacing_ d in
    let content :=
      measureContent (ContW b (KGrid d) cs) (mkSize (rwidth cb) (rheight cb)) in
    exists cs' cw ch rows,
      layoutChildren (ContW b (KGrid d) cs) = Ok (ContW b (KGrid d) cs')
      /\ List.length cs' = List.length cs
      /\ (forall i c',
             nth_error cs' i = Some c' ->
             bounds c'
             = mkRect (rx cb + of_int (Z.of_nat i mod cols) * (cw + sp))
                      (ry cb + of_int (Z.of_nat i / cols) * (ch + sp))
                      cw ch
             /\ (0 <= Z.of_nat i mod cols < cols)%Z
             /\ (0 <= Z.of_nat i / cols < rows)%Z)
      /\ (0 < width (Grid.cellSize_ d) -> cw = width (Grid.cellSize_ d))
      /\ (width (Grid.cellSize_ d) <= 0 ->
          cw = (rwidth cb - sp * of_int (cols - 1)) / of_int cols)
      /\ (0 < height (Grid.cellSize_ d) -> ch = height (Grid.cellSize_ d))
      /\ (height (Grid.cellSize_ d) <= 0 -> ch = cw)
      /\ content
         = mkSize (cw * of_int cols + sp * of_int (cols - 1))
                  (ch * of_int rows + sp * of_int (rows - 1))
      /\ (Z.of_nat (List.length cs - 1) / cols = rows - 1)%Z.
Proof.
  intros b d cs Hne Hcols cb cols sp content.
  destruct cs as [|c0 cs0]; [contradiction|]. set (cs := c0 :: cs0) in *.
  set (cw := if Qgtb (width (Grid.cellSize_ d)) 0
             then width (Grid.cellSize_ d)
             else (rwidth cb - sp * of_int (cols - 1)) / of_int cols).
  set (ch := if Qgtb (height (Grid.cellSize_ d)) 0
             then height (Grid.cellSize_ d) else cw).
  set (rows := ((Z.of_nat (List.length cs) + cols - 1) / cols)%Z).
  assert (Hpos : (Grid.columns_ d <=? 0)%Z = false) by (apply Z.leb_gt; lia).
  assert (Hlay : Layout_layoutChildren layout cb (KGrid d) cs
                 = Grid_layout_loop layout cb d cw ch cs 0 0).
  { cbn [Layout_layoutChildren]. unfold Grid_layoutChildren.
    unfold cs at 1. cbn [is_nil orb]. rewrite Hpos. reflexivity. }
  destruct (Layout_layoutChildren_total layout cs
              (fun c r _ => layout_total c r) cb (KGrid d)) as [cs' E].
  rewrite Hlay in E.
  assert (Hzero : (0 <= 0 < Grid.columns_ d)%Z) by lia.
  destruct (Grid_layout_loop_places cb d cw ch cs 0 0 cs' Hzero E)
    as [Hlen Hat].
  assert (Hcontent : content
                     = mkSize (cw * of_int cols + sp * of_int (cols - 1))
                              (ch * of_int rows + sp * of_int (rows - 1))).
  { unfold content, measureContent. cbn [Layout_measureContent].
    unfold Grid_measureContent, cs. rewrite Hpos. reflexivity. }
  assert (Hrows : (rows = (Z.of_nat (List.length cs) - 1) / cols + 1)%Z).
  { unfold rows.
    replace (Z.of_nat (List.length cs) + cols - 1)%Z
      with (Z.of_nat (List.length cs) - 1 + 1 * cols)%Z by lia.
    rewrite Z.div_add by lia. reflexivity. }
  exists cs', cw, ch, rows.
  split.
  { unfold layoutChildren. cbn [Widget_layoutChildren]. fold cb.
    rewrite Hlay, E. reflexivity. }
  split; [exact Hlen|].
  split.
  { intros i c' H. rewrite (Hat _ _ H). rewrite !Z.add_0_l.
    split; [reflexivity|].
    assert (Hi : (i < List.length cs)%nat).
    { rewrite <- Hlen. apply nth_error_Some. rewrite H. discriminate. }
    split; [apply Z.mod_pos_bound; exact Hcols|].
    split; [apply Z.div_pos; lia|].
    rewrite Hrows.
    assert (Z.of_nat i / cols <= (Z.of_nat (List.length cs) - 1) / cols)%Z
      by (apply Z.div_le_mono; lia).
    lia. }
  split.
  { intro H. unfold cw. apply Qltb_lt in H. unfold Qgtb. rewrite H.
    reflexivity. }
  split.
  { intro H. unfold cw. apply Qltb_ge in H. unfold Qgtb. rewrite H.
    reflexivity. }
  split.
  { intro H. unfold ch. apply Qltb_lt in H. unfold Qgtb. rewrite H.
    reflexivity. }
  split.
  { intro H. unfold ch. apply Qltb_ge in H. unfold Qgtb. rewrite H.
    reflexivity. }
  split; [exact Hcontent|].
  rewrite Hrows.
  assert (Hn : (Z.of_nat (List.length cs - 1) = Z.of_nat (List.length cs) - 1)%Z).
  { unfold cs. cbn [List.length]. lia. }
  rewrite Hn. lia.
Qed.

(** Three texts in a grid of two columns, spacing 10, in a content rectangle
    of 100 by 100: the cells are (100 - 10 * 1) / 2 wide and as high, and
    the third text starts the second row. *)
Lemma Grid_layoutChildren_witness :
  let b := laid_out WidgetBase_default (mkRect 0 0 100 100) in
  let d := Grid.mk 2 10 (mkSize 0 0) in
  let cs := [Text_new "a"; Text_new "b"; Text_new "c"] in
  exists cs' cw,
    layoutChildren (ContW b (KGrid d) cs) = Ok (ContW b (KGrid d) cs')
    /\ cw = (100 - 10 * of_int (2 - 1)) / of_int 2
    /\ forall c', nth_error cs' 2 = Some c' ->
                  bounds c'
                  = mkRect (0 + of_int 0 * (cw + 10)) (0 + of_int 1 * (cw + 10))
                           cw cw.
Proof.
  intros b d cs.
  assert (Hne : cs <> []) by discriminate.
  assert (Hcols : (0 < Grid.columns_ d)%Z) by reflexivity.
  destruct (Grid_layoutChildren_fills_rows_left_to_right b d cs Hne Hcols)
    as (cs' & cw & ch & rows & E & _ & Hat & _ & Hw & _ & Hh & _).
  assert (Hle : width (Grid.cellSize_ d) <= 0) by (cbn; lra).
  assert (Hle' : height (Grid.cellSize_ d) <= 0) by (cbn; lra).
  exists cs', cw. split; [exact E|]. split.
  - exact (Hw Hle).
  - intros c' H. destruct (Hat _ _ H) as [Hb _]. rewrite Hb.
    rewrite (Hh Hle'). reflexivity.
Defined.

(** ** ScrollView: what scrolling does to the content *)

(** A scroll event inside the content rectangle of a ScrollView with
    children moves the first child, and only the first child: it is measured
    without bound along the scroll direction and against the content
    rectangle across it, and laid out with that size at the origin of the
    content rectangle less the new scroll offset.  The other children are
    never laid out.  Nothing but geometry changes in the first child. *)
Theorem ScrollView_scroll_moves_the_first_child :
  forall (b : WidgetBase) (d : ScrollView.data) (c : Widget) (cs : list Widget)
         (event : ScrollEvent),
    contains (contentBounds_ b) (sposition event) = true ->
    let cb := contentBounds_ b in
    let unbounded := 1000000000 in
    let offered :=
      match ScrollView.scrollDir_ d with
      | Horizontal => mkSize unbounded (rheight cb)
      | Vertical => mkSize (rwidth cb) unbounded
      end in
    exists d' c',
      handleScroll (ContW b (KScrollView d) (c :: cs)) event
      = Ok (true, ContW b (KScrollView d') (c' :: cs))
      /\ ScrollView.scrollDir_ d' = ScrollView.scrollDir_ d
      /\ bounds c'
         = mkRect (rx cb - px (ScrollView.scrollOffset_ d'))
                  (ry cb - py (ScrollView.scrollOffset_ d'))
                  (width (fst (measure c offered)))
                  (height (fst (measure c offered)))
      /\ forget_geometry c' = forget_geometry c.
Proof.
  intros b d c cs event Hin cb unbounded offered.
  cbn [handleScroll]. unfold ScrollView_handleScroll. rewrite Hin.
  cbn [negb]. unfold layoutChildren.
  cbn [Widget_layoutChildren Layout_layoutChildren].
  unfold ScrollView_layoutChildren.
  cbn [is_nil at_ nth_error bind ScrollView.scrollDir_ ScrollView.scrollOffset_].
  fold cb.
  match goal with
  | |- context [ScrollView.mk _ ?o] => set (off' := o)
  end.
  assert (Hoff : mkSize (if Direction_eqb (ScrollView.scrollDir_ d) Horizontal
                         then 1000000000 else rwidth cb)
                        (if Direction_eqb (ScrollView.scrollDir_ d) Vertical
                         then 1000000000 else rheight cb)
                 = offered).
  { unfold offered, unbounded. destruct (ScrollView.scrollDir_ d); reflexivity. }
  rewrite Hoff.
  pose proof (measure_keeps_all_but_geometry c offered) as Hm.
  destruct (measure c offered) as [sz c1]. cbn [fst snd] in Hm |- *.
  match goal with
  | |- context [layout c1 ?r] =>
      destruct (layout_ok c1 r) as (c' & E & Hb & Hf)
  end.
  exists (ScrollView.mk (ScrollView.scrollDir_ d) off'), c'.
  rewrite E. cbn [bind set_at]. split; [reflexivity|].
  split; [reflexivity|]. split; [exact Hb|].
  rewrite Hf. exact Hm.
Qed.

(** A vertical scroll view at (0,0,100,100) holding a text; the wheel turns
    by -2: the text moves up by 40. *)
Lemma ScrollView_scroll_witness :
  exists d' c',
    handleScroll (a_scroll_view Vertical [Text_new "long"])
                 (mkScrollEvent (mkPoint 50 50) 0 (-2))
    = Ok (true,
          ContW (laid_out WidgetBase_default (mkRect 0 0 100 100))
                (KScrollView d') [c'])
    /\ ry (bounds c') == -40.
Proof.
  destruct (ScrollView_scroll_moves_the_first_child
              (laid_out WidgetBase_default (mkRect 0 0 100 100))
              (ScrollView.mk Vertical (mkPoint 0 0)) (Text_new "long") []
              (mkScrollEvent (mkPoint 50 50) 0 (-2)) eq_refl)
    as (d' & c' & E & _ & Hb & _).
  exists d', c'. split; [exact E|].
  rewrite Hb. cbn [ry].
  unfold handleScroll, a_scroll_view, ScrollView_handleScroll in E.
  cbn [laid_out set_bounds contentBounds_ contains] in E.
  vm_compute in E. injection E as <- _. vm_compute. reflexivity.
Defined.

(** ** Button: the colour drawn is stored in the style *)

(** [Button::render] writes the colour it draws with into
    [style_.background], so the idle background does not survive a render in
    the hovered state.  The pointer moves onto an unpressed button, the
    button is rendered, the pointer leaves, the button is rendered again: the
    second render finds the button not hovered and still draws with the
    hover colour, which is now its style's background. *)
Theorem Button_keeps_the_hover_colour_after_the_pointer_left :
  forall (r : Renderer) (b : WidgetBase) (d : Button.data)
         (enter leave : MouseEvent),
    Button.pressed_ d = false ->
    contains (bounds_ b) (position enter) = true ->
    contains (bounds_ b) (position leave) = false ->
    let w1 := snd (fst (handleMouseMove (LeafW b (KButton d)) enter)) in
    exists w2 calls2 w3 w4 calls4,
      render r w1 = Ok (w2, calls2)
      /\ w3 = snd (fst (handleMouseMove w2 leave))
      /\ hovered_ (base w3) = false
      /\ render r w3 = Ok (w4, calls4)
      /\ background (style_ (base w2)) = Button.hoverBg_ d
      /\ background (style_ (base w4)) = Button.hoverBg_ d
      /\ exists text_calls, calls4 = Widget_render (base w4) ++ text_calls.
Proof.
  intros r b d enter leave Hp Hin Hout w1. subst w1.
  cbn [handleMouseMove Leaf_handleMouseMove].
  unfold Button_handleMouseMove, Widget_handleMouseMove. rewrite Hin.
  cbn [fst snd render Leaf_render].
  unfold Button_render at 1.
  cbn [Button.pressed_ Button.label_ Button.iconPath_ Button.textStyle_
       Button.hoverBg_ Button.activeBg_ hovered_ set_hovered].
  rewrite Hp.
  eexists _, _, _, _, _.
  split; [reflexivity|].
  cbn [handleMouseMove Leaf_handleMouseMove].
  unfold Button_handleMouseMove, Widget_handleMouseMove.
  cbn [bounds_ set_style set_hovered]. rewrite Hout.
  cbn [fst snd base hovered_ set_hovered].
  split; [reflexivity|]. split; [reflexivity|].
  cbn [render Leaf_render]. unfold Button_render.
  cbn [Button.pressed_ Button.label_ Button.iconPath_ Button.textStyle_
       Button.hoverBg_ Button.activeBg_ hovered_ set_hovered].
  split; [reflexivity|].
  cbn [base style_ set_style background set_background].
  split; [reflexivity|]. split; [reflexivity|].
  eexists. reflexivity.
Qed.

(** The button "OK" at (0,0,100,40): the pointer enters at (10,10) and
    leaves to (500,500). *)
Lemma Button_keeps_the_hover_colour_witness :
  let b := laid_out WidgetBase_default (mkRect 0 0 100 40) in
  let w1 := snd (fst (handleMouseMove (LeafW b (KButton a_button))
                        (move_to 10 10))) in
  exists w2 calls2 w4 calls4,
    render a_renderer w1 = Ok (w2, calls2)
    /\ render a_renderer (snd (fst (handleMouseMove w2 (move_to 500 500))))
       = Ok (w4, calls4)
    /\ background (style_ (base w4)) = fromHex 0x2563ebff.
Proof.
  intros b w1.
  destruct (Button_keeps_the_hover_colour_after_the_pointer_left
              a_renderer b a_button (move_to 10 10) (move_to 500 500)
              eq_refl eq_refl eq_refl)
    as (w2 & calls2 & w3 & w4 & calls4 & E2 & E3 & _ & E4 & _ & Hbg & _).
  exists w2, calls2, w4, calls4. subst w3.
  split; [exact E2|]. split; [exact E4|]. exact Hbg.
Defined.

(** ** Nothing throws: the cursor invariant of the text inputs *)

Lemma flat_map_inputs_map (f : Widget -> Widget) (cs : list Widget) :
  Forall (fun c => inputs (f c) = inputs c) cs ->
  flat_map inputs (map f cs) = flat_map inputs cs.
Proof.
  induction 1 as [|c cs Hc _ IH]; cbn [map flat_map]; [reflexivity|].
  rewrite Hc, IH. reflexivity.
Qed.

Lemma inputs_forget_geometry (w : Widget) :
  inputs (forget_geometry w) = inputs w.
Proof.
  induction w as [b k | b k cs IH] using Widget_tree_ind.
  - destruct k; reflexivity.
  - cbn [forget_geometry inputs]. apply flat_map_inputs_map. exact IH.
Qed.

Lemma same_geometry_inputs (w w' : Widget) :
  forget_geometry w' = forget_geometry w -> inputs w' = inputs w.
Proof.
  intro H. rewrite <- (inputs_forget_geometry w'), H.
  apply inputs_forget_geometry.
Qed.

Lemma same_geometry_list_inputs (cs cs' : list Widget) :
  map forget_geometry cs' = map forget_geometry cs ->
  flat_map inputs cs' = flat_map inputs cs.
Proof.
  revert cs'. induction cs as [|c cs IH]; intros [|c' cs'] H;
    try discriminate; [reflexivity|].
  cbn [map] in H. injection H as Hc Hcs. cbn [flat_map].
  rewrite (same_geometry_inputs _ _ Hc), (IH _ Hcs). reflexivity.
Qed.

Lemma measure_keeps_inputs (w : Widget) (a : Size) :
  inputs (snd (measure w a)) = inputs w.
Proof. apply same_geometry_inputs, measure_keeps_all_but_geometry. Qed.

Lemma layout_keeps_inputs (w w' : Widget) (rect : Rect) :
  layout w rect = Ok w' -> inputs w' = inputs w.
Proof.
  intro E. apply same_geometry_inputs. apply (layout_fuel_frame _ _ _ _ E).
Qed.

Lemma layoutChildren_keeps_inputs (w w' : Widget) :
  layoutChildren w = Ok w' -> inputs w' = inputs w.
Proof.
  unfold layoutChildren. destruct w as [b k | b k cs];
    cbn [Widget_layoutChildren].
  - intro E. injection E as <-. reflexivity.
  - destruct (Layout_layoutChildren layout _ k cs) as [cs'|e] eqn:Ec;
      cbn [bind]; [|discriminate].
    intro E. injection E as <-. cbn [inputs].
    apply same_geometry_list_inputs.
    apply (Layout_layoutChildren_frame layout
             (fun c r c' H => proj1 (layout_fuel_frame _ _ _ _ H)) _ _ _ _ Ec).
Qed.

Lemma handleScroll_keeps_inputs (w w' : Widget) (event : ScrollEvent) (r : bool) :
  handleScroll w event = Ok (r, w') -> inputs w' = inputs w.
Proof.
  destruct w as [b k | b k cs]; cbn [handleScroll].
  - intro E. injection E as _ <-. reflexivity.
  - destruct k; try (intro E; injection E as _ <-; reflexivity).
    unfold ScrollView_handleScroll.
    destruct (negb (contains (contentBounds_ b) (sposition event))).
    + intro E. injection E as _ <-. reflexivity.
    + match goal with
      | |- context [layoutChildren ?s] =>
          destruct (layoutChildren s) as [w1|e] eqn:E1; cbn [bind];
          [|discriminate]
      end.
      intro E. injection E as _ <-.
      rewrite (layoutChildren_keeps_inputs _ _ E1). reflexivity.
Qed.

Lemma offer_in_order_keeps_inputs
    (handle : Widget -> bool * Widget * list Fired) (cs : list Widget) :
  Forall (fun c => inputs (snd (fst (handle c))) = inputs c) cs ->
  flat_map inputs (snd (fst (offer_in_order handle cs))) = flat_map inputs cs.
Proof.
  induction 1 as [|c cs Hc _ IH]; cbn [offer_in_order]; [reflexivity|].
  destruct (handle c) as [[r c'] fired]. cbn [fst snd] in Hc.
  destruct r.
  - cbn [fst snd flat_map]. rewrite Hc. reflexivity.
  - destruct (offer_in_order handle cs) as [[r' cs'] fired'].
    cbn [fst snd flat_map] in *. rewrite Hc, IH. reflexivity.
Qed.

Lemma handleMouseButton_keeps_inputs (w : Widget) (event : MouseEvent) :
  inputs (snd (fst (handleMouseButton w event))) = inputs w.
Proof.
  induction w as [b k | b k cs IH] using Widget_tree_ind;
    cbn [handleMouseButton].
  - unfold Leaf_handleMouseButton.
    destruct k;
      repeat match goal with
             | |- context [match ?x with (_, _) => _ end] => destruct x
             end; reflexivity.
  - destruct (Widget_handleMouseButton b event) as [[|] fired]; [reflexivity|].
    pose proof (offer_in_order_keeps_inputs
                  (fun child => handleMouseButton child event) cs IH) as H.
    destruct (offer_in_order _ cs) as [[r cs'] fired'].
    cbn [fst snd inputs] in *. exact H.
Qed.

Lemma handleMouseMove_keeps_inputs (w : Widget) (event : MouseEvent) :
  inputs (snd (fst (handleMouseMove w event))) = inputs w.
Proof.
  induction w as [b k | b k cs IH] using Widget_tree_ind;
    cbn [handleMouseMove].
  - unfold Leaf_handleMouseMove.
    destruct k;
      repeat match goal with
             | |- context [match ?x with (_, _) => _ end] => destruct x
             end; reflexivity.
  - destruct (Widget_handleMouseMove b event) as [[r0 b'] fired].
    pose proof (offer_in_order_keeps_inputs
                  (fun child => handleMouseMove child event) cs IH) as H.
    destruct (offer_in_order _ cs) as [[r cs'] fired'].
    cbn [fst snd inputs] in *. exact H.
Qed.

Lemma TextInput_render_returns (r : Renderer) (b : WidgetBase)
    (d : TextInput.data) :
  cursor_in_range d ->
  exists b' calls, TextInput_render r b d = Ok (b', calls).
Proof.
  intro H. unfold cursor_in_range in H. unfold TextInput_render.
  destruct (loadFont r _ _); [|eexists _, _; reflexivity].
  destruct (focused_ _); [|eexists _, _; reflexivity].
  eexists _, _. reflexivity.
Qed.

Lemma render_children_returns (r : Renderer) (cs : list Widget) :
  Forall (fun c => cursors_in_range c ->
                   exists c' calls,
                     render r c = Ok (c', calls) /\ inputs c' = inputs c) cs ->
  Forall cursor_in_range (flat_map inputs cs) ->
  exists cs' calls,
    render_children isVisible (render r) cs = Ok (cs', calls)
    /\ flat_map inputs cs' = flat_map inputs cs.
Proof.
  induction 1 as [|c cs Hc _ IH]; cbn [render_children flat_map]; intro Hin.
  - exists [], []. split; reflexivity.
  - apply Forall_app in Hin. destruct Hin as [Hin1 Hin2].
    destruct (IH Hin2) as (cs' & calls' & E' & I').
    destruct (isVisible c).
    + destruct (Hc Hin1) as (c' & calls & E & I). rewrite E. cbn [bind].
      rewrite E'. cbn [bind]. eexists _, _. split; [reflexivity|].
      cbn [flat_map]. rewrite I, I'. reflexivity.
    + cbn [bind]. rewrite E'. cbn [bind]. eexists _, _.
      split; [reflexivity|]. cbn [flat_map]. rewrite I'. reflexivity.
Qed.

Lemma render_returns (r : Renderer) (w : Widget) :
  cursors_in_range w ->
  exists w' calls, render r w = Ok (w', calls) /\ inputs w' = inputs w.
Proof.
  induction w as [b k | b k cs IH] using Widget_tree_ind; intro Hin;
    cbn [render].
  - unfold Leaf_render.
    destruct k;
      try (repeat match goal with
                  | |- context [match ?x with (_, _) => _ end] => destruct x
                  end; eexists _, _; split; reflexivity).
    unfold cursors_in_range in Hin. cbn [inputs] in Hin.
    apply Forall_inv in Hin.
    destruct (TextInput_render_returns r b d Hin) as (b' & calls & E).
    rewrite E. cbn [bind]. eexists _, _. split; reflexivity.
  - destruct (render_children_returns r cs IH Hin) as (cs' & calls & E & I).
    rewrite E. cbn [bind]. eexists _, _. split; [reflexivity|]. exact I.
Qed.

(** The cursor of every text input of a tree is an index into its buffer or
    its end: this holds for trees built with the constructors and [value],
    and it is an invariant of every operation on the tree.  Under it
    [render] returns for every renderer and [handleKeyEvent] returns for
    every key event (no [std::out_of_range] from [substr], [erase] or
    [insert]); and it holds again after [measure], [layout],
    [handleMouseMove], [handleMouseButton], [handleScroll], [handleKeyEvent]
    and [render]. *)
Theorem cursors_stay_in_range_and_nothing_throws :
  forall (w : Widget),
    cursors_in_range w ->
    (forall r, exists w' calls,
          render r w = Ok (w', calls) /\ cursors_in_range w')
    /\ (forall event, exists consumed w' fired,
           handleKeyEvent w event = Ok (consumed, w', fired)
           /\ cursors_in_range w')
    /\ (forall a, cursors_in_range (snd (measure w a)))
    /\ (forall rect, exists w',
           layout w rect = Ok w' /\ cursors_in_range w')
    /\ (forall event, cursors_in_range (snd (fst (handleMouseMove w event))))
    /\ (forall event, cursors_in_range (snd (fst (handleMouseButton w event))))
    /\ (forall event, exists consumed w',
           handleScroll w event = Ok (consumed, w') /\ cursors_in_range w').
Proof.
  intros w Hin. unfold cursors_in_range in *.
  split.
  { intro r. destruct (render_returns r w Hin) as (w' & calls & E & I).
    exists w', calls. split; [exact E|]. rewrite I. exact Hin. }
  split.
  { intro event. destruct w as [b k | b k cs]; cbn [handleKeyEvent];
      [|eexists _, _, _; split; [reflexivity | exact Hin]].
    destruct k; try (eexists _, _, _; split; [reflexivity | exact Hin]).
    cbn [inputs] in Hin. apply Forall_inv in Hin.
    destruct (focused_ b) eqn:Hf.
    - destruct (TextInput_handleKeyEvent_focused b d event Hf Hin)
        as (d' & fired & E & Hr & _).
      rewrite E. cbn [bind]. eexists _, _, _. split; [reflexivity|].
      cbn [inputs]. constructor; [exact Hr | constructor].
    - unfold TextInput_handleKeyEvent. rewrite Hf. cbn [negb bind].
      eexists _, _, _. split; [reflexivity|].
      cbn [inputs]. constructor; [exact Hin | constructor]. }
  split.
  { intro a. rewrite measure_keeps_inputs. exact Hin. }
  split.
  { intro rect. destruct (layout_total w rect) as [w' E]. exists w'.
    split; [exact E|]. rewrite (layout_keeps_inputs _ _ _ E). exact Hin. }
  split.
  { intro event. rewrite handleMouseMove_keeps_inputs. exact Hin. }
  split.
  { intro event. rewrite handleMouseButton_keeps_inputs. exact Hin. }
  intro event.
  assert (Hs : exists consumed w', handleScroll w event = Ok (consumed, w')).
  { destruct w as [b k | b k cs]; cbn [handleScroll];
      [eexists _, _; reflexivity|].
    destruct k; try (eexists _, _; reflexivity).
    unfold ScrollView_handleScroll.
    destruct (negb (contains (contentBounds_ b) (sposition event)));
      [eexists _, _; reflexivity|].
    match goal with
    | |- context [layoutChildren ?s] =>
        destruct (layoutChildren_total s) as [w1 E1]; rewrite E1
    end.
    cbn [bind]. eexists _, _. reflexivity. }
  destruct Hs as (consumed & w' & E). exists consumed, w'.
  split; [exact E|]. rewrite (handleScroll_keeps_inputs _ _ _ _ E). exact Hin.
Qed.

(** A focused text input holding "abc" beside a button, in a box. *)
Lemma cursors_stay_in_range_witness :
  let field :=
    LeafW (set_focused WidgetBase_default true)
          (KTextInput (TextInput_value (TextInput_new "name") "abc")) in
  let w := Box_new Horizontal 4 [field; Button_new "OK"] in
  cursors_in_range w
  /\ exists w' calls, render a_renderer w = Ok (w', calls)
                      /\ cursors_in_range w'.
Proof.
  intros field w.
  assert (Hin : cursors_in_range w).
  { unfold cursors_in_range. cbn. constructor; [|constructor].
    unfold cursor_in_range. cbn. lia. }
  split; [exact Hin|].
  destruct (cursors_stay_in_range_and_nothing_throws w Hin) as [H _].
  exact (H a_renderer).
Defined.

(** ** Slider and ProgressBar: the fill stays within the track *)

Lemma Qdiv_unit (a b : Q) : 0 < b -> 0 <= a <= b -> 0 <= a / b <= 1.
Proof.
  intros Hb [H0 H1]. split.
  - apply Qle_shift_div_l; [exact Hb | lra].
  - apply Qle_shift_div_r; [exact Hb | lra].
Qed.

Lemma Qmult_unit (t w : Q) : 0 <= t <= 1 -> 0 <= w -> 0 <= t * w <= w.
Proof. intros [H0 H1] Hw. split; nra. Qed.

(** A slider with [min < max] whose content rectangle is its bounds (no
    padding) and is not empty.  After [updateValue(mouseX)], which a press or
    a drag runs, [render] draws the fill from the left end of the track and
    the thumb (16 wide) centred on the end of the fill; the width of the
    fill lies between 0 and the width of the track, and it never shrinks
    when the pointer moves to the right. *)
Theorem Slider_fill_stays_in_the_track_and_is_monotone :
  forall (b : WidgetBase) (d : Slider.data),
    Slider.min_ d < Slider.max_ d ->
    0 < rwidth (bounds_ b) ->
    contentBounds_ b = bounds_ b ->
    let cb := contentBounds_ b in
    let fill_at mouseX :=
      (Slider.value_ (fst (Slider_updateValue b d mouseX)) - Slider.min_ d)
      / (Slider.max_ d - Slider.min_ d) * rwidth cb in
    (forall mouseX,
        Slider_render b (fst (Slider_updateValue b d mouseX))
        = Widget_render b
          ++ [drawRoundedRect
                (mkRect (rx cb) (ry cb) (fill_at mouseX) (rheight cb))
                (borderRadius (style_ b)) (Slider.fillColor_ d);
              drawRoundedRect
                (mkRect (rx cb + fill_at mouseX - 8) (ry cb - 5)
                        16 (rheight cb + 10))
                (BorderRadius_all 8) (Slider.thumbColor_ d)])
    /\ (forall mouseX, 0 <= fill_at mouseX <= rwidth cb)
    /\ (forall mouseX mouseX',
           mouseX <= mouseX' -> fill_at mouseX <= fill_at mouseX').
Proof.
  intros b d Hmm Hw Hcb cb fill_at. subst cb fill_at. cbv beta.
  rewrite Hcb.
  set (lo := Slider.min_ d) in *. set (hi := Slider.max_ d) in *.
  set (x := rx (bounds_ b)). set (w := rwidth (bounds_ b)) in *.
  assert (Hle : lo <= hi) by lra.
  assert (Hspan : 0 < hi - lo) by lra.
  split; [|split].
  - intro mouseX. unfold Slider_updateValue, Slider_render.
    cbn [fst set_value Slider.min_ Slider.max_ Slider.value_
         Slider.fillColor_ Slider.thumbColor_].
    rewrite Hcb. reflexivity.
  - intro mouseX. rewrite Slider_updateValue_value. fold lo hi x w.
    set (raw := lo + (mouseX - x) / w * (hi - lo)).
    apply Qmult_unit; [|lra]. apply Qdiv_unit; [lra|].
    pose proof (clamp_range raw lo hi Hle). lra.
  - intros mouseX mouseX' Hxy. rewrite !Slider_updateValue_value.
    fold lo hi x w.
    assert (Hn : (mouseX - x) / w <= (mouseX' - x) / w).
    { apply normalized_monotone; [exact Hw | lra]. }
    pose proof (Qmult_le_compat_r _ _ (hi - lo) Hn (Qlt_le_weak _ _ Hspan))
      as Hp.
    assert (Hc : clamp (lo + (mouseX - x) / w * (hi - lo)) lo hi
                 <= clamp (lo + (mouseX' - x) / w * (hi - lo)) lo hi).
    { apply clamp_monotone; [exact Hle | lra]. }
    apply Qmult_le_compat_r; [|lra].
    apply normalized_monotone; [exact Hspan | lra].
Qed.

(** The default slider on a track from 10 to 210: wherever the pointer is,
    the fill drawn after [updateValue] is between 0 and 200 wide. *)
Lemma Slider_fill_stays_in_the_track_witness :
  let b := laid_out WidgetBase_default (mkRect 10 0 200 20) in
  Slider.min_ a_slider < Slider.max_ a_slider
  /\ 0 < rwidth (bounds_ b)
  /\ contentBounds_ b = bounds_ b
  /\ (forall mouseX,
         0 <= (Slider.value_ (fst (Slider_updateValue b a_slider mouseX))
               - Slider.min_ a_slider)
              / (Slider.max_ a_slider - Slider.min_ a_slider)
              * rwidth (contentBounds_ b)
           <= rwidth (contentBounds_ b)).
Proof.
  intro b.
  assert (H1 : Slider.min_ a_slider < Slider.max_ a_slider) by reflexivity.
  assert (H2 : 0 < rwidth (bounds_ b)) by reflexivity.
  assert (H3 : contentBounds_ b = bounds_ b) by reflexivity.
  split; [exact H1|]. split; [exact H2|]. split; [exact H3|].
  exact (proj1 (proj2
           (Slider_fill_stays_in_the_track_and_is_monotone b a_slider H1 H2 H3))).
Defined.

Lemma to_int_range (x : Q) (n : Z) :
  0 <= x <= inject_Z n -> (0 <= to_int x <= n)%Z.
Proof.
  intros [H0 H1]. unfold to_int. unfold Qle in *. cbn in H0, H1.
  rewrite Z.mul_1_r in H0, H1.
  rewrite Z.quot_div_nonneg by lia. split.
  - apply Z.div_pos; lia.
  - apply Z.div_le_upper_bound; lia.
Qed.

(** After [progress(p)], for any [p], a progress bar whose content rectangle
    is not of negative width draws a fill between 0 and the width of the
    content rectangle, and the percentage it prints, when it prints one, is a
    whole number between 0 and 100. *)
Theorem ProgressBar_fill_and_percentage_stay_in_range :
  forall (r : Renderer) (b : WidgetBase) (d : ProgressBar.data) (p : Q),
    0 <= rwidth (contentBounds_ b) ->
    let d' := ProgressBar_progress d p in
    let cb := contentBounds_ b in
    exists fill percent label,
      ProgressBar_render r b d'
      = Widget_render b
        ++ [drawRoundedRect (mkRect (rx cb) (ry cb) fill (rheight cb))
                            (borderRadius (style_ b))
                            (ProgressBar.fillColor_ d)]
        ++ label
      /\ 0 <= fill <= rwidth cb
      /\ (0 <= percent <= 100)%Z
      /\ forall call, In call label ->
           exists pos font color ts,
             call = drawText (to_string percent ++ "%") pos font color ts.
Proof.
  intros r b d p Hw d' cb. subst d' cb.
  unfold ProgressBar_render, ProgressBar_progress.
  cbn [ProgressBar.progress_ ProgressBar.fillColor_ ProgressBar.showText_].
  pose proof (clamp_range p 0 1 ltac:(lra)) as Hc.
  exists (clamp p 0 1 * rwidth (contentBounds_ b)),
         (to_int (clamp p 0 1 * 100)).
  eexists. split; [reflexivity|].
  split; [apply Qmult_unit; assumption|].
  split.
  { apply to_int_range. change (inject_Z 100) with 100. lra. }
  intros call Hin.
  destruct (ProgressBar.showText_ d && Qgeb (rheight (contentBounds_ b)) 14);
    [|destruct Hin].
  destruct (loadFont r "" 10); [|destruct Hin].
  destruct Hin as [<-|[]]. eexists _, _, _, _. reflexivity.
Qed.

(** A bar of width 200 asked to show 150 percent. *)
Lemma ProgressBar_fill_witness :
  let b := laid_out WidgetBase_default (mkRect 0 0 200 20) in
  let d := ProgressBar_progress
             (ProgressBar.mk 0 (mkColor 1 1 1 1) true) (3 # 2) in
  exists fill percent label,
    ProgressBar_render a_renderer b d
    = Widget_render b
      ++ [drawRoundedRect (mkRect 0 0 fill 20) (borderRadius (style_ b))
                          (mkColor 1 1 1 1)]
      ++ label
    /\ 0 <= fill <= 200 /\ (0 <= percent <= 100)%Z.
Proof.
  intros b d.
  destruct (ProgressBar_fill_and_percentage_stay_in_range a_renderer b
              (ProgressBar.mk 0 (mkColor 1 1 1 1) true) (3 # 2))
    as (fill & percent & label & E & Hf & Hp & _).
  { cbn. lra. }
  exists fill, percent, label. split; [exact E|]. split; assumption.
Defined.

(** ** Colours *)

Lemma byte_of_hex (hex k : Z) :
  (0 <= k)%Z -> Z.land (Z.shiftr hex k) 255 = ((hex / 2 ^ k) mod 256)%Z.
Proof.
  intro Hk. rewrite Z.shiftr_div_pow2 by exact Hk.
  change 255%Z with (Z.ones 8). rewrite Z.land_ones by lia. reflexivity.
Qed.

Lemma channel_range (z : Z) : 0 <= inject_Z (z mod 256) / 255 <= 1.
Proof.
  apply Qdiv_unit; [reflexivity|].
  pose proof (Z.mod_pos_bound z 256 ltac:(lia)) as [H0 H1].
  change 0 with (inject_Z 0). change 255 with (inject_Z 255).
  rewrite <- !Zle_Qle. lia.
Qed.

(** [Color::fromHex] reads a 32-bit value as the four bytes RRGGBBAA: on the
    value packed from the bytes [r], [g], [b], [a] it is the colour
    [Color::fromRGB(r, g, b, a)]; and whatever the argument, every channel of
    the result lies between 0 and 1. *)
Theorem fromHex_unpacks_the_bytes_fromRGB_takes :
  forall (hex : Z),
    (0 <= cr (fromHex hex) <= 1 /\ 0 <= cg (fromHex hex) <= 1
     /\ 0 <= cb (fromHex hex) <= 1 /\ 0 <= ca (fromHex hex) <= 1)
    /\ forall r g b a : Z,
        (0 <= r < 256)%Z -> (0 <= g < 256)%Z ->
        (0 <= b < 256)%Z -> (0 <= a < 256)%Z ->
        hex = (r * 16777216 + g * 65536 + b * 256 + a)%Z ->
        fromHex hex = fromRGB r g b a.
Proof.
  intro hex. unfold fromHex.
  assert (H0 : Z.land hex 255 = (hex mod 256)%Z).
  { change 255%Z with (Z.ones 8). apply Z.land_ones. lia. }
  rewrite H0, !byte_of_hex by lia. cbn [cr cg cb ca].
  split; [repeat split; apply channel_range|].
  intros r g b a Hr Hg Hb Ha ->. unfold fromRGB.
  change (2 ^ 24)%Z with 16777216%Z. change (2 ^ 16)%Z with 65536%Z.
  change (2 ^ 8)%Z with 256%Z.
  repeat f_equal; f_equal; Z.div_mod_to_equations; lia.
Qed.

(** The hover colour of a button, 0x2563ebff. *)
Lemma fromHex_witness :
  fromHex 0x2563ebff = fromRGB 37 99 235 255.
Proof.
  destruct (fromHex_unpacks_the_bytes_fromRGB_takes 0x2563ebff) as [_ H].
  apply H; lia.
Defined.

(** ** Font: decoding and measuring text *)

Lemma byte_at_inside (str : string) (i : nat) :
  (i < String.length str)%nat ->
  exists c, String.get i str = Some c
            /\ byte_at str i = Ok (Z.of_nat (nat_of_ascii c)).
Proof.
  revert i. induction str as [|a str IH]; intros i H; cbn in H; [lia|].
  destruct i as [|i].
  - exists a. split; reflexivity.
  - destruct (IH i ltac:(lia)) as (c & Hg & Hb). exists c.
    unfold byte_at in *. cbn [String.get]. rewrite Hg. split; reflexivity.
Qed.

Lemma or_continuation_returns (str : string) (i k : nat) (shift cp : Z) :
  exists cp', or_continuation str i k shift cp = Ok cp'.
Proof.
  unfold or_continuation.
  destruct (Nat.ltb_spec (i + k) (String.length str)) as [H|H];
    [|eexists; reflexivity].
  destruct (byte_at_inside str (i + k) H) as (c & _ & E). rewrite E.
  cbn [bind]. eexists. reflexivity.
Qed.

Lemma decodeUTF8_progress (str : string) (i : nat) :
  (i < String.length str)%nat ->
  exists codepoint i',
    decodeUTF8 str i = Ok (codepoint, i')
    /\ (i < i' <= i + 4)%nat
    /\ forall c, byte_at str i = Ok c -> (c < 128)%Z ->
                 codepoint = c /\ i' = (i + 1)%nat.
Proof.
  intros Hi. unfold decodeUTF8.
  destruct (byte_at_inside str i Hi) as (a & _ & E). rewrite E. cbn [bind].
  set (c := Z.of_nat (nat_of_ascii a)) in *.
  assert (Hc : (0 <= c < 256)%Z).
  { pose proof (nat_ascii_bounded a). unfold c. lia. }
  destruct (Z.land c 128 =? 0)%Z eqn:T1.
  { eexists _, _. split; [reflexivity|]. split; [lia|].
    intros c' Hc' _. injection Hc' as <-. split; reflexivity. }
  assert (Hhigh : forall c', Ok c = Ok c' -> (c' < 128)%Z -> False).
  { intros c' Hc' Hlt. injection Hc' as <-.
    apply Z.eqb_neq in T1. apply T1.
    change 128%Z with (2 ^ 7)%Z.
    apply Z.bits_inj'. intros n Hn. rewrite Z.land_spec, Z.bits_0.
    destruct (Z.eq_dec n 7) as [->|Hne].
    - rewrite Z.pow2_bits_true by lia. rewrite andb_true_r.
      apply Z.bits_above_log2; [lia|].
      destruct (Z.eq_dec c 0) as [->|]; [cbn; lia|].
      apply Z.log2_lt_pow2; lia.
    - rewrite Z.pow2_bits_false by lia. apply andb_false_r. }
  destruct (Z.land c 224 =? 192)%Z.
  { destruct (or_continuation_returns str i 1 0 (Z.shiftl (Z.land c 31) 6))
      as [cp1 E1]. rewrite E1. cbn [bind].
    eexists _, _. split; [reflexivity|]. split; [lia|].
    intros c' Hc' Hlt. destruct (Hhigh c' Hc' Hlt). }
  destruct (Z.land c 240 =? 224)%Z.
  { destruct (or_continuation_returns str i 1 6 (Z.shiftl (Z.land c 15) 12))
      as [cp1 E1]. rewrite E1. cbn [bind].
    destruct (or_continuation_returns str i 2 0 cp1) as [cp2 E2].
    rewrite E2. cbn [bind].
    eexists _, _. split; [reflexivity|]. split; [lia|].
    intros c' Hc' Hlt. destruct (Hhigh c' Hc' Hlt). }
  destruct (Z.land c 248 =? 240)%Z.
  { destruct (or_continuation_returns str i 1 12 (Z.shiftl (Z.land c 7) 18))
      as [cp1 E1]. rewrite E1. cbn [bind].
    destruct (or_continuation_returns str i 2 6 cp1) as [cp2 E2].
    rewrite E2. cbn [bind].
    destruct (or_continuation_returns str i 3 0 cp2) as [cp3 E3].
    rewrite E3. cbn [bind].
    eexists _, _. split; [reflexivity|]. split; [lia|].
    intros c' Hc' Hlt. destruct (Hhigh c' Hc' Hlt). }
  eexists _, _. split; [reflexivity|]. split; [lia|].
  intros c' Hc' Hlt. destruct (Hhigh c' Hc' Hlt).
Qed.

(** [decodeUTF8] at an index inside the string never reads past the end of
    the string, and it moves the index forward by one to four bytes (possibly
    beyond the end of the string, when a sequence is cut short); a byte below
    128 decodes to itself and moves the index by one. *)
Theorem decodeUTF8_reads_inside_and_advances :
  forall (str : string) (i : nat),
    (i < String.length str)%nat ->
    exists codepoint i',
      decodeUTF8 str i = Ok (codepoint, i')
      /\ (i < i' <= i + 4)%nat
      /\ forall c, byte_at str i = Ok c -> (c < 128)%Z ->
                   codepoint = c /\ i' = (i + 1)%nat.
Proof. intros str i. apply decodeUTF8_progress. Qed.

(** The string "é" in UTF-8, the bytes C3 A9. *)
Lemma decodeUTF8_reads_inside_witness :
  let str := String (ascii_of_nat 195) (String (ascii_of_nat 169) EmptyString) in
  exists codepoint i',
    decodeUTF8 str 0 = Ok (codepoint, i') /\ (0 < i' <= 0 + 4)%nat.
Proof.
  intro str.
  destruct (decodeUTF8_reads_inside_and_advances str 0 ltac:(cbn; lia))
    as (cp & i' & E & H & _).
  exists cp, i'. split; [exact E | exact H].
Defined.

Lemma lor_disjoint (a b n : Z) :
  (0 <= n)%Z -> (0 <= b < 2 ^ n)%Z -> (a mod 2 ^ n = 0)%Z ->
  Z.lor a b = (a + b)%Z.
Proof.
  intros Hn Hb Ha.
  assert (Hland : Z.land a b = 0%Z).
  { apply Z.bits_inj'. intros k Hk. rewrite Z.land_spec, Z.bits_0.
    destruct (Z.lt_ge_cases k n) as [Hlt|Hge].
    - assert (Hak : Z.testbit a k = false).
      { rewrite <- (Z.mod_pow2_bits_low a n k) by lia. rewrite Ha.
        apply Z.bits_0. }
      rewrite Hak. reflexivity.
    - assert (Hbk : Z.testbit b k = false).
      { destruct (Z.eq_dec b 0) as [->|Hb0]; [apply Z.bits_0|].
        apply Z.bits_above_log2; [lia|].
        assert (Z.log2 b < n)%Z by (apply Z.log2_lt_pow2; lia). lia. }
      rewrite Hbk. apply andb_false_r. }
  rewrite <- Z.lxor_lor by exact Hland.
  symmetry. apply Z.add_nocarry_lxor. exact Hland.
Qed.

Lemma land_63 (b : Z) : Z.land b 63 = (b mod 64)%Z.
Proof. change 63%Z with (Z.ones 6). apply Z.land_ones. lia. Qed.

Lemma lead_byte_facts_hold (c : Z) :
  (0 <= c < 256)%Z -> lead_byte_facts c = true.
Proof.
  intro Hc.
  assert (Hall : forallb lead_byte_facts (map Z.of_nat (seq 0 256)) = true)
    by (vm_compute; reflexivity).
  rewrite forallb_forall in Hall. apply Hall.
  apply in_map_iff. exists (Z.to_nat c). split; [lia|].
  apply in_seq. lia.
Qed.

Lemma or_continuation_inside (str : string) (i k : nat) (shift cp b : Z) :
  (i + k < String.length str)%nat ->
  byte_at str (i + k) = Ok b ->
  or_continuation str i k shift cp
  = Ok (Z.lor cp (Z.shiftl (b mod 64) shift)).
Proof.
  intros H E. unfold or_continuation.
  apply Nat.ltb_lt in H. rewrite H, E. cbn [bind]. rewrite land_63.
  reflexivity.
Qed.

(** What [decodeUTF8] returns on a sequence that is complete.  A lead byte
    110xxxxx, 1110xxxx or 11110xxx followed by one, two or three bytes inside
    the string yields the code point whose bits are the payload of the lead
    byte followed by the low six bits of each following byte, and moves the
    index past the sequence; the following bytes are not checked to be
    continuation bytes.  Any other byte of 128 or more (a stray continuation
    byte, or 11111xxx) yields '?' and moves the index by one. *)
Theorem decodeUTF8_decodes_complete_sequences :
  forall (str : string) (i : nat) (c : Z),
    byte_at str i = Ok c -> (0 <= c < 256)%Z ->
    (forall b1,
        (192 <= c < 224)%Z ->
        (i + 1 < String.length str)%nat -> byte_at str (i + 1) = Ok b1 ->
        decodeUTF8 str i
        = Ok (((c - 192) * 64 + b1 mod 64)%Z, (i + 2)%nat))
    /\ (forall b1 b2,
           (224 <= c < 240)%Z ->
           (i + 2 < String.length str)%nat ->
           byte_at str (i + 1) = Ok b1 -> byte_at str (i + 2) = Ok b2 ->
           decodeUTF8 str i
           = Ok (((c - 224) * 4096 + (b1 mod 64) * 64 + b2 mod 64)%Z,
                 (i + 3)%nat))
    /\ (forall b1 b2 b3,
           (240 <= c < 248)%Z ->
           (i + 3 < String.length str)%nat ->
           byte_at str (i + 1) = Ok b1 -> byte_at str (i + 2) = Ok b2 ->
           byte_at str (i + 3) = Ok b3 ->
           decodeUTF8 str i
           = Ok (((c - 240) * 262144 + (b1 mod 64) * 4096
                  + (b2 mod 64) * 64 + b3 mod 64)%Z,
                 (i + 4)%nat))
    /\ ((128 <= c < 192)%Z \/ (248 <= c)%Z ->
        decodeUTF8 str i = Ok (63%Z, (i + 1)%nat)).
Proof.
  intros str i c Ec Hc.
  pose proof (lead_byte_facts_hold c Hc) as F. unfold lead_byte_facts in F.
  repeat (apply andb_prop in F; destruct F as [F ?]).
  repeat match goal with
         | H : Bool.eqb _ _ = true |- _ => apply Bool.eqb_prop in H
         | H : (_ =? _)%Z = true |- _ => apply Z.eqb_eq in H
         end.
  unfold decodeUTF8. rewrite Ec. cbn [bind].
  repeat match goal with
         | H : (Z.land c _ =? _)%Z = _ |- _ => rewrite H; clear H
         | H : Z.land c _ = _ |- _ => rewrite H; clear H
         end.
  repeat split.
  - intros b1 Hr H1 E1.
    replace (c <? 128)%Z with false by (symmetry; apply Z.ltb_ge; lia).
    replace ((192 <=? c) && (c <? 224))%Z with true
      by (symmetry; apply andb_true_intro; split;
          [apply Z.leb_le | apply Z.ltb_lt]; lia).
    rewrite (or_continuation_inside _ _ _ _ _ _ H1 E1). cbn [bind].
    rewrite Z.shiftl_0_r, Z.shiftl_mul_pow2 by lia.
    pose proof (Z.mod_pos_bound b1 64 ltac:(lia)).
    rewrite (lor_disjoint _ _ 6) by
      (try lia; change (2 ^ 6)%Z with 64%Z; Z.div_mod_to_equations; lia).
    change (2 ^ 6)%Z with 64%Z.
    replace (c mod 32)%Z with (c - 192)%Z by (Z.div_mod_to_equations; lia).
    reflexivity.
  - intros b1 b2 Hr H2 E1 E2.
    replace (c <? 128)%Z with false by (symmetry; apply Z.ltb_ge; lia).
    replace ((192 <=? c) && (c <? 224))%Z with false
      by (symmetry; apply andb_false_intro2; apply Z.ltb_ge; lia).
    replace ((224 <=? c) && (c <? 240))%Z with true
      by (symmetry; apply andb_true_intro; split;
          [apply Z.leb_le | apply Z.ltb_lt]; lia).
    assert (H1 : (i + 1 < String.length str)%nat) by lia.
    rewrite (or_continuation_inside _ _ _ _ _ _ H1 E1). cbn [bind].
    rewrite (or_continuation_inside _ _ _ _ _ _ H2 E2). cbn [bind].
    rewrite Z.shiftl_0_r, !Z.shiftl_mul_pow2 by lia.
    pose proof (Z.mod_pos_bound b1 64 ltac:(lia)).
    pose proof (Z.mod_pos_bound b2 64 ltac:(lia)).
    change (2 ^ 12)%Z with 4096%Z. change (2 ^ 6)%Z with 64%Z.
    rewrite (lor_disjoint (c mod 16 * 4096) _ 12) by
      (try lia; change (2 ^ 12)%Z with 4096%Z; Z.div_mod_to_equations; lia).
    rewrite (lor_disjoint _ _ 6) by
      (try lia; change (2 ^ 6)%Z with 64%Z; Z.div_mod_to_equations; lia).
    replace (c mod 16)%Z with (c - 224)%Z by (Z.div_mod_to_equations; lia).
    reflexivity.
  - intros b1 b2 b3 Hr H3 E1 E2 E3.
    replace (c <? 128)%Z with false by (symmetry; apply Z.ltb_ge; lia).
    replace ((192 <=? c) && (c <? 224))%Z with false
      by (symmetry; apply andb_false_intro2; apply Z.ltb_ge; lia).
    replace ((224 <=? c) && (c <? 240))%Z with false
      by (symmetry; apply andb_false_intro2; apply Z.ltb_ge; lia).
    replace ((240 <=? c) && (c <? 248))%Z with true
      by (symmetry; apply andb_true_intro; split;
          [apply Z.leb_le | apply Z.ltb_lt]; lia).
    assert (H1 : (i + 1 < String.length str)%nat) by lia.
    assert (H2 : (i + 2 < String.length str)%nat) by lia.
    rewrite (or_continuation_inside _ _ _ _ _ _ H1 E1). cbn [bind].
    rewrite (or_continuation_inside _ _ _ _ _ _ H2 E2). cbn [bind].
    rewrite (or_continuation_inside _ _ _ _ _ _ H3 E3). cbn [bind].
    rewrite Z.shiftl_0_r, !Z.shiftl_mul_pow2 by lia.
    pose proof (Z.mod_pos_bound b1 64 ltac:(lia)).
    pose proof (Z.mod_pos_bound b2 64 ltac:(lia)).
    pose proof (Z.mod_pos_bound b3 64 ltac:(lia)).
    change (2 ^ 18)%Z with 262144%Z.
    change (2 ^ 12)%Z with 4096%Z. change (2 ^ 6)%Z with 64%Z.
    rewrite (lor_disjoint (c mod 8 * 262144) _ 18) by
      (try lia; change (2 ^ 18)%Z with 262144%Z; Z.div_mod_to_equations; lia).
    rewrite (lor_disjoint _ (b2 mod 64 * 64) 12) by
      (try lia; change (2 ^ 12)%Z with 4096%Z; Z.div_mod_to_equations; lia).
    rewrite (lor_disjoint _ (b3 mod 64) 6) by
      (try lia; change (2 ^ 6)%Z with 64%Z; Z.div_mod_to_equations; lia).
    replace (c mod 8)%Z with (c - 240)%Z by (Z.div_mod_to_equations; lia).
    reflexivity.
  - intros Hr.
    replace (c <? 128)%Z with false by (symmetry; apply Z.ltb_ge; lia).
    destruct (Z.leb_spec 192 c), (Z.ltb_spec c 224),
             (Z.leb_spec 224 c), (Z.ltb_spec c 240),
             (Z.leb_spec 240 c), (Z.ltb_spec c 248);
      cbn [andb]; try reflexivity; lia.
Qed.

(** The string "é" in UTF-8, the bytes C3 A9, is the code point 233. *)
Lemma decodeUTF8_decodes_witness :
  let str := String (ascii_of_nat 195) (String (ascii_of_nat 169) EmptyString) in
  decodeUTF8 str 0 = Ok (233%Z, 2%nat).
Proof.
  intro str.
  destruct (decodeUTF8_decodes_complete_sequences str 0 195 eq_refl
              ltac:(lia)) as [H _].
  exact (H 169%Z ltac:(lia) ltac:(cbn; lia) eq_refl).
Defined.

Lemma get_str_drop (s : string) (i : nat) (a : ascii) :
  String.get i s = Some a -> str_drop i s = String a (str_drop (S i) s).
Proof.
  revert i. induction s as [|c s IH]; intros [|i] H; cbn in H;
    try discriminate.
  - injection H as <-. reflexivity.
  - cbn [str_drop]. rewrite (IH i H). destruct s; reflexivity.
Qed.

Lemma str_drop_beyond (s : string) (i : nat) :
  (String.length s <= i)%nat -> str_drop i s = EmptyString.
Proof.
  revert i. induction s as [|c s IH]; intros [|i] H; cbn in *;
    try reflexivity; try lia.
  apply IH. lia.
Qed.

Lemma line_feeds_nonneg (s : string) : (0 <= line_feeds s)%Z.
Proof. unfold line_feeds. lia. Qed.

Lemma line_feeds_cons (a : ascii) (s : string) :
  line_feeds (String a s)
  = ((if (Z.of_nat (nat_of_ascii a) =? 10)%Z then 1 else 0) + line_feeds s)%Z.
Proof.
  unfold line_feeds. cbn [bytes filter].
  destruct (Z.of_nat (nat_of_ascii a) =? 10)%Z; cbn [List.length]; lia.
Qed.

Lemma line_feeds_drop_le (s : string) (i j : nat) :
  (i <= j)%nat -> (line_feeds (str_drop j s) <= line_feeds (str_drop i s))%Z.
Proof.
  intro H. induction H as [|j H IH]; [lia|].
  etransitivity; [|exact IH].
  destruct (String.get j s) as [a|] eqn:E.
  - rewrite (get_str_drop _ _ _ E), line_feeds_cons.
    destruct (_ =? 10)%Z; lia.
  - assert (Hlen : (String.length s <= j)%nat).
    { destruct (Nat.le_gt_cases (String.length s) j) as [Hle|Hgt]; [exact Hle|].
      destruct (byte_at_inside s j Hgt) as (c & Hg & _). congruence. }
    rewrite !str_drop_beyond by lia. lia.
Qed.

Lemma is_ascii_get (s : string) (i : nat) (a : ascii) :
  is_ascii s -> String.get i s = Some a -> (Z.of_nat (nat_of_ascii a) < 128)%Z.
Proof.
  unfold is_ascii. revert i. induction s as [|c s IH]; intros [|i] H E;
    cbn in E; try discriminate; cbn [bytes] in H.
  - injection E as <-. exact (Forall_inv H).
  - exact (IH i (Forall_inv_tail H) E).
Qed.

Section FontMeasureFacts.
Variable G : Type.
Variable getGlyph : G -> Z -> option Q * G.
Variable lineHeight : Z.

Lemma measureText_loop_returns (text : string) (fuel : nat) :
  forall (i : nat) (width maxWidth : Q) (lines : Z) (g : G),
    (String.length text - i <= fuel)%nat ->
    exists w m l g',
      measureText_loop G getGlyph fuel text i width maxWidth lines g
      = Ok (w, m, l, g')
      /\ (lines <= l <= lines + line_feeds (str_drop i text))%Z
      /\ (is_ascii text -> l = (lines + line_feeds (str_drop i text))%Z)
      /\ ((forall g0 c a g1, getGlyph g0 c = (Some a, g1) -> 0 <= a) ->
          0 <= width -> 0 <= maxWidth -> 0 <= w /\ 0 <= m).
Proof.
  induction fuel as [|fuel IH]; intros i width maxWidth lines g Hfuel.
  - assert (Hi : (String.length text <= i)%nat) by lia.
    cbn [measureText_loop].
    destruct (Nat.ltb_spec i (String.length text)); [lia|].
    exists width, maxWidth, lines, g. rewrite (str_drop_beyond _ _ Hi).
    change (line_feeds EmptyString) with 0%Z.
    split; [reflexivity|]. split; [lia|]. split; [intros _; lia|].
    intros _ Hw Hm. split; assumption.
  - cbn [measureText_loop].
    destruct (Nat.ltb_spec i (String.length text)) as [Hi|Hi].
    2:{ exists width, maxWidth, lines, g. rewrite (str_drop_beyond _ _ Hi).
        change (line_feeds EmptyString) with 0%Z.
        split; [reflexivity|]. split; [lia|]. split; [intros _; lia|].
        intros _ Hw Hm. split; assumption. }
    destruct (byte_at_inside text i Hi) as (a & Hg & Eb). rewrite Eb.
    cbn [bind]. rewrite (get_str_drop _ _ _ Hg), line_feeds_cons.
    set (c := Z.of_nat (nat_of_ascii a)) in *.
    destruct (c =? 10)%Z eqn:Hnl.
    + destruct (IH (i + 1)%nat 0 (fmax maxWidth width) (lines + 1)%Z g
                  ltac:(lia)) as (w & m & l & g' & E & Hl & Ha & Hpos).
      exists w, m, l, g'. rewrite E. replace (S i) with (i + 1)%nat by lia.
      split; [reflexivity|]. split; [lia|]. split; [intro H; rewrite (Ha H); lia|].
      intros Hadv Hw Hm. apply Hpos; [exact Hadv | lra |].
      eapply Qle_trans; [exact Hm | apply fmax_lower].
    + destruct (decodeUTF8_progress text i Hi) as (cp & i' & Ed & Hi' & Hasc).
      rewrite Ed. cbn [bind].
      destruct (getGlyph g cp) as [glyph g1] eqn:Eg.
      match goal with
      | |- context [measureText_loop G getGlyph fuel text i' ?w' maxWidth lines g1] =>
          destruct (IH i' w' maxWidth lines g1 ltac:(lia))
            as (w & m & l & g' & E & Hl & Ha & Hpos)
      end.
      exists w, m, l, g'. rewrite E.
      pose proof (line_feeds_drop_le text (S i) i' ltac:(lia)) as Hmono.
      split; [reflexivity|]. split; [lia|]. split.
      * intro H. rewrite (Ha H).
        pose proof (is_ascii_get _ _ _ H Hg) as Hlt.
        destruct (Hasc c Eb Hlt) as [_ ->].
        replace (i + 1)%nat with (S i) by lia. lia.
      * intros Hadv Hw Hm. apply Hpos; [exact Hadv | | exact Hm].
        destruct glyph as [adv|]; [|exact Hw].
        pose proof (Hadv _ _ _ _ Eg). lra.
Qed.

(** [Font::measureText] returns for every text: each pass of its loop moves
    the index forward, and no byte beyond the end of the text is read.  The
    height it reports is the line height times the number of lines, which is
    at least 1 and at most one more than the number of line feeds in the
    text, with equality for text that is all ASCII (a line feed that follows
    the lead byte of a multi-byte sequence is taken for a part of that
    sequence).  When no glyph has a negative advance the width is not
    negative. *)
Theorem Font_measureText_returns_and_counts_lines :
  forall (g : G) (text : string),
    exists size g' lines,
      Font_measureText G getGlyph lineHeight g text = Ok (size, g')
      /\ height size = of_int (lines * lineHeight)
      /\ (1 <= lines <= 1 + line_feeds text)%Z
      /\ (is_ascii text -> lines = (1 + line_feeds text)%Z)
      /\ ((forall g0 c a g1, getGlyph g0 c = (Some a, g1) -> 0 <= a) ->
          0 <= width size).
Proof.
  intros g text. unfold Font_measureText.
  destruct (measureText_loop_returns text (String.length text) 0 0 0 1%Z g
              ltac:(lia)) as (w & m & l & g' & E & Hl & Ha & Hpos).
  rewrite E. cbn [bind str_drop] in *.
  eexists _, g', l. split; [reflexivity|]. cbn [height width].
  split; [reflexivity|]. split; [exact Hl|]. split; [exact Ha|].
  intro Hadv. destruct (Hpos Hadv ltac:(lra) ltac:(lra)) as [Hw Hm].
  eapply Qle_trans; [exact Hm | apply fmax_lower].
Qed.
End FontMeasureFacts.

(** ** Easing curves and animations *)

Lemma Qleb_spec (a b : Q) :
  (Qleb a b = true /\ a <= b) \/ (Qleb a b = false /\ b < a).
Proof.
  unfold Qleb. destruct (Qle_bool a b) eqn:E.
  - left. split; [reflexivity|]. apply Qle_bool_iff. exact E.
  - right. split; [reflexivity|]. apply Qnot_le_lt. intro H.
    apply Qle_bool_iff in H. congruence.
Qed.

Lemma Qgeb_spec (a b : Q) :
  (Qgeb a b = true /\ b <= a) \/ (Qgeb a b = false /\ a < b).
Proof. unfold Qgeb. apply (Qleb_spec b a). Qed.

Lemma Qltb_spec (a b : Q) :
  (Qltb a b = true /\ a < b) \/ (Qltb a b = false /\ b <= a).
Proof.
  destruct (Qltb a b) eqn:E.
  - left. split; [reflexivity|]. apply Qltb_lt. exact E.
  - right. split; [reflexivity|]. apply Qltb_ge. exact E.
Qed.

Ltac compare_all :=
  repeat match goal with
         | |- context [Qleb ?a ?b] =>
             let H := fresh "H" in
             destruct (Qleb_spec a b) as [[-> H]|[-> H]]
         | |- context [Qgeb ?a ?b] =>
             let H := fresh "H" in
             destruct (Qgeb_spec a b) as [[-> H]|[-> H]]
         | |- context [Qltb ?a ?b] =>
             let H := fresh "H" in
             destruct (Qltb_spec a b) as [[-> H]|[-> H]]
         end.

Lemma sq_bound (u r : Q) : - r <= u <= r -> 0 <= u * u <= r * r.
Proof.
  intros [H1 H2]. split; [nra|].
  assert (0 <= (r - u) * (r + u)) by (apply Qmult_le_0_compat; lra).
  nra.
Qed.

Lemma bounce_piece (t shift r c : Q) :
  - r <= t - shift <= r -> 0 <= c -> (121 # 16) * (r * r) + c <= 1 ->
  0 <= (121 # 16) * (t - shift) * (t - shift) + c <= 1.
Proof.
  intros Hu Hc Hr. pose proof (sq_bound _ _ Hu) as [H0 H1].
  setoid_replace ((121 # 16) * (t - shift) * (t - shift))
    with ((121 # 16) * ((t - shift) * (t - shift))) by ring.
  generalize dependent ((t - shift) * (t - shift)). intros q H0 H1.
  generalize dependent (r * r). intros rr Hr H1. split; lra.
Qed.

Section EasingFacts.
Variable elastic : Q -> Q.

Lemma easeValue_unit (t : Q) (curve : EasingCurve) :
  curve <> Elastic -> 0 <= easeValue elastic t curve <= 1.
Proof.
  intro Hc. unfold easeValue.
  destruct (Qleb_spec t 0) as [[-> H0]|[-> H0]]; [lra|].
  destruct (Qgeb_spec t 1) as [[-> H1]|[-> H1]]; [lra|].
  destruct curve; try congruence; cbv zeta.
  - lra.
  - split; nra.
  - split; nra.
  - destruct (Qltb_spec t (1 # 2)) as [[-> H]|[-> H]].
    + split; nra.
    + setoid_replace (1 - (-2 * t + 2) * (-2 * t + 2) / 2)
        with (1 - 2 * ((1 - t) * (1 - t))) by field.
      pose proof (sq_bound (1 - t) (1 # 2) ltac:(lra)) as [Ha Hb].
      generalize dependent ((1 - t) * (1 - t)). intros q Ha Hb.
      setoid_replace ((1 # 2) * (1 # 2)) with (1 # 4) in Hb by reflexivity.
      split; lra.
  - destruct (Qltb_spec t (1 / (11 # 4))) as [[-> H]|[-> H]];
      setoid_replace (1 / (11 # 4)) with (4 # 11) in H by reflexivity.
    { setoid_replace ((121 # 16) * t * t)
        with ((121 # 16) * (t - 0) * (t - 0) + 0) by ring.
      apply (bounce_piece t 0 (4 # 11) 0); [lra | lra | lra]. }
    destruct (Qltb_spec t (2 / (11 # 4))) as [[-> H']|[-> H']];
      setoid_replace (2 / (11 # 4)) with (8 # 11) in H' by reflexivity.
    { setoid_replace ((3 # 2) / (11 # 4)) with (6 # 11) by reflexivity.
      apply (bounce_piece t (6 # 11) (2 # 11) (3 # 4));
        [lra | lra | lra]. }
    destruct (Qltb_spec t ((5 # 2) / (11 # 4))) as [[-> H'']|[-> H'']];
      setoid_replace ((5 # 2) / (11 # 4)) with (10 # 11) in H''
        by reflexivity.
    { setoid_replace ((9 # 4) / (11 # 4)) with (9 # 11) by reflexivity.
      apply (bounce_piece t (9 # 11) (1 # 11) (15 # 16));
        [lra | lra | lra]. }
    setoid_replace ((21 # 8) / (11 # 4)) with (21 # 22) by reflexivity.
    apply (bounce_piece t (21 # 22) (1 # 22) (63 # 64));
      [lra | lra | lra].
Qed.

Lemma easeValue_monotone (t t' : Q) (curve : EasingCurve) :
  curve <> Elastic -> curve <> Bounce -> t <= t' ->
  easeValue elastic t curve <= easeValue elastic t' curve.
Proof.
  intros Hc Hb Ht.
  destruct (Qleb_spec t 0) as [[E0 H0]|[E0 H0]].
  { unfold easeValue at 1. rewrite E0. apply easeValue_unit. exact Hc. }
  destruct (Qgeb_spec t' 1) as [[E1 H1]|[E1 H1]].
  { unfold easeValue at 2.
    destruct (Qleb_spec t' 0) as [[-> H]|[-> H]]; [lra|]. rewrite E1.
    apply easeValue_unit. exact Hc. }
  unfold easeValue. rewrite E0, E1.
  destruct (Qgeb_spec t 1) as [[-> H]|[-> H]]; [lra|].
  destruct (Qleb_spec t' 0) as [[-> H']|[-> H']]; [lra|].
  destruct curve; try congruence.
  - nra.
  - assert (0 <= (t' - t) * (2 - t - t')) by (apply Qmult_le_0_compat; lra).
    nra.
  - destruct (Qltb_spec t (1 # 2)) as [[-> Ha]|[-> Ha]];
      destruct (Qltb_spec t' (1 # 2)) as [[-> Hb']|[-> Hb']]; try lra.
    + nra.
    + setoid_replace (1 - (-2 * t' + 2) * (-2 * t' + 2) / 2)
        with (1 - 2 * ((1 - t') * (1 - t'))) by field.
      pose proof (sq_bound (1 - t') (1 # 2) ltac:(lra)) as [_ Hq].
      assert (0 <= t * t <= (1 # 2) * (1 # 2)) as [_ Hp]
        by (apply sq_bound; lra).
      setoid_replace ((1 # 2) * (1 # 2)) with (1 # 4) in Hq by reflexivity.
      setoid_replace ((1 # 2) * (1 # 2)) with (1 # 4) in Hp by reflexivity.
      setoid_replace (2 * t * t) with (2 * (t * t)) by ring.
      lra.
    + setoid_replace (1 - (-2 * t + 2) * (-2 * t + 2) / 2)
        with (1 - 2 * ((1 - t) * (1 - t))) by field.
      setoid_replace (1 - (-2 * t' + 2) * (-2 * t' + 2) / 2)
        with (1 - 2 * ((1 - t') * (1 - t'))) by field.
      assert (0 <= (t' - t) * (2 - t - t')) by (apply Qmult_le_0_compat; lra).
      nra.
Qed.
End EasingFacts.

(** [easeValue], whatever the formula of the [Elastic] curve returns (it is
    the parameter [elastic]; the square [std::pow(x, 2)] of [EaseInOut] is
    [x * x]).  Every curve, [Elastic] included, is 0 up to [t = 0] and 1
    from [t = 1] on.  Every curve but [Elastic] keeps its value between 0
    and 1; and [Linear], [EaseIn], [EaseOut] and [EaseInOut] never decrease
    ([Bounce] does, that is its point). *)
Theorem easeValue_stays_in_the_unit_interval :
  forall (elastic : Q -> Q) (curve : EasingCurve) (t : Q),
    (t <= 0 -> easeValue elastic t curve = 0)
    /\ (1 <= t -> easeValue elastic t curve = 1)
    /\ (curve <> Elastic -> 0 <= easeValue elastic t curve <= 1)
    /\ (curve <> Elastic -> curve <> Bounce ->
        forall t', t <= t' ->
                   easeValue elastic t curve <= easeValue elastic t' curve).
Proof.
  intros elastic curve t. split; [|split; [|split]].
  - intro H. unfold easeValue.
    destruct (Qleb_spec t 0) as [[-> _]|[_ H']]; [reflexivity | lra].
  - intro H. unfold easeValue.
    destruct (Qleb_spec t 0) as [[_ H']|[-> _]]; [lra|].
    destruct (Qgeb_spec t 1) as [[-> _]|[_ H']]; [reflexivity | lra].
  - apply easeValue_unit.
  - intros Hc Hb t' Ht. apply easeValue_monotone; assumption.
Qed.

Section AnimationFacts.
Variable elastic : Q -> Q.

Lemma Animation_run_stopped (a : Animation) (dts : list Q) :
  running_ a = false -> Animation_run a dts = (0%nat, a).
Proof.
  intro H. induction dts as [|dt dts IH]; [reflexivity|].
  cbn [Animation_run]. unfold Animation_update. rewrite H. cbn [negb].
  rewrite IH. reflexivity.
Qed.

(** A run from a running animation: either the elapsed time, added up
    step by step as [update] does, reaches the duration after some step, and
    then exactly one [update] reports completion; or it never does, and the
    animation is still running with all the steps added. *)
Lemma Animation_run_running (dts : list Q) :
  forall a : Animation,
    running_ a = true -> elapsed_ a < duration_ a ->
    ((exists k, duration_ a <= fold_left Qplus (firstn k dts) (elapsed_ a))
     /\ Animation_run a dts
        = (1%nat,
           mkAnimation (start_ a) (end_ a) (duration_ a) (curve_ a)
                       (duration_ a) false))
    \/ ((forall k, fold_left Qplus (firstn k dts) (elapsed_ a) < duration_ a)
        /\ Animation_run a dts
           = (0%nat,
              mkAnimation (start_ a) (end_ a) (duration_ a) (curve_ a)
                          (fold_left Qplus dts (elapsed_ a)) true)).
Proof.
  induction dts as [|dt dts IH]; intros a Hr He.
  - right. split.
    + intro k. destruct k; exact He.
    + destruct a as [s e d c el r]. cbn in Hr. subst r. reflexivity.
  - cbn [Animation_run]. unfold Animation_update. rewrite Hr. cbn [negb].
    destruct (Qgeb_spec (elapsed_ a + dt) (duration_ a)) as [[-> H]|[-> H]].
    + left. split.
      * exists 1%nat. exact H.
      * rewrite Animation_run_stopped by reflexivity. reflexivity.
    + match goal with
      | |- context [Animation_run ?x dts] =>
          destruct (IH x eq_refl H) as [[[k Hk] ->]|[Hk ->]]
      end; cbn [elapsed_ duration_ start_ end_ curve_] in *.
      * left. split; [|reflexivity]. exists (S k). exact Hk.
      * right. split; [|reflexivity].
        intros [|k]; [exact He | exact (Hk k)].
Qed.

(** An animation of positive duration, started and then updated once per
    frame.  Right after [start()] its value is the start value.  In a run
    of updates at most one reports completion.  If the elapsed time, added
    up step by step from 0 as [update] does, reaches the duration after some
    step, exactly one update has reported completion and the animation has
    stopped with the elapsed time set to the duration (not beyond);
    otherwise none has, and the animation is still running with all the
    steps added.  Once finished, the value is the interpolation at 1,
    whatever the curve, and later updates change nothing. *)
Theorem Animation_runs_from_start_to_end :
  forall (a : Animation) (dts : list Q),
    0 < duration_ a ->
    let started := Animation_start a in
    let completions := fst (Animation_run started dts) in
    let now := snd (Animation_run started dts) in
    let finished :=
      mkAnimation (start_ a) (end_ a) (duration_ a) (curve_ a)
                  (duration_ a) false in
    Animation_value elastic started == start_ a
    /\ (completions <= 1)%nat
    /\ ((exists k, duration_ a <= fold_left Qplus (firstn k dts) 0) ->
        completions = 1%nat /\ now = finished)
    /\ ((forall k, fold_left Qplus (firstn k dts) 0 < duration_ a) ->
        completions = 0%nat
        /\ now = mkAnimation (start_ a) (end_ a) (duration_ a) (curve_ a)
                             (fold_left Qplus dts 0) true)
    /\ Animation_value elastic finished = lerp (start_ a) (end_ a) 1
    /\ (forall more, Animation_run finished more = (0%nat, finished)).
Proof.
  intros a dts Hd started completions now finished.
  assert (Hrun := Animation_run_running dts (Animation_start a) eq_refl Hd).
  cbn [Animation_start elapsed_ duration_ start_ end_ curve_] in Hrun.
  fold started finished in Hrun.
  split; [|split; [|split; [|split; [|split]]]].
  - unfold started, Animation_value, Animation_start, lerp.
    cbn [elapsed_ duration_ start_ end_ curve_].
    assert (E : easeValue elastic (0 / duration_ a) (curve_ a) = 0).
    { unfold easeValue.
      destruct (Qleb_spec (0 / duration_ a) 0) as [[-> _]|[_ H]];
        [reflexivity|].
      unfold Qdiv in H. lra. }
    rewrite E. lra.
  - subst completions. destruct Hrun as [[_ ->]|[_ ->]]; cbn [fst]; lia.
  - intros [k Hk]. subst completions now.
    destruct Hrun as [[_ ->]|[Hnever _]]; [split; reflexivity|].
    specialize (Hnever k). lra.
  - intro Hnever. subst completions now.
    destruct Hrun as [[[k Hk] _]|[_ ->]]; [|split; reflexivity].
    specialize (Hnever k). lra.
  - unfold finished, Animation_value.
    cbn [elapsed_ duration_ start_ end_ curve_].
    assert (E : duration_ a / duration_ a == 1) by (field; lra).
    unfold easeValue.
    destruct (Qleb_spec (duration_ a / duration_ a) 0)
      as [[-> H]|[-> H]]; [lra|].
    destruct (Qgeb_spec (duration_ a / duration_ a) 1)
      as [[-> H']|[-> H']]; [reflexivity | lra].
  - intro more. apply Animation_run_stopped. reflexivity.
Qed.
End AnimationFacts.

(** An animation from 0 to 100 over one second, updated after 0.5 s, 0.5 s
    and 0.25 s: the second update completes it. *)
Lemma Animation_runs_witness :
  let a := Animation_new 0 100 1 EaseOut in
  let dts := [1 # 2; 1 # 2; 1 # 4] in
  0 < duration_ a
  /\ fst (Animation_run (Animation_start a) dts) = 1%nat
  /\ running_ (snd (Animation_run (Animation_start a) dts)) = false
  /\ Animation_value (fun _ => 0) (snd (Animation_run (Animation_start a) dts))
     = lerp 0 100 1.
Proof.
  intros a dts.
  assert (Hd : 0 < duration_ a) by reflexivity.
  destruct (Animation_runs_from_start_to_end (fun _ => 0) a dts Hd)
    as (_ & _ & H & _ & V & _).
  assert (Hk : exists k, duration_ a <= fold_left Qplus (firstn k dts) 0).
  { exists 2%nat. vm_compute. discriminate. }
  destruct (H Hk) as [E1 E2].
  split; [exact Hd|]. split; [exact E1|]. rewrite E2.
  split; [reflexivity | exact V].
Defined.

(** ** What the Application delivers to the widgets *)

Lemma Widget_handleMouseButton_outside (b : WidgetBase) (event : MouseEvent) :
  contains (bounds_ b) (position event) = false ->
  Widget_handleMouseButton b event = (false, []).
Proof.
  intro H. unfold Widget_handleMouseButton. rewrite H.
  destruct (negb (enabled_ b)); [reflexivity|].
  destruct (pressed event && MouseButton_eqb (button event) Left); reflexivity.
Qed.

Lemma nothing_at_children (p : Point) (b : WidgetBase) (k : Layout)
    (cs : list Widget) :
  nothing_at p (ContW b k cs) ->
  contains (bounds_ b) p = false /\ Forall (nothing_at p) cs.
Proof.
  unfold nothing_at. cbn [all_bounds]. intro H.
  split; [exact (Forall_inv H)|].
  apply Forall_inv_tail in H.
  induction cs as [|c cs IH]; [constructor|].
  cbn [flat_map] in H. apply Forall_app in H. destruct H as [H1 H2].
  constructor; [exact H1 | exact (IH H2)].
Qed.

Lemma handleMouseButton_nothing_at (w : Widget) (event : MouseEvent) :
  nothing_at (position event) w ->
  fst (fst (handleMouseButton w event)) = false
  /\ snd (handleMouseButton w event) = [].
Proof.
  induction w as [b k | b k cs IH] using Widget_tree_ind; intro Hn;
    cbn [handleMouseButton].
  - assert (Hb : contains (bounds_ b) (position event) = false)
      by exact (Forall_inv Hn).
    unfold Leaf_handleMouseButton.
    destruct k;
      try (rewrite (Widget_handleMouseButton_outside b event Hb);
           split; reflexivity).
    + unfold Button_handleMouseButton.
      rewrite (Widget_handleMouseButton_outside b event Hb).
      split; reflexivity.
    + unfold TextInput_handleMouseButton.
      rewrite (Widget_handleMouseButton_outside b event Hb).
      split; reflexivity.
    + unfold Slider_handleMouseButton. rewrite Hb, andb_false_r.
      destruct (MouseButton_eqb (button event) Left); [|split; reflexivity].
      destruct (negb (pressed event)); split; reflexivity.
    + unfold Checkbox_handleMouseButton. rewrite Hb.
      destruct (pressed event && MouseButton_eqb (button event) Left);
        split; reflexivity.
  - destruct (nothing_at_children _ _ _ _ Hn) as [Hb Hcs].
    rewrite (Widget_handleMouseButton_outside b event Hb).
    assert (Hall : Forall (fun c =>
                             fst (fst (handleMouseButton c event)) = false
                             /\ snd (handleMouseButton c event) = []) cs).
    { clear Hn Hb. induction IH as [|c cs Hc _ IHcs]; [constructor|].
      constructor; [apply Hc; exact (Forall_inv Hcs)|].
      apply IHcs. exact (Forall_inv_tail Hcs). }
    destruct (offer_in_order_all_silent
                (fun child => handleMouseButton child event) cs Hall) as [Hr Hf].
    destruct (offer_in_order _ cs) as [[r cs'] f]. cbn [fst snd] in *.
    subst. split; reflexivity.
Qed.

(** The button and axis listeners of [Application] never assign the position
    of the event they build, so every press, release and scroll reaches the
    root widget at the point (0,0), wherever the pointer is.  When no widget
    of the tree has (0,0) within its bounds, a button event is consumed by
    nobody and calls no handler.  A scroll event changes nothing unless the
    root itself is a ScrollView whose content rectangle contains (0,0):
    scroll views below the root are never reached. *)
Theorem Application_delivers_presses_and_scrolls_at_the_origin :
  forall (root : Widget) (uninit_m : MouseEvent) (uninit_s : ScrollEvent),
    (nothing_at (mkPoint 0 0) root ->
     forall button pressed,
     exists root',
       Application_on_button (Some root) button pressed uninit_m
       = Some (false, root', []))
    /\ ((forall b d cs,
            root = ContW b (KScrollView d) cs ->
            contains (contentBounds_ b) (mkPoint 0 0) = false) ->
        forall vertical value,
          Application_on_axis (Some root) vertical value uninit_s
          = Some (Ok (false, root))).
Proof.
  intros root uninit_m uninit_s. split.
  - intros Hn button pressed. unfold Application_on_button.
    set (event := mkMouseEvent (mkPoint 0 0) (mkPoint 0 0) button pressed
                               (mods uninit_m)).
    destruct (handleMouseButton_nothing_at root event Hn) as [Hr Hf].
    destruct (handleMouseButton root event) as [[r root'] f].
    cbn [fst snd] in *. subst. exists root'. reflexivity.
  - intros Hs vertical value. unfold Application_on_axis.
    destruct root as [b k | b k cs]; [destruct vertical; reflexivity|].
    destruct k; try (destruct vertical; reflexivity).
    specialize (Hs b d cs eq_refl).
    destruct vertical; cbn [handleScroll]; unfold ScrollView_handleScroll;
      cbn [sposition]; rewrite Hs; reflexivity.
Qed.

(** A checkbox at (20,20,20,20) in a box that starts at (10,10): nothing
    covers the origin, so no press delivered by the Application toggles it. *)
Lemma Application_delivers_presses_witness :
  let box :=
    ContW (laid_out WidgetBase_default (mkRect 10 10 100 100))
          (KBox (Box.mk Horizontal 0 Start Start))
          [LeafW (laid_out WidgetBase_default (mkRect 20 20 20 20))
                 (KCheckbox (Checkbox_new false))] in
  nothing_at (mkPoint 0 0) box
  /\ exists root',
      Application_on_button (Some box) Left true (press_at 30 30)
      = Some (false, root', []).
Proof.
  intro box.
  assert (Hn : nothing_at (mkPoint 0 0) box) by (repeat constructor).
  split; [exact Hn|].
  destruct (Application_delivers_presses_and_scrolls_at_the_origin
              box (press_at 30 30) (mkScrollEvent (mkPoint 0 0) 0 0)) as [H _].
  exact (H Hn Left true).
Defined.

(** The key listener of [Application] builds an event without text and hands
    it to the root widget only.  So a key changes nothing when the root is a
    container, since containers do not pass keys on; and when the root is a
    text input, no key makes its text longer: through the Application text
    can be deleted but not typed. *)
Theorem Application_keys_never_insert_text :
  forall (root : Widget) (key : Z) (pressed : bool) (uninit : KeyEvent),
    cursors_in_range root ->
    exists consumed root' fired,
      Application_on_key (Some root) key pressed uninit
      = Some (Ok (consumed, root', fired))
      /\ (forall b k cs, root = ContW b k cs ->
                         consumed = false /\ root' = root /\ fired = [])
      /\ (forall text, input_text root = Some text ->
                       exists text',
                         input_text root' = Some text'
                         /\ (String.length text' <= String.length text)%nat).
Proof.
  intros root key pressed uninit Hin. unfold Application_on_key.
  set (event := mkKeyEvent key (keysym uninit) pressed (kmods uninit) "").
  destruct root as [b k | b k cs].
  2:{ exists false, (ContW b k cs), []. split; [reflexivity|].
      split; [intros; repeat split | intros text H; discriminate]. }
  destruct k;
    try (eexists _, _, _; split; [reflexivity|];
         split; [intros; discriminate | intros text H; discriminate]).
  unfold cursors_in_range in Hin. cbn [inputs] in Hin.
  apply Forall_inv in Hin. unfold cursor_in_range in Hin.
  cbn [handleKeyEvent].
  assert (Herase : forall pos,
             (pos < String.length (TextInput.text_ d))%nat ->
             exists t, str_erase (TextInput.text_ d) pos 1 = Ok t
                       /\ (String.length t <= String.length (TextInput.text_ d))%nat).
  { intros pos Hpos. unfold str_erase.
    destruct (Nat.ltb_spec (String.length (TextInput.text_ d)) pos); [lia|].
    eexists. split; [reflexivity|].
    rewrite str_length_app, str_drop_length, str_take_length by lia. lia. }
  assert (Hkey : exists consumed d' fired,
             TextInput_handleKeyEvent b d event = Ok (consumed, d', fired)
             /\ (String.length (TextInput.text_ d')
                 <= String.length (TextInput.text_ d))%nat).
  { unfold TextInput_handleKeyEvent.
    cbn [ktext kpressed keycode event is_empty negb].
    destruct (negb (focused_ b));
      [eexists _, _, _; split; [reflexivity | lia]|].
    destruct pressed; [|eexists _, _, _; split; [reflexivity | lia]].
    destruct (key =? 14)%Z.
    { destruct (Nat.ltb_spec 0 (TextInput.cursorPos_ d));
        [|eexists _, _, _; split; [reflexivity | lia]].
      destruct (Herase (TextInput.cursorPos_ d - 1)%nat ltac:(lia))
        as (t & Et & Hl).
      rewrite Et. cbn [bind]. eexists _, _, _. split; [reflexivity|].
      exact Hl. }
    destruct (key =? 111)%Z.
    { destruct (Nat.ltb_spec (TextInput.cursorPos_ d)
                  (String.length (TextInput.text_ d)));
        [|eexists _, _, _; split; [reflexivity | lia]].
      destruct (Herase (TextInput.cursorPos_ d) ltac:(lia)) as (t & Et & Hl).
      rewrite Et. cbn [bind]. eexists _, _, _. split; [reflexivity|].
      exact Hl. }
    destruct (key =? 105)%Z.
    { destruct (0 <? TextInput.cursorPos_ d)%nat;
        eexists _, _, _; (split; [reflexivity | cbn; lia]). }
    destruct (key =? 106)%Z.
    { destruct (TextInput.cursorPos_ d <? String.length (TextInput.text_ d))%nat;
        eexists _, _, _; (split; [reflexivity | cbn; lia]). }
    destruct (key =? 28)%Z; eexists _, _, _; (split; [reflexivity | lia]). }
  destruct Hkey as (consumed & d' & fired & E & Hl).
  rewrite E. cbn [bind]. eexists _, _, _. split; [reflexivity|].
  split; [intros; discriminate|].
  intros text H. cbn [input_text] in *. injection H as <-.
  eexists. split; [reflexivity | exact Hl].
Qed.

(** A focused text input holding "abc" as the root: the key 30 ("a" on the
    keyboard) arrives without text. *)
Lemma Application_keys_witness :
  let root :=
    LeafW (set_focused WidgetBase_default true)
          (KTextInput (TextInput_value (TextInput_new "") "abc")) in
  cursors_in_range root
  /\ exists consumed root' fired text',
      Application_on_key (Some root) 30 true (key_press 0 "")
      = Some (Ok (consumed, root', fired))
      /\ input_text root' = Some text'
      /\ (String.length text' <= 3)%nat.
Proof.
  intro root.
  assert (Hin : cursors_in_range root).
  { unfold cursors_in_range. cbn. constructor; [|constructor].
    unfold cursor_in_range. cbn. lia. }
  split; [exact Hin|].
  destruct (Application_keys_never_insert_text root 30 true (key_press 0 "") Hin)
    as (consumed & root' & fired & E & _ & H).
  destruct (H "abc"%string eq_refl) as (text' & Ht & Hl).
  exists consumed, root', fired, text'. split; [exact E|].
  split; [exact Ht | exact Hl].
Defined.

Lemma same_geometry_flags (w w' : Widget) :
  forget_geometry w' = forget_geometry w ->
  enabled_ (base w') = enabled_ (base w)
  /\ onClickHandler_ (base w') = onClickHandler_ (base w)
  /\ (forall b k cs, w = ContW b k cs -> exists b' cs', w' = ContW b' k cs').
Proof.
  intro H.
  assert (He : forall v, enabled_ (base (forget_geometry v)) = enabled_ (base v))
    by (intros [? ?|? ? ?]; reflexivity).
  assert (Hc : forall v, onClickHandler_ (base (forget_geometry v))
                         = onClickHandler_ (base v))
    by (intros [? ?|? ? ?]; reflexivity).
  split; [rewrite <- (He w'), <- (He w), H; reflexivity|].
  split; [rewrite <- (Hc w'), <- (Hc w), H; reflexivity|].
  intros b k cs ->. destruct w' as [b' k'|b' k' cs']; cbn in H;
    [discriminate|].
  injection H as _ Hk _. subst k'. eexists _, _. reflexivity.
Qed.

(** [Application::setRoot] lays the root out over the whole window, and the
    button listener delivers every press at (0,0), which the window contains.
    So when the root is an enabled container, as it is by default, it
    consumes every left press itself, calling its own click handler if it has
    one, and the press reaches none of its children: no button, checkbox,
    slider or text input below the root is ever clicked. *)
Theorem Application_root_container_consumes_every_left_press :
  forall (width_ height_ : Z) (b : WidgetBase) (k : Layout) (cs : list Widget)
         (uninit : MouseEvent),
    (0 <= width_)%Z -> (0 <= height_)%Z ->
    enabled_ b = true ->
    exists root',
      Application_setRoot width_ height_ (ContW b k cs) = Ok root'
      /\ bounds root' = mkRect 0 0 (of_int width_) (of_int height_)
      /\ forget_geometry root' = forget_geometry (ContW b k cs)
      /\ Application_on_button (Some root') Left true uninit
         = Some (true, root', call (onClickHandler_ b) OnClick).
Proof.
  intros width_ height_ b k cs uninit Hw Hh He.
  unfold Application_setRoot.
  pose proof (measure_keeps_all_but_geometry (ContW b k cs)
                (mkSize (of_int width_) (of_int height_))) as Hm.
  destruct (measure (ContW b k cs) _) as [sz root1]. cbn [snd] in Hm.
  destruct (layout_ok root1 (mkRect 0 0 (of_int width_) (of_int height_)))
    as (root' & E & Hb & Hf).
  exists root'. split; [exact E|]. split; [exact Hb|].
  rewrite Hm in Hf. split; [exact Hf|].
  destruct (same_geometry_flags _ _ Hf) as (Hen & Hcl & Hk).
  destruct (Hk b k cs eq_refl) as (b' & cs' & ->).
  cbn [base] in Hen, Hcl. unfold bounds in Hb. cbn [base] in Hb.
  unfold Application_on_button. cbn [handleMouseButton].
  unfold Widget_handleMouseButton.
  cbn [pressed button position MouseButton_eqb andb].
  rewrite Hen, He, Hb, Hcl. cbn [negb].
  assert (Hc : contains (mkRect 0 0 (of_int width_) (of_int height_))
                        (mkPoint 0 0) = true).
  { unfold contains, Qgeb, Qleb. cbn [rx ry rwidth rheight px py].
    assert (H0 : 0 <= of_int width_)
      by (unfold of_int; change 0 with (inject_Z 0); rewrite <- Zle_Qle; lia).
    assert (H1 : 0 <= of_int height_)
      by (unfold of_int; change 0 with (inject_Z 0); rewrite <- Zle_Qle; lia).
    rewrite !andb_true_iff. repeat split; apply Qle_bool_iff; lra. }
  rewrite Hc. reflexivity.
Qed.

(** A window of 400 by 600 whose root is a box holding a button with a click
    handler: the press is consumed by the box. *)
Lemma Application_root_container_witness :
  let button := set_base (Button_new "OK")
                         (set_onClick (base (Button_new "OK")) (Some 1%nat)) in
  exists root',
    Application_setRoot 400 600 (Box_new Vertical 10 [button]) = Ok root'
    /\ Application_on_button (Some root') Left true (press_at 50 50)
       = Some (true, root', []).
Proof.
  intro button.
  destruct (Application_root_container_consumes_every_left_press
              400 600 WidgetBase_default
              (KBox (Box.mk Vertical 10 Start Start)) [button] (press_at 50 50))
    as (root' & E & _ & _ & H); try reflexivity; try lia.
  exists root'. split; [exact E | exact H].
Defined.

(** ** Measuring again *)

Section MeasureAgain.
Variable f : Widget -> Size -> Size * Widget.
Variable n : nat.
Hypothesis f_again :
  forall c a, (depth c < n)%nat -> f (snd (f c a)) a = f c a.

Lemma map_measure_again (cs : list Widget) (a : Size) :
  (forall c, In c cs -> (depth c < n)%nat) ->
  map (fun c => f c a) (map snd (map (fun c => f c a) cs))
  = map (fun c => f c a) cs.
Proof.
  intro H. rewrite !map_map. apply map_ext_in. intros c Hc.
  apply f_again. apply H. exact Hc.
Qed.

Lemma Layout_measureContent_again (k : Layout) (cs : list Widget) (a : Size) :
  (forall c, In c cs -> (depth c < n)%nat) ->
  Layout_measureContent f k (snd (Layout_measureContent f k cs a)) a
  = Layout_measureContent f k cs a.
Proof.
  intro H. destruct k as [ | d | d | d | d | d ];
    cbn [Layout_measureContent]; try reflexivity.
  - unfold Box_measureContent. destruct cs as [|c0 cs0]; [reflexivity|].
    assert (H0 : (depth c0 < n)%nat) by (apply H; left; reflexivity).
    assert (Hrest : forall c, In c cs0 -> (depth c < n)%nat)
      by (intros c Hc; apply H; right; exact Hc).
    destruct (Box.direction_ d); cbn [snd map List.length];
      rewrite !length_map;
      match goal with
      | |- context [f c0 ?a'] =>
          rewrite (f_again c0 a' H0), (map_measure_again cs0 a' Hrest)
      end; reflexivity.
  - unfold Stack_measureContent. cbn [snd].
    rewrite (map_measure_again cs a H). reflexivity.
  - unfold Grid_measureContent. destruct cs as [|c0 cs0]; [reflexivity|].
    destruct (Grid.columns_ d <=? 0)%Z; reflexivity.
  - unfold ScrollView_measureContent. destruct cs as [|c0 cs0]; [reflexivity|].
    assert (H0 : (depth c0 < n)%nat) by (apply H; left; reflexivity).
    destruct (ScrollView.scrollDir_ d).
    + pose proof (f_again c0 (mkSize 1000000000 (height a)) H0) as E.
      destruct (f c0 (mkSize 1000000000 (height a))) as [s c1].
      cbn [snd] in *. rewrite E. reflexivity.
    + pose proof (f_again c0 (mkSize (width a) 1000000000) H0) as E.
      destruct (f c0 (mkSize (width a) 1000000000)) as [s c1].
      cbn [snd] in *. rewrite E. reflexivity.
Qed.

Lemma Leaf_measureContent_cached (b : WidgetBase) (k : Leaf) (s a : Size) :
  Leaf_measureContent (set_measuredSize b s) k a = Leaf_measureContent b k a.
Proof. destruct k; reflexivity. Qed.

Lemma sub_margin_cached (b : WidgetBase) (s a : Size) :
  sub_margin (set_measuredSize b s) a = sub_margin b a.
Proof. reflexivity. Qed.

Lemma Widget_measure_again (w : Widget) (a : Size) :
  (depth w < S n)%nat ->
  Widget_measure f (snd (Widget_measure f w a)) a = Widget_measure f w a.
Proof.
  intro Hd. destruct w as [b k | b k cs]; cbn [Widget_measure].
  - destruct (visible_ b) eqn:Hv; cbn [negb snd Widget_measure];
      [|rewrite Hv; reflexivity].
    cbn [visible_ set_measuredSize widthSpec_ heightSpec_ style_ sub_margin].
    rewrite Hv. cbn [negb]. rewrite !Leaf_measureContent_cached.
    reflexivity.
  - destruct (visible_ b) eqn:Hv; cbn [negb snd Widget_measure];
      [|rewrite Hv; reflexivity].
    assert (Hcs : forall c, In c cs -> (depth c < n)%nat).
    { intros c Hc. pose proof (depth_child b k cs c Hc). lia. }
    pose proof (Layout_measureContent_again k cs (sub_margin b a) Hcs) as Hl.
    destruct (Layout_measureContent f k cs (sub_margin b a)) as [s cs1] eqn:E.
    cbn [snd] in Hl.
    destruct (constraint (widthSpec_ b)) eqn:Cw;
      destruct (constraint (heightSpec_ b)) eqn:Ch;
      rewrite ?E, ?Hl; cbn [snd Widget_measure];
      cbn [visible_ set_measuredSize widthSpec_ heightSpec_ style_];
      rewrite Hv, ?Cw, ?Ch; cbn [negb];
      rewrite ?sub_margin_cached, ?E, ?Hl; reflexivity.
Qed.
End MeasureAgain.

Lemma measure_fuel_again (n : nat) :
  forall w a,
    (depth w < n)%nat ->
    measure_fuel n (snd (measure_fuel n w a)) a = measure_fuel n w a.
Proof.
  induction n as [|n IH]; intros w a Hd; [lia|].
  cbn [measure_fuel]. apply (Widget_measure_again (measure_fuel n) n IH).
  exact Hd.
Qed.

(** [measure] can be repeated: measuring a tree again with the same available
    size returns the same size and leaves the tree, cached sizes included,
    exactly as the first call left it. *)
Theorem measure_again_changes_nothing :
  forall (w : Widget) (available : Size),
    measure (snd (measure w available)) available = measure w available.
Proof.
  intros w a. unfold measure at 1. rewrite measure_depth.
  unfold measure. apply measure_fuel_again. lia.
Qed.
